(** * build-deploy-rofl-action: the Safe proposal module and the entry point

    A shallow embedding of [src/safe.ts] (network table, subcall
    generation, nonce resolution, signing, dry run and submission), of
    the two debug lines of [src/main.ts] that print the collected inputs
    and the wallet-import command, and of [run], the entry point of the
    action, from its inputs to its outputs, followed by the properties
    proved about them.

    Conventions.  A JavaScript string is a [string]; [undefined] is [None];
    a thrown value is an [Exn]; a bigint is a [Z].  The SDKs the module loads
    at run time (Oasis client, Safe protocol kit, Safe API kit) and the Node
    runtime (file system, module resolution, [BigInt]) are not part of the
    repository: they are the fields of [Env], and every function of the
    module takes the environment it runs in.  The effects of the module
    (log lines, calls to the SDKs and to the wallet service, sleeps) are
    recorded in a [World] that is threaded through a state monad whose
    results are a value, a thrown exception or the exhaustion of the loop
    fuel. *)

From Stdlib Require Import String Ascii List ZArith Bool Lia DecimalString.
Import ListNotations.
Local Open Scope string_scope.
Local Open Scope list_scope.

(* ------------------------------------------------------------------ *)
(** ** JavaScript values *)

Module Js.

(** A thrown value: an [Error] object with its message, or any other
    value, of which only [String(value)] is ever observed. *)
Inductive Exn : Type :=
| JsError (message : string)
| JsThrown (repr : string).

(** [error instanceof Error ? error.message : String(error)] *)
Definition errorMessage (error : Exn) : string :=
  match error with
  | JsError message => message
  | JsThrown repr => repr
  end.

(** Truthiness of a string: every string but the empty one. *)
Definition truthy (s : string) : bool := negb (s =? "").

(** Truthiness of an optional string ([undefined] is falsy). *)
Definition truthy_opt (o : option string) : bool :=
  match o with
  | Some s => truthy s
  | None => false
  end.

(** [a || b] where [a] is a string and [b] may be [undefined]. *)
Definition or_else (a : string) (b : option string) : option string :=
  if truthy a then Some a else b.

(** [s.startsWith(pre)] *)
Definition startsWith (s pre : string) : bool := String.prefix pre s.

(** [n.toString()] of a bigint, and of a small non-negative number. *)
Definition Z_toString (z : Z) : string := NilZero.string_of_int (Z.to_int z).
Definition nat_toString (n : nat) : string :=
  NilZero.string_of_uint (Nat.to_uint n).

(** A template-string hole filled with a value that may be [undefined]. *)
Definition show (o : option string) : string :=
  match o with
  | Some s => s
  | None => "undefined"
  end.

(** [xs.join(sep)] *)
Fixpoint join (sep : string) (xs : list string) : string :=
  match xs with
  | [] => ""
  | [x] => x
  | x :: rest => x ++ sep ++ join sep rest
  end.

End Js.

(* ------------------------------------------------------------------ *)
(** ** src/safe.ts *)

Module Safe.
Import Js.

Definition Bytes : Type := list Byte.byte.

Record SafeInputs : Type := {
  safePropose : bool;
  safeAddress : string;
  safeProposerKey : string;
  safeRpcUrl : string;
  safeServiceUrl : string;
  safeChainId : string;
  grpcUrl : string;
  deployment : string;
  dryRun : bool
}.

Record TransactionFiles : Type := {
  updateFile : option string;
  deployFile : option string
}.

(** *** The network table *)

Record NetworkInfo : Type := {
  runtimeId : string;
  chainId : Z;
  grpcApi : string;
  web3Api : string;
  safeApi : string
}.

Definition mainnet : NetworkInfo := {|
  runtimeId :=
    "000000000000000000000000000000000000000000000000f80306c9858e7279";
  chainId := 23294;
  grpcApi := "https://grpc.oasis.io";
  web3Api := "https://sapphire.oasis.io";
  safeApi := "https://transaction.safe.oasis.io/api"
|}.

Definition testnet : NetworkInfo := {|
  runtimeId :=
    "000000000000000000000000000000000000000000000000a6d1e3ebf60dff6c";
  chainId := 23295;
  grpcApi := "https://testnet.grpc.oasis.io";
  web3Api := "https://testnet.sapphire.oasis.io";
  safeApi := "https://transaction-testnet.safe.oasis.io/api"
|}.

(** The own properties of the object literal [NETWORKS]. *)
Definition NETWORKS : list (string * NetworkInfo) :=
  [("mainnet", mainnet); ("testnet", testnet)].

(** [NETWORKS] is an ordinary object literal, so a property read that
    finds no own property goes on to [Object.prototype].  These are its
    property names; each holds a function, or for [__proto__] the
    prototype object itself, and all of them are truthy. *)
Definition Object_prototype : list string :=
  ["constructor"; "hasOwnProperty"; "isPrototypeOf";
   "propertyIsEnumerable"; "toLocaleString"; "toString"; "valueOf";
   "__defineGetter__"; "__defineSetter__"; "__lookupGetter__";
   "__lookupSetter__"; "__proto__"].

(** What a property read on [NETWORKS] yields when it is not
    [undefined]. *)
Inductive Property : Type :=
| Own (info : NetworkInfo)
| Inherited (key : string).

Fixpoint assoc {A : Type} (key : string) (l : list (string * A)) : option A :=
  match l with
  | [] => None
  | (k, v) :: rest => if k =? key then Some v else assoc key rest
  end.

Fixpoint mem (key : string) (l : list string) : bool :=
  match l with
  | [] => false
  | k :: rest => if k =? key then true else mem key rest
  end.

(** [NETWORKS[networkName]]; [None] is [undefined]. *)
Definition NETWORKS_get (networkName : string) : option Property :=
  match assoc networkName NETWORKS with
  | Some info => Some (Own info)
  | None =>
      if mem networkName Object_prototype
      then Some (Inherited networkName)
      else None
  end.

(** The fields read from [networkInfo]; a member of [Object.prototype]
    has none of them. *)
Definition get_runtimeId (p : Property) : option string :=
  match p with Own info => Some (runtimeId info) | Inherited _ => None end.
Definition get_chainId (p : Property) : option Z :=
  match p with Own info => Some (chainId info) | Inherited _ => None end.
Definition get_web3Api (p : Property) : option string :=
  match p with Own info => Some (web3Api info) | Inherited _ => None end.
Definition get_safeApi (p : Property) : option string :=
  match p with Own info => Some (safeApi info) | Inherited _ => None end.

(** *** Artifacts and descriptors *)

(** The decoded artifact: an object whose [call] may be absent, with a
    [method] and a [body] that may each be absent. *)
Record CborCall : Type := {
  method : option string;
  body : option Bytes
}.

Record Cbor : Type := {
  call : option CborCall
}.

(** What a runtime-call wrapper's [toSubcall()] returns. *)
Record Subcall : Type := {
  sub_to : string;
  sub_data : string;
  sub_value : option Z
}.

(** The flat [{to, data, value}] descriptor. *)
Record Tx : Type := {
  tx_to : string;
  tx_data : string;
  tx_value : string
}.

Inductive OperationType : Type := Call | DelegateCall.

Record MetaTransaction : Type := {
  mt_to : string;
  mt_data : string;
  mt_value : string;
  mt_operation : OperationType
}.

(** A Safe transaction, named by what it was created from. *)
Record SafeTransaction : Type := {
  st_transactions : list MetaTransaction;
  st_nonce : Z
}.

Record Signature : Type := {
  signer : string;
  sig_data : string
}.

Record ApiKit : Type := {
  ak_chainId : option Z;
  ak_txServiceUrl : option string
}.

Record ProtocolKit : Type := {
  pk_provider : option string;
  pk_signer : string;
  pk_safeAddress : string
}.

Record ProposeTransactionProps : Type := {
  pt_safeAddress : string;
  pt_safeTransactionData : SafeTransaction;
  pt_safeTxHash : string;
  pt_senderAddress : string;
  pt_senderSignature : string
}.

(** *** The environment *)

Record Env : Type := {
  (* Node *)
  existsSync : string -> bool;
  readFileSync : string -> Exn + Bytes;
  (* [createRequire(<path>/node_modules/_)(name)] and the plain
     [require(name)]; [None] when the module loads. *)
  createRequire : string -> string -> option Exn;
  require : string -> option Exn;
  BigInt : string -> Exn + Z;
  (* @oasisprotocol/client and client-rt *)
  fromHex : option string -> Exn + Bytes;
  fromCBOR : Bytes -> Exn + Cbor;
  rofl_callUpdate : Bytes -> option Bytes -> Subcall;
  roflmarket_callInstanceExecuteCmds : Bytes -> option Bytes -> Subcall;
  (* @safe-global/protocol-kit *)
  Safe_init : ProtocolKit -> option Exn;
  createTransaction : ProtocolKit -> SafeTransaction -> option Exn;
  getTransactionHash : ProtocolKit -> SafeTransaction -> Exn + string;
  signHash : ProtocolKit -> string -> Exn + Signature;
  getAddress : ProtocolKit -> string;
  (* @safe-global/api-kit: the wallet service.  The first argument is
     the number of earlier requests of the same kind in this run, so a
     service may fail twice and then answer. *)
  getNextNonce : nat -> ApiKit -> string -> Exn + Z;
  proposeTransaction : nat -> ApiKit -> ProposeTransactionProps -> option Exn
}.

(** The environment [env] with another file system. *)
Definition with_files (env : Env) (exists_ : string -> bool)
  (read : string -> Exn + Bytes) : Env := {|
  existsSync := exists_;
  readFileSync := read;
  createRequire := createRequire env;
  require := require env;
  BigInt := BigInt env;
  fromHex := fromHex env;
  fromCBOR := fromCBOR env;
  rofl_callUpdate := rofl_callUpdate env;
  roflmarket_callInstanceExecuteCmds := roflmarket_callInstanceExecuteCmds env;
  Safe_init := Safe_init env;
  createTransaction := createTransaction env;
  getTransactionHash := getTransactionHash env;
  signHash := signHash env;
  getAddress := getAddress env;
  getNextNonce := getNextNonce env;
  proposeTransaction := proposeTransaction env
|}.

(** *** The world *)

Inductive LogLevel : Type := LInfo | LWarning | LError.

(** What the module does to the outside, in order. *)
Inductive Effect : Type :=
| NewSafeApiKit (kit : ApiKit)
| SafeInit (kit : ProtocolKit)
| GetNextNonce (address : string)
| Sleep (ms : Z)
| CreateTransaction (tx : SafeTransaction)
| GetTransactionHash (tx : SafeTransaction)
| SignHash (hash : string)
| ProposeTransaction (props : ProposeTransactionProps).

Record World : Type := {
  logs : list (LogLevel * string);
  effects : list Effect;
  nonce_requests : nat;
  propose_requests : nat;
  (* the wallet service's record of accepted proposals *)
  proposals : list ProposeTransactionProps
}.

Definition init_world : World := {|
  logs := [];
  effects := [];
  nonce_requests := 0;
  propose_requests := 0;
  proposals := []
|}.

(** *** The monad *)

Inductive Res (A : Type) : Type :=
| Ok (a : A)
| Throw (e : Exn)
| OutOfFuel.
Arguments Ok {A} a.
Arguments Throw {A} e.
Arguments OutOfFuel {A}.

Definition M (A : Type) : Type := World -> World * Res A.

Definition ret {A : Type} (a : A) : M A := fun w => (w, Ok a).

Definition throw {A : Type} (e : Exn) : M A := fun w => (w, Throw e).

Definition bind {A B : Type} (m : M A) (k : A -> M B) : M B :=
  fun w =>
    match m w with
    | (w', Ok a) => k a w'
    | (w', Throw e) => (w', Throw e)
    | (w', OutOfFuel) => (w', OutOfFuel)
    end.

(** [try { m } catch (error) { ... }]: the thrown value is handed over. *)
Definition try_ {A : Type} (m : M A) : M (Exn + A) :=
  fun w =>
    match m w with
    | (w', Ok a) => (w', Ok (inr a))
    | (w', Throw e) => (w', Ok (inl e))
    | (w', OutOfFuel) => (w', OutOfFuel)
    end.

Definition lift {A : Type} (r : Exn + A) : M A :=
  match r with
  | inl e => throw e
  | inr a => ret a
  end.

Definition lift_unit (r : option Exn) : M unit :=
  match r with
  | Some e => throw e
  | None => ret tt
  end.

Declare Scope safe_scope.
Delimit Scope safe_scope with safe.
Notation "x <- m ; k" := (bind m (fun x => k))
  (at level 100, m at next level, right associativity) : safe_scope.
Notation "m ;; k" := (bind m (fun _ => k))
  (at level 100, right associativity) : safe_scope.
Local Open Scope safe_scope.

Definition log (level : LogLevel) (msg : string) : M unit :=
  fun w =>
    ({| logs := logs w ++ [(level, msg)];
        effects := effects w;
        nonce_requests := nonce_requests w;
        propose_requests := propose_requests w;
        proposals := proposals w |}, Ok tt).

Definition info : string -> M unit := log LInfo.
Definition warning : string -> M unit := log LWarning.
Definition error : string -> M unit := log LError.

Definition effect (e : Effect) : M unit :=
  fun w =>
    ({| logs := logs w;
        effects := effects w ++ [e];
        nonce_requests := nonce_requests w;
        propose_requests := propose_requests w;
        proposals := proposals w |}, Ok tt).

(** [await new Promise((resolve) => setTimeout(resolve, ms))] *)
Definition sleep (ms : Z) : M unit := effect (Sleep ms).

(** *** The functions of the module, in an environment *)

Section WithEnv.

Variable env : Env.

(** How [loadModule(moduleName, nodeModulesPath)] resolves the module:
    with a truthy path by [createRequire] from [<path>/node_modules/_],
    otherwise by the plain [require]; [None] when the module loads. *)
Definition resolveModule (moduleName : string) (nodeModulesPath : option string)
  : option Exn :=
  match nodeModulesPath with
  | Some p =>
      if truthy p
      then createRequire env p moduleName
      else require env moduleName
  | None => require env moduleName
  end.

(** [loadModule(moduleName, nodeModulesPath)]; the module object it
    returns is the SDK of [env]. *)
Definition loadModule (moduleName : string) (nodeModulesPath : option string)
  : M unit :=
  lift_unit (resolveModule moduleName nodeModulesPath).

(** The modules of the list load. *)
Definition installed (nodeModulesPath : option string) (names : list string)
  : Prop :=
  Forall (fun name => resolveModule name nodeModulesPath = None) names.

(** [{to: tx.to, data: tx.data, value: tx.value ? tx.value.toString() : '0'}] *)
Definition descriptor (tx : Subcall) : Tx := {|
  tx_to := sub_to tx;
  tx_data := sub_data tx;
  tx_value :=
    match sub_value tx with
    | Some v => if Z.eqb v 0 then "0" else Z_toString v
    | None => "0"
    end
|}.

(** [cbor.call.body], which throws a [TypeError] when [cbor.call] is
    [undefined]. *)
Definition call_body (cbor : Cbor) : M (option Bytes) :=
  match call cbor with
  | Some c => ret (body c)
  | None =>
      throw (JsError "Cannot read properties of undefined (reading 'body')")
  end.

(** The block of [generateTransactions] under [// Process update file]:
    the list [transactions] after it. *)
Definition process_update_file (sapphireRuntimeId : Bytes)
  (files : TransactionFiles) (transactions : list Tx) : M (list Tx) :=
  match updateFile files with
  | Some path =>
      if truthy path && existsSync env path then
        info ("Processing update transaction from: " ++ path) ;;
        updateData <- lift (readFileSync env path) ;
        updateCbor <- lift (fromCBOR env updateData) ;
        (* Extract the call body and create a subcall transaction *)
        b <- call_body updateCbor ;
        let txUpdateEnclaves := rofl_callUpdate env sapphireRuntimeId b in
        info ("Update subcall: to=" ++ sub_to txUpdateEnclaves) ;;
        ret (transactions ++ [descriptor txUpdateEnclaves])
      else ret transactions
  | None => ret transactions
  end.

(** The block of [generateTransactions] under [// Process deploy file]:
    the list [transactions] after it. *)
Definition process_deploy_file (sapphireRuntimeId : Bytes)
  (files : TransactionFiles) (transactions : list Tx) : M (list Tx) :=
  match deployFile files with
  | Some path =>
      if truthy path && existsSync env path then
        info ("Processing deploy transaction from: " ++ path) ;;
        deployData <- lift (readFileSync env path) ;
        deployCbor <- lift (fromCBOR env deployData) ;
        (* if (deployCbor.call && deployCbor.call.method) *)
        match call deployCbor with
        | Some c =>
            if truthy_opt (method c) then
              let method := show (method c) in
              info ("Deploy method: " ++ method) ;;
              if startsWith method "roflmarket." then
                (* Use roflmarket wrapper *)
                let txDeploy :=
                  roflmarket_callInstanceExecuteCmds env
                    sapphireRuntimeId (body c) in
                ret (transactions ++ [descriptor txDeploy])
              else
                (* Unknown method - error out *)
                throw (JsError
                  ("Unsupported deploy CBOR method: " ++ method ++ ". " ++
                   "Supported methods: rofl.Update, roflmarket.*"))
            else ret transactions
        | None => ret transactions
        end
      else ret transactions
  | None => ret transactions
  end.

Definition generateTransactions (files : TransactionFiles)
  (networkName : string) (nodeModulesPath : option string) : M (list Tx) :=
  networkInfo <-
    match NETWORKS_get networkName with
    | Some p => ret p
    | None =>
        throw (JsError ("Unknown network: " ++ networkName ++
                        ". Supported: mainnet, testnet"))
    end ;
  (* Load Oasis SDK modules *)
  loadModule "@oasisprotocol/client" nodeModulesPath ;;
  loadModule "@oasisprotocol/client-rt" nodeModulesPath ;;
  sapphireRuntimeId <- lift (fromHex env (get_runtimeId networkInfo)) ;
  let transactions : list Tx := [] in
  transactions <- process_update_file sapphireRuntimeId files transactions ;
  transactions <- process_deploy_file sapphireRuntimeId files transactions ;
  ret transactions.

(** **** Calls to the Safe SDKs *)

Definition protocolKit_init (kit : ProtocolKit) : M unit :=
  effect (SafeInit kit) ;; lift_unit (Safe_init env kit).

Definition apiKit_getNextNonce (kit : ApiKit) (address : string) : M Z :=
  fun w =>
    let w' := {| logs := logs w;
                 effects := effects w ++ [GetNextNonce address];
                 nonce_requests := S (nonce_requests w);
                 propose_requests := propose_requests w;
                 proposals := proposals w |} in
    match getNextNonce env (nonce_requests w) kit address with
    | inr n => (w', Ok n)
    | inl e => (w', Throw e)
    end.

Definition protocolKit_createTransaction (kit : ProtocolKit)
  (transactions : list MetaTransaction) (nonce : Z) : M SafeTransaction :=
  let tx := {| st_transactions := transactions; st_nonce := nonce |} in
  effect (CreateTransaction tx) ;;
  lift_unit (createTransaction env kit tx) ;;
  ret tx.

Definition protocolKit_getTransactionHash (kit : ProtocolKit)
  (tx : SafeTransaction) : M string :=
  effect (GetTransactionHash tx) ;; lift (getTransactionHash env kit tx).

Definition protocolKit_signHash (kit : ProtocolKit) (hash : string)
  : M Signature :=
  effect (SignHash hash) ;; lift (signHash env kit hash).

(** An accepted proposal is added to the wallet service's record. *)
Definition apiKit_proposeTransaction (kit : ApiKit)
  (props : ProposeTransactionProps) : M unit :=
  fun w =>
    match proposeTransaction env (propose_requests w) kit props with
    | None =>
        ({| logs := logs w;
            effects := effects w ++ [ProposeTransaction props];
            nonce_requests := nonce_requests w;
            propose_requests := S (propose_requests w);
            proposals := proposals w ++ [props] |}, Ok tt)
    | Some e =>
        ({| logs := logs w;
            effects := effects w ++ [ProposeTransaction props];
            nonce_requests := nonce_requests w;
            propose_requests := S (propose_requests w);
            proposals := proposals w |}, Throw e)
    end.

(** **** The nonce loop of [proposeToSafe] *)

Definition nonceMaxRetries : Z := 3.

(** [for (let attempt = 1; attempt <= nonceMaxRetries; attempt++) { try
    ... catch ... }], started with [attempt] and the current [nonce];
    its value is [nonce] when the loop is left. *)
Fixpoint nonce_loop (fuel : nat) (apiKit : ApiKit) (inputs : SafeInputs)
  (attempt : Z) (nonce : Z) : M Z :=
  match fuel with
  | O => fun w => (w, OutOfFuel)
  | S fuel' =>
      if Z.leb attempt nonceMaxRetries then
        r <- try_
               (info ("Getting next nonce - Attempt " ++ Z_toString attempt ++
                      "/" ++ Z_toString nonceMaxRetries) ;;
                nonce <- apiKit_getNextNonce apiKit (safeAddress inputs) ;
                info ("Safe next nonce (including pending): " ++
                      Z_toString nonce) ;;
                ret nonce) ;
        match r with
        | inr nonce => ret nonce (* break *)
        | inl error =>
            let errorMessage := errorMessage error in
            warning ("getNextNonce failed on attempt " ++ Z_toString attempt ++
                     ": " ++ errorMessage) ;;
            if Z.eqb attempt nonceMaxRetries then
              throw (JsError ("Failed to get nonce after " ++
                              Z_toString nonceMaxRetries ++ " attempts: " ++
                              errorMessage))
            else
              (* Wait before retry *)
              sleep (1000 * attempt) ;;
              nonce_loop fuel' apiKit inputs (attempt + 1) nonce
        end
      else ret nonce
  end.

(** **** The submission loop of [proposeToSafe] *)

Definition maxRetries : Z := 2.

(** [while (retryCount <= maxRetries) { try ... catch ... }] followed by
    the [throw] after the loop. *)
Fixpoint propose_loop (fuel : nat) (apiKit : ApiKit) (protocolKit : ProtocolKit)
  (safeTransaction : SafeTransaction) (safeTxHash : string)
  (signature : Signature) (retryCount : Z) : M string :=
  match fuel with
  | O => fun w => (w, OutOfFuel)
  | S fuel' =>
      if Z.leb retryCount maxRetries then
        r <- try_
               (info ("Proposing transaction - Attempt " ++
                      Z_toString (retryCount + 1) ++ "/" ++
                      Z_toString (maxRetries + 1)) ;;
                apiKit_proposeTransaction apiKit
                  {| pt_safeAddress := getAddress env protocolKit;
                     pt_safeTransactionData := safeTransaction;
                     pt_safeTxHash := safeTxHash;
                     pt_senderAddress := signer signature;
                     pt_senderSignature := sig_data signature |} ;;
                info "Transaction proposed successfully!" ;;
                info ("Safe TX Hash: " ++ safeTxHash) ;;
                ret safeTxHash) ;
        match r with
        | inr hash => ret hash (* return *)
        | inl error_ =>
            let retryCount := (retryCount + 1)%Z in
            let errorMessage := errorMessage error_ in
            warning ("Transaction proposal failed on attempt " ++
                     Z_toString retryCount ++ ": " ++ errorMessage) ;;
            if Z.ltb maxRetries retryCount then
              error ("Transaction proposal failed after " ++
                     Z_toString (maxRetries + 1) ++ " attempts") ;;
              throw error_
            else
              let delay := (1000 * retryCount)%Z in
              info ("Retrying in " ++ Z_toString delay ++ "ms...") ;;
              sleep delay ;;
              propose_loop fuel' apiKit protocolKit safeTransaction
                safeTxHash signature retryCount
        end
      else throw (JsError "Failed to propose transaction after all retries")
  end.

(** **** [proposeToSafe] *)

(** The loop of the dry run that prints each operation, started at
    index [i]. *)
Fixpoint log_operations (i : nat) (transactions : list Tx) : M unit :=
  match transactions with
  | [] => ret tt
  | tx :: rest =>
      info ("  [" ++ nat_toString (i + 1) ++ "] to: " ++ tx_to tx) ;;
      info ("      data: " ++ substring 0 66 (tx_data tx) ++ "...") ;;
      info ("      value: " ++ tx_value tx) ;;
      log_operations (S i) rest
  end.

(** [{...tx, value: tx.value || '0', operation: OperationType.Call}] *)
Definition metaTransaction (tx : Tx) : MetaTransaction := {|
  mt_to := tx_to tx;
  mt_data := tx_data tx;
  mt_value := if truthy (tx_value tx) then tx_value tx else "0";
  mt_operation := Call
|}.

(** [fuel] bounds the iterations of each of the two retry loops. *)
Definition proposeToSafe (fuel : nat) (inputs : SafeInputs)
  (files : TransactionFiles) (networkName : string)
  (nodeModulesPath : option string) : M string :=
  info "Proposing transactions to Safe multisig..." ;;
  networkInfo <-
    match NETWORKS_get networkName with
    | Some p => ret p
    | None =>
        throw (JsError ("Unknown network: " ++ networkName ++
                        ". Supported: mainnet, testnet"))
    end ;
  (* Enable XMLHttpRequest for Node.js *)
  loadModule "xhr2" nodeModulesPath ;;
  (* Load Safe SDK modules *)
  loadModule "@safe-global/protocol-kit" nodeModulesPath ;;
  loadModule "@safe-global/api-kit" nodeModulesPath ;;
  loadModule "@safe-global/types-kit" nodeModulesPath ;;
  (* Generate subcall transactions from CBOR files *)
  transactions <- generateTransactions files networkName nodeModulesPath ;
  if Nat.eqb (length transactions) 0 then
    throw (JsError "No transaction files found to propose")
  else
  info ("Creating Safe transaction with " ++
        nat_toString (length transactions) ++ " operation(s)") ;;
  (* Use custom values if provided, otherwise use network defaults *)
  let rpcUrl := or_else (safeRpcUrl inputs) (get_web3Api networkInfo) in
  let serviceUrl := or_else (safeServiceUrl inputs) (get_safeApi networkInfo) in
  chainId <-
    (if truthy (safeChainId inputs)
     then c <- lift (BigInt env (safeChainId inputs)) ; ret (Some c)
     else ret (get_chainId networkInfo)) ;
  info ("Using RPC URL: " ++ show rpcUrl) ;;
  info ("Using Safe service URL: " ++ show serviceUrl) ;;
  info ("Using chain ID: " ++ show (option_map Z_toString chainId)) ;;
  (* Initialize Safe API Kit *)
  let apiKit := {| ak_chainId := chainId; ak_txServiceUrl := serviceUrl |} in
  effect (NewSafeApiKit apiKit) ;;
  (* Initialize Safe Protocol Kit *)
  let protocolKit := {| pk_provider := rpcUrl;
                        pk_signer := safeProposerKey inputs;
                        pk_safeAddress := safeAddress inputs |} in
  protocolKit_init protocolKit ;;
  (* Get the next nonce considering pending transactions with retry logic *)
  nonce <- nonce_loop fuel apiKit inputs 1 0 ;
  (* Create Safe transaction with proper operation type and nonce *)
  safeTransaction <-
    protocolKit_createTransaction protocolKit
      (map metaTransaction transactions) nonce ;
  (* Get transaction hash *)
  safeTxHash <- protocolKit_getTransactionHash protocolKit safeTransaction ;
  (* Sign the hash *)
  signature <- protocolKit_signHash protocolKit safeTxHash ;
  info ("Proposer address: " ++ signer signature) ;;
  info ("Safe TX Hash: " ++ safeTxHash) ;;
  (* In dry run mode, log details and return without actually proposing *)
  if dryRun inputs then
    info "=== DRY RUN MODE ===" ;;
    info "Safe transaction created and signed successfully." ;;
    info "Transaction details:" ;;
    info ("  Safe Address: " ++ safeAddress inputs) ;;
    info ("  Proposer: " ++ signer signature) ;;
    info ("  TX Hash: " ++ safeTxHash) ;;
    info ("  Operations: " ++ nat_toString (length transactions)) ;;
    log_operations 0 transactions ;;
    info "Skipping actual proposal to Safe service (dry run)." ;;
    info "=== DRY RUN COMPLETE ===" ;;
    ret safeTxHash
  else
  (* Propose to Safe Transaction Service with retry logic *)
  propose_loop fuel apiKit protocolKit safeTransaction safeTxHash signature 0.

(** **** [runSafeProposal] *)

Definition runSafeProposal (fuel : nat) (inputs : SafeInputs)
  (files : TransactionFiles) (networkName : string)
  (nodeModulesPath : option string) : M (option string) :=
  if negb (safePropose inputs) then ret None
  else
  (* Validate required inputs *)
  if negb (truthy (safeAddress inputs)) then
    throw (JsError "safe_address is required when safe_propose is enabled")
  else
  if negb (truthy (safeProposerKey inputs)) then
    throw (JsError "safe_proposer_key is required when safe_propose is enabled")
  else
  hash <- proposeToSafe fuel inputs files networkName nodeModulesPath ;
  ret (Some hash).

End WithEnv.

End Safe.

(* ------------------------------------------------------------------ *)
(** ** src/main.ts: the debug lines of [run] *)

Module Main.
Import Js.

(** The object that [run] collects the action's inputs into, in the order
    of the object literal. *)
Record Inputs : Type := {
  cliVersion : string;
  checkUpdates : bool;
  createUpdatePr : bool;
  config : string;
  deployment : string;
  encrypted : bool;
  feeDenom : string;
  force : bool;
  format : string;
  gasLimit : string;
  gasPrice : string;
  machine : string;
  network : string;
  noContainer : bool;
  noUpdateManifest : bool;
  updateManifest : bool;
  nonce : string;
  offer : string;
  offline : bool;
  onlyValidate : bool;
  output : string;
  outputFile : string;
  provider : string;
  replaceMachine : bool;
  showOffers : bool;
  term : string;
  termCount : string;
  unsigned : bool;
  verbose : bool;
  verify : bool;
  walletAccount : string;
  walletImport : bool;
  walletAlgorithm : string;
  walletNumber : string;
  walletSecret : string;
  wipeStorage : bool;
  workingDirectory : string;
  skipBuild : bool;
  skipUpdate : bool;
  skipDeploy : bool;
  updateOutputFile : string;
  deployOutputFile : string;
  safeAddress : string;
  safeProposerKey : string;
  safeRpcUrl : string;
  safeServiceUrl : string;
  safeChainId : string;
  safeDryRun : bool
}.

(** *** [JSON.stringify] on an object of strings and booleans *)

Inductive JValue : Type :=
| JString (s : string)
| JBool (b : bool).

(** An object: its own properties in insertion order. *)
Definition JObject : Type := list (string * JValue).

Definition properties (inputs : Inputs) : JObject :=
  [("cliVersion", JString (cliVersion inputs));
   ("checkUpdates", JBool (checkUpdates inputs));
   ("createUpdatePr", JBool (createUpdatePr inputs));
   ("config", JString (config inputs));
   ("deployment", JString (deployment inputs));
   ("encrypted", JBool (encrypted inputs));
   ("feeDenom", JString (feeDenom inputs));
   ("force", JBool (force inputs));
   ("format", JString (format inputs));
   ("gasLimit", JString (gasLimit inputs));
   ("gasPrice", JString (gasPrice inputs));
   ("machine", JString (machine inputs));
   ("network", JString (network inputs));
   ("noContainer", JBool (noContainer inputs));
   ("noUpdateManifest", JBool (noUpdateManifest inputs));
   ("updateManifest", JBool (updateManifest inputs));
   ("nonce", JString (nonce inputs));
   ("offer", JString (offer inputs));
   ("offline", JBool (offline inputs));
   ("onlyValidate", JBool (onlyValidate inputs));
   ("output", JString (output inputs));
   ("outputFile", JString (outputFile inputs));
   ("provider", JString (provider inputs));
   ("replaceMachine", JBool (replaceMachine inputs));
   ("showOffers", JBool (showOffers inputs));
   ("term", JString (term inputs));
   ("termCount", JString (termCount inputs));
   ("unsigned", JBool (unsigned inputs));
   ("verbose", JBool (verbose inputs));
   ("verify", JBool (verify inputs));
   ("walletAccount", JString (walletAccount inputs));
   ("walletImport", JBool (walletImport inputs));
   ("walletAlgorithm", JString (walletAlgorithm inputs));
   ("walletNumber", JString (walletNumber inputs));
   ("walletSecret", JString (walletSecret inputs));
   ("wipeStorage", JBool (wipeStorage inputs));
   ("workingDirectory", JString (workingDirectory inputs));
   ("skipBuild", JBool (skipBuild inputs));
   ("skipUpdate", JBool (skipUpdate inputs));
   ("skipDeploy", JBool (skipDeploy inputs));
   ("updateOutputFile", JString (updateOutputFile inputs));
   ("deployOutputFile", JString (deployOutputFile inputs));
   ("safeAddress", JString (safeAddress inputs));
   ("safeProposerKey", JString (safeProposerKey inputs));
   ("safeRpcUrl", JString (safeRpcUrl inputs));
   ("safeServiceUrl", JString (safeServiceUrl inputs));
   ("safeChainId", JString (safeChainId inputs));
   ("safeDryRun", JBool (safeDryRun inputs))].

(** [{...o, key: v}]: a key the object has keeps its place. *)
Fixpoint set_property (key : string) (v : JValue) (o : JObject) : JObject :=
  match o with
  | [] => [(key, v)]
  | (k, x) :: rest =>
      if k =? key then (k, v) :: rest else (k, x) :: set_property key v rest
  end.

Fixpoint get_property (key : string) (o : JObject) : option JValue :=
  match o with
  | [] => None
  | (k, x) :: rest => if k =? key then Some x else get_property key rest
  end.

Definition hex_digit (n : nat) : ascii :=
  if Nat.ltb n 10 then ascii_of_nat (48 + n) else ascii_of_nat (87 + n).

Definition double_quote : string := String (ascii_of_nat 34) "".

(** The escape of one character inside a JSON string. *)
Definition escape_char (c : ascii) : string :=
  let n := nat_of_ascii c in
  if Nat.eqb n 34 then "\" ++ double_quote
  else if Nat.eqb n 92 then "\\"
  else if Nat.eqb n 8 then "\b"
  else if Nat.eqb n 12 then "\f"
  else if Nat.eqb n 10 then "\n"
  else if Nat.eqb n 13 then "\r"
  else if Nat.eqb n 9 then "\t"
  else if Nat.ltb n 32 then
    "\u00" ++ String (hex_digit (n / 16)) (String (hex_digit (n mod 16)) "")
  else String c "".

Fixpoint escape (s : string) : string :=
  match s with
  | EmptyString => ""
  | String c rest => escape_char c ++ escape rest
  end.

Definition quote (s : string) : string := double_quote ++ escape s ++ double_quote.

Definition stringify_value (v : JValue) : string :=
  match v with
  | JString s => quote s
  | JBool true => "true"
  | JBool false => "false"
  end.

Definition JSON_stringify (o : JObject) : string :=
  "{" ++ join ","
           (map (fun kv : string * JValue =>
                   (quote (fst kv) ++ ":" ++ stringify_value (snd kv))%string) o)
      ++ "}".

(** *** The collected inputs *)

(** [{...inputs, safeProposerKey: '***', walletSecret: '***'}] *)
Definition redactedInputs (inputs : Inputs) : JObject :=
  set_property "walletSecret" (JString "***")
    (set_property "safeProposerKey" (JString "***") (properties inputs)).

(** The message of the first [core.debug] of [run]. *)
Definition collected_inputs_debug (inputs : Inputs) : string :=
  "Collected inputs: " ++ JSON_stringify (redactedInputs inputs).

(** *** The wallet-import command *)

Definition flag (name value : string) : list string :=
  if truthy value then [name; value] else [].

Definition walletImportArgs (inputs : Inputs) : list string :=
  ["wallet"; "import"; walletAccount inputs; "--yes"]
    ++ flag "--algorithm" (walletAlgorithm inputs)
    ++ flag "--config" (config inputs)
    ++ flag "--number" (walletNumber inputs)
    ++ flag "--secret" (walletSecret inputs).

(** [xs[i]]; an index outside the array reads [undefined]. *)
Definition at_index (xs : list string) (i : Z) : option string :=
  if Z.ltb i 0 then None else nth_error xs (Z.to_nat i).

(** [xs.map((x, i) => f(x, i))], the index starting at [i]. *)
Fixpoint map_indexed {A B : Type} (f : A -> Z -> B) (i : Z) (xs : list A)
  : list B :=
  match xs with
  | [] => []
  | x :: rest => f x i :: map_indexed f (i + 1) rest
  end.

Definition is_string (o : option string) (s : string) : bool :=
  match o with
  | Some x => x =? s
  | None => false
  end.

(** [walletImportArgs.map((arg, i) =>
      walletImportArgs[i - 1] === '--secret' ? '***' : arg)] *)
Definition redactedWalletArgs (walletImportArgs : list string) : list string :=
  map_indexed
    (fun arg i =>
       if is_string (at_index walletImportArgs (i - 1)) "--secret"
       then "***" else arg)
    0 walletImportArgs.

(** The message of the [core.debug] that prints the wallet-import
    command. *)
Definition walletImportArgs_debug (inputs : Inputs) : string :=
  "Built walletImportArgs: "
    ++ join " " (redactedWalletArgs (walletImportArgs inputs)).

(** The same redaction as one pass that remembers the argument before
    the current one. *)
Fixpoint redact_from (prev : option string) (args : list string)
  : list string :=
  match args with
  | [] => []
  | arg :: rest =>
      (if is_string prev "--secret" then "***" else arg)
        :: redact_from (Some arg) rest
  end.

(** The last element of [xs], or [prev] when there is none. *)
Definition last_or (prev : option string) (xs : list string) : option string :=
  fold_left (fun _ x => Some x) xs prev.

(** The same inputs with other secrets: the Safe proposer key and the
    wallet secret are replaced, every other field is kept. *)
Definition with_secrets (inputs : Inputs) (key secret : string) : Inputs := {|
  cliVersion := cliVersion inputs;
  checkUpdates := checkUpdates inputs;
  createUpdatePr := createUpdatePr inputs;
  config := config inputs;
  deployment := deployment inputs;
  encrypted := encrypted inputs;
  feeDenom := feeDenom inputs;
  force := force inputs;
  format := format inputs;
  gasLimit := gasLimit inputs;
  gasPrice := gasPrice inputs;
  machine := machine inputs;
  network := network inputs;
  noContainer := noContainer inputs;
  noUpdateManifest := noUpdateManifest inputs;
  updateManifest := updateManifest inputs;
  nonce := nonce inputs;
  offer := offer inputs;
  offline := offline inputs;
  onlyValidate := onlyValidate inputs;
  output := output inputs;
  outputFile := outputFile inputs;
  provider := provider inputs;
  replaceMachine := replaceMachine inputs;
  showOffers := showOffers inputs;
  term := term inputs;
  termCount := termCount inputs;
  unsigned := unsigned inputs;
  verbose := verbose inputs;
  verify := verify inputs;
  walletAccount := walletAccount inputs;
  walletImport := walletImport inputs;
  walletAlgorithm := walletAlgorithm inputs;
  walletNumber := walletNumber inputs;
  walletSecret := secret;
  wipeStorage := wipeStorage inputs;
  workingDirectory := workingDirectory inputs;
  skipBuild := skipBuild inputs;
  skipUpdate := skipUpdate inputs;
  skipDeploy := skipDeploy inputs;
  updateOutputFile := updateOutputFile inputs;
  deployOutputFile := deployOutputFile inputs;
  safeAddress := safeAddress inputs;
  safeProposerKey := key;
  safeRpcUrl := safeRpcUrl inputs;
  safeServiceUrl := safeServiceUrl inputs;
  safeChainId := safeChainId inputs;
  safeDryRun := safeDryRun inputs
|}.

End Main.

(* ------------------------------------------------------------------ *)
(** ** The vocabulary of the statements *)

Module Props.
Import Js Safe.

(** [needle] occurs in [s]. *)
Fixpoint contains (needle s : string) : bool :=
  String.prefix needle s ||
  match s with
  | EmptyString => false
  | String _ rest => contains needle rest
  end.

(** The world [w] with the log lines [ls] added. *)
Definition add_logs (w : World) (ls : list (LogLevel * string)) : World := {|
  logs := logs w ++ ls;
  effects := effects w;
  nonce_requests := nonce_requests w;
  propose_requests := propose_requests w;
  proposals := proposals w
|}.

(** A computation that does nothing but log, and needs no fuel: its
    result and its log lines are the same in every world. *)
Definition only_logs {A : Type} (m : M A) : Prop :=
  exists (r : Res A) (ls : list (LogLevel * string)),
    r <> OutOfFuel /\ forall w, m w = (add_logs w ls, r).

(** The network is known, the Oasis SDK is loaded and [id] is the
    runtime identifier as bytes: [generateTransactions] reaches the
    artifact files. *)
Definition ready (env : Env) (networkName : string)
  (nodeModulesPath : option string) (id : Bytes) : Prop :=
  exists p,
    NETWORKS_get networkName = Some p /\
    installed env nodeModulesPath
      ["@oasisprotocol/client"; "@oasisprotocol/client-rt"] /\
    fromHex env (get_runtimeId p) = inr id.

(** No file is named, or the named file does not exist. *)
Definition absent (env : Env) (path : option string) : Prop :=
  match path with
  | Some p => truthy p && existsSync env p = false
  | None => True
  end.

(** The named file exists and decodes to an artifact with the call [c]. *)
Definition holds_artifact (env : Env) (path : option string) (c : CborCall)
  : Prop :=
  exists p data cbor,
    path = Some p /\ truthy p = true /\ existsSync env p = true /\
    readFileSync env p = inr data /\ fromCBOR env data = inr cbor /\
    call cbor = Some c.

(** The descriptors the update artifact contributes: none when it is
    absent, the wrapped update call when it is present and decodes. *)
Definition update_part (env : Env) (id : Bytes) (files : TransactionFiles)
  (txs : list Tx) : Prop :=
  (absent env (updateFile files) /\ txs = []) \/
  (exists c, holds_artifact env (updateFile files) c /\
             txs = [descriptor (rofl_callUpdate env id (body c))]).

(** The two method families the error message of the deploy block
    names as supported. *)
Definition supported_family (m : string) : bool :=
  (m =? "rofl.Update") || startsWith m "roflmarket.".

(** The call declares a method of the roflmarket family. *)
Definition roflmarket_method (c : CborCall) : bool :=
  truthy_opt (method c) && startsWith (show (method c)) "roflmarket.".

(** The file systems [exists_], [read] and that of [env] agree on the
    files that [files] names. *)
Definition same_artifacts (env : Env) (exists_ : string -> bool)
  (read : string -> Exn + Bytes) (files : TransactionFiles) : Prop :=
  forall p,
    updateFile files = Some p \/ deployFile files = Some p ->
    exists_ p = existsSync env p /\ read p = readFileSync env p.

Definition is_propose (e : Effect) : bool :=
  match e with
  | ProposeTransaction _ => true
  | _ => false
  end.

Definition is_create (e : Effect) : bool :=
  match e with
  | CreateTransaction _ => true
  | _ => false
  end.

(** From [w] to [w'] the wallet service's record is untouched and no
    propose request was made. *)
Definition quiet (w w' : World) : Prop :=
  proposals w' = proposals w /\
  propose_requests w' = propose_requests w /\
  exists added,
    effects w' = effects w ++ added /\
    forallb (fun e => negb (is_propose e)) added = true.

Definition stays_quiet {A : Type} (m : M A) : Prop :=
  forall w, quiet w (fst (m w)).

(** [w'] is [w] after the effects [es], of which [k] are nonce requests
    and none a propose request: the wallet service's record is as it
    was. *)
Definition after_nonce (w : World) (es : list Effect) (k : nat) (w' : World)
  : Prop :=
  effects w' = effects w ++ es /\
  nonce_requests w' = k + nonce_requests w /\
  propose_requests w' = propose_requests w /\
  proposals w' = proposals w.

(** [w'] is [w] after the effects [es], of which [k] are propose
    requests and none a nonce request, the proposals [accepted] being
    added to the wallet service's record. *)
Definition after_propose (w : World) (es : list Effect) (k : nat)
  (accepted : list ProposeTransactionProps) (w' : World) : Prop :=
  effects w' = effects w ++ es /\
  propose_requests w' = k + propose_requests w /\
  nonce_requests w' = nonce_requests w /\
  proposals w' = proposals w ++ accepted.

(** A computation that never runs out of fuel. *)
Definition finishes {A : Type} (m : M A) : Prop :=
  forall w, snd (m w) <> OutOfFuel.

(** What [proposeToSafe] submits of a signed transaction. *)
Definition proposal (env : Env) (protocolKit : ProtocolKit)
  (safeTransaction : SafeTransaction) (safeTxHash : string)
  (signature : Signature) : ProposeTransactionProps := {|
  pt_safeAddress := getAddress env protocolKit;
  pt_safeTransactionData := safeTransaction;
  pt_safeTxHash := safeTxHash;
  pt_senderAddress := signer signature;
  pt_senderSignature := sig_data signature
|}.

(** The four modules [proposeToSafe] loads itself. *)
Definition safe_modules : list string :=
  ["xhr2"; "@safe-global/protocol-kit"; "@safe-global/api-kit";
   "@safe-global/types-kit"].

(** The override rule as the specification words it: a non-empty value
    of the caller takes the place of the profile's default. *)
Definition effective_rpcUrl (inputs : SafeInputs) (info : NetworkInfo)
  : string :=
  if truthy (safeRpcUrl inputs) then safeRpcUrl inputs else web3Api info.

Definition effective_serviceUrl (inputs : SafeInputs) (info : NetworkInfo)
  : string :=
  if truthy (safeServiceUrl inputs) then safeServiceUrl inputs
  else safeApi info.

Definition effective_chainId (env : Env) (inputs : SafeInputs)
  (info : NetworkInfo) : Exn + Z :=
  if truthy (safeChainId inputs) then BigInt env (safeChainId inputs)
  else inr (chainId info).

(** The wallet service answers [n] to one of the first three nonce
    requests of a run, after failing the earlier ones. *)
Definition nonce_resolves (env : Env) (apiKit : ApiKit) (address : string)
  (n : Z) : Prop :=
  exists k,
    k < 3 /\ getNextNonce env k apiKit address = inr n /\
    forall j, j < k -> exists e, getNextNonce env j apiKit address = inl e.

(** The Safe kits of a run on a network of the table, and the Safe
    transaction of the descriptors at a nonce. *)
Definition the_apiKit (inputs : SafeInputs) (info : NetworkInfo) (c : Z)
  : ApiKit :=
  {| ak_chainId := Some c;
     ak_txServiceUrl := Some (effective_serviceUrl inputs info) |}.

Definition the_protocolKit (inputs : SafeInputs) (info : NetworkInfo)
  : ProtocolKit :=
  {| pk_provider := Some (effective_rpcUrl inputs info);
     pk_signer := safeProposerKey inputs;
     pk_safeAddress := safeAddress inputs |}.

Definition the_transaction (transactions : list Tx) (nonce : Z)
  : SafeTransaction :=
  {| st_transactions := map metaTransaction transactions;
     st_nonce := nonce |}.

(** A valid input set: a run on it gets as far as a signed proposal.  The
    network is one of the table, the module's dependencies load, the
    artifacts give the descriptors [transactions], not none, the chain id
    is [c], the protocol kit initialises, the wallet service gives the
    nonce within the retry budget, and the protocol kit creates the
    transaction, computes its hash and signs the hash. *)
Record signs (env : Env) (inputs : SafeInputs) (files : TransactionFiles)
  (networkName : string) (path : option string) (info : NetworkInfo)
  (transactions : list Tx) (c : Z) (nonce : Z) (safeTxHash : string)
  (signature : Signature) : Prop := {
  signs_network : NETWORKS_get networkName = Some (Own info);
  signs_modules : installed env path safe_modules;
  signs_transactions :
    snd (generateTransactions env files networkName path init_world)
    = Ok transactions;
  signs_some : transactions <> [];
  signs_chainId : effective_chainId env inputs info = inr c;
  signs_init : Safe_init env (the_protocolKit inputs info) = None;
  signs_nonce :
    nonce_resolves env (the_apiKit inputs info c) (safeAddress inputs) nonce;
  signs_create :
    createTransaction env (the_protocolKit inputs info)
      (the_transaction transactions nonce) = None;
  signs_hash :
    getTransactionHash env (the_protocolKit inputs info)
      (the_transaction transactions nonce) = inr safeTxHash;
  signs_signature :
    signHash env (the_protocolKit inputs info) safeTxHash = inr signature
}.

End Props.

(* ------------------------------------------------------------------ *)
(** ** Concrete environments

    A small Node runtime and SDK to run the module in: two artifact
    paths, a decoder for six one-byte artifacts, wrappers that answer
    with fixed subcalls, a protocol kit that never fails and a wallet
    service that follows a script. *)

Module Scenario.
Import Js Safe.

Definition update_path : string := "update.cbor".
Definition deploy_path : string := "deploy.cbor".

(** The artifacts, by their one byte. *)
Definition update_artifact : Bytes := [Byte.xa1].
Definition market_artifact : Bytes := [Byte.xa2].
Definition no_method_artifact : Bytes := [Byte.xa3].
Definition rofl_update_deploy_artifact : Bytes := [Byte.xa4].
Definition unknown_method_artifact : Bytes := [Byte.xa5].
Definition empty_method_artifact : Bytes := [Byte.xa6].

Definition artifact (m : option string) (b : Bytes) : Exn + Cbor :=
  inr {| call := Some {| method := m; body := Some b |} |}.

Definition decode (data : Bytes) : Exn + Cbor :=
  match data with
  | [Byte.xa1] => artifact (Some "rofl.Update") [Byte.x01]
  | [Byte.xa2] => artifact (Some "roflmarket.InstanceExecuteCmds") [Byte.x02]
  | [Byte.xa3] => artifact None [Byte.x03]
  | [Byte.xa4] => artifact (Some "rofl.Update") [Byte.x04]
  | [Byte.xa5] => artifact (Some "unknown.Foo") [Byte.x05]
  | [Byte.xa6] => artifact (Some "") [Byte.x06]
  | _ => inl (JsError "Failed to decode CBOR")
  end.

(** The runtime identifier of the testnet, as [hex] below decodes it. *)
Definition testnet_id : Bytes := list_byte_of_string (runtimeId testnet).

(** A file system with at most the two artifact files. *)
Definition file (update deploy : option Bytes) (path : string) : option Bytes :=
  if path =? update_path then update
  else if path =? deploy_path then deploy
  else None.

Definition update_subcall (id : Bytes) (b : option Bytes) : Subcall := {|
  sub_to := "0x0100000000000000000000000000000000000103";
  sub_data := "0x1a2b";
  sub_value := None
|}.

Definition market_subcall (id : Bytes) (b : option Bytes) : Subcall := {|
  sub_to := "0x0100000000000000000000000000000000000103";
  sub_data := "0x3c4d";
  sub_value := Some 0%Z
|}.

(** A stand-in for [BigInt] on decimal digits. *)
Fixpoint decimal (s : string) (acc : Z) : option Z :=
  match s with
  | EmptyString => Some acc
  | String c rest =>
      let n := nat_of_ascii c in
      if Nat.leb 48 n && Nat.leb n 57
      then decimal rest (10 * acc + Z.of_nat (n - 48))
      else None
  end.

Definition bigint (s : string) : Exn + Z :=
  match decimal s 0 with
  | Some z => inr z
  | None => inl (JsError ("Cannot convert " ++ s ++ " to a BigInt"))
  end.

Definition hex (s : option string) : Exn + Bytes :=
  match s with
  | Some h => inr (list_byte_of_string h)
  | None =>
      inl (JsError "Cannot read properties of undefined (reading 'match')")
  end.

(** The environment with the given artifact files and wallet-service
    scripts: [nonces k] answers the nonce request number [k], [rejects k]
    is the error of the propose request number [k], if any. *)
Definition env (update deploy : option Bytes) (nonces : nat -> Exn + Z)
  (rejects : nat -> option Exn) : Env := {|
  existsSync := fun path =>
    match file update deploy path with Some _ => true | None => false end;
  readFileSync := fun path =>
    match file update deploy path with
    | Some data => inr data
    | None => inl (JsError ("ENOENT: no such file or directory, open " ++ path))
    end;
  createRequire := fun _ _ => None;
  require := fun _ => None;
  BigInt := bigint;
  fromHex := hex;
  fromCBOR := decode;
  rofl_callUpdate := update_subcall;
  roflmarket_callInstanceExecuteCmds := market_subcall;
  Safe_init := fun _ => None;
  createTransaction := fun _ _ => None;
  getTransactionHash := fun _ _ => inr "0x5afe";
  signHash := fun kit _ =>
    inr {| signer := "0x9e7f"; sig_data := "0x51a9" |};
  getAddress := pk_safeAddress;
  getNextNonce := fun k _ _ => nonces k;
  proposeTransaction := fun k _ _ => rejects k
|}.

(** Wallet-service scripts. *)
Definition answers (n : Z) : nat -> Exn + Z := fun _ => inr n.
Definition fails_then_answers (failures : nat) (n : Z) : nat -> Exn + Z :=
  fun k => if Nat.ltb k failures then inl (JsError "Service Unavailable")
           else inr n.
Definition accepts : nat -> option Exn := fun _ => None.
Definition rejects_then_accepts (failures : nat) : nat -> option Exn :=
  fun k => if Nat.ltb k failures then Some (JsError "Bad Gateway") else None.

Definition inputs (dry : bool) : SafeInputs := {|
  safePropose := true;
  safeAddress := "0x2ECd2bc7344a15996698B6C2Ff62ba4332FEC83f";
  safeProposerKey := "0x1234567890abcdef";
  safeRpcUrl := "";
  safeServiceUrl := "";
  safeChainId := "";
  grpcUrl := "";
  deployment := "testnet";
  dryRun := dry
|}.

(** The same inputs with an RPC URL, a service URL and a chain id of the
    caller's own. *)
Definition overriding_inputs : SafeInputs := {|
  safePropose := true;
  safeAddress := "0x2ECd2bc7344a15996698B6C2Ff62ba4332FEC83f";
  safeProposerKey := "0x1234567890abcdef";
  safeRpcUrl := "https://rpc.example.org";
  safeServiceUrl := "https://safe.example.org/api";
  safeChainId := "31337";
  grpcUrl := "";
  deployment := "testnet";
  dryRun := false
|}.

(** The descriptors of the update artifact and of the market artifact. *)
Definition two_descriptors : list Tx :=
  [descriptor (update_subcall testnet_id (Some [Byte.x01]));
   descriptor (market_subcall testnet_id (Some [Byte.x02]))].

(** The environment with both artifacts, a wallet service that fails
    [f] nonce requests before it answers 7, and rejects [g] proposals
    before it accepts one. *)
Definition flaky (f g : nat) : Env :=
  env (Some update_artifact) (Some market_artifact)
    (fails_then_answers f 7) (rejects_then_accepts g).

Definition the_signature : Signature :=
  {| signer := "0x9e7f"; sig_data := "0x51a9" |}.



(** The update artifact beside a deploy artifact that declares no
    method, and beside one that declares rofl.Update; the wallet service
    answers the nonce 7 and accepts the proposal. *)
Definition unnamed_deploy : Env :=
  env (Some update_artifact) (Some no_method_artifact) (answers 7) accepts.

Definition rofl_deploy : Env :=
  env (Some update_artifact) (Some rofl_update_deploy_artifact) (answers 7)
    accepts.

Definition both_files : TransactionFiles := {|
  updateFile := Some update_path;
  deployFile := Some deploy_path
|}.

(** The inputs of a run of the action. *)
Definition action_inputs : Main.Inputs := {|
  Main.cliVersion := "latest";
  Main.checkUpdates := false;
  Main.createUpdatePr := false;
  Main.config := "";
  Main.deployment := "default";
  Main.encrypted := false;
  Main.feeDenom := "";
  Main.force := false;
  Main.format := "cbor";
  Main.gasLimit := "";
  Main.gasPrice := "";
  Main.machine := "";
  Main.network := "testnet";
  Main.noContainer := false;
  Main.noUpdateManifest := false;
  Main.updateManifest := false;
  Main.nonce := "";
  Main.offer := "";
  Main.offline := false;
  Main.onlyValidate := false;
  Main.output := "";
  Main.outputFile := "";
  Main.provider := "";
  Main.replaceMachine := false;
  Main.showOffers := false;
  Main.term := "";
  Main.termCount := "";
  Main.unsigned := true;
  Main.verbose := false;
  Main.verify := false;
  Main.walletAccount := "deployer";
  Main.walletImport := true;
  Main.walletAlgorithm := "secp256k1-raw";
  Main.walletNumber := "";
  Main.walletSecret := "5ec2e7";
  Main.wipeStorage := false;
  Main.workingDirectory := "";
  Main.skipBuild := false;
  Main.skipUpdate := false;
  Main.skipDeploy := false;
  Main.updateOutputFile := "update.cbor";
  Main.deployOutputFile := "deploy.cbor";
  Main.safeAddress := "0x2ECd2bc7344a15996698B6C2Ff62ba4332FEC83f";
  Main.safeProposerKey := "0x1234567890abcdef";
  Main.safeRpcUrl := "";
  Main.safeServiceUrl := "";
  Main.safeChainId := "";
  Main.safeDryRun := false
|}.

End Scenario.

(* ------------------------------------------------------------------ *)
(** ** src/main.ts: [run]

    The action from its inputs to its outputs.  What [run] is given from
    outside is the [Host]: the inputs, the platform, the paths, the
    commands it runs with their exit codes and output, the installer of
    the CLI, the clock, and the Node runtime and the SDKs of
    [src/safe.ts].  What the host answers may depend on what has been
    done to it so far: a file is there once a command has written it.
    What [run] does is recorded in a [World] of its own, which holds the
    world of the Safe proposal. *)

Module Run.
Import Js Main.

(** *** The inputs *)

(** The object literal that [run] starts with: an input compared with
    ['true'] is on for that one string only. *)
Definition collect (getInput : string -> string) : Inputs := {|
  cliVersion := getInput "cli_version";
  checkUpdates := getInput "check_updates" =? "true";
  createUpdatePr := getInput "create_update_pr" =? "true";
  config := getInput "config";
  deployment := getInput "deployment";
  encrypted := getInput "encrypted" =? "true";
  feeDenom := getInput "fee_denom";
  force := getInput "force" =? "true";
  format := getInput "format";
  gasLimit := getInput "gas_limit";
  gasPrice := getInput "gas_price";
  machine := getInput "machine";
  network := getInput "network";
  noContainer := getInput "no_container" =? "true";
  noUpdateManifest := getInput "no_update_manifest" =? "true";
  updateManifest := getInput "update_manifest" =? "true";
  nonce := getInput "nonce";
  offer := getInput "offer";
  offline := getInput "offline" =? "true";
  onlyValidate := getInput "only_validate" =? "true";
  output := getInput "output";
  outputFile := getInput "output_file";
  provider := getInput "provider";
  replaceMachine := getInput "replace_machine" =? "true";
  showOffers := getInput "show_offers" =? "true";
  term := getInput "term";
  termCount := getInput "term_count";
  unsigned := getInput "unsigned" =? "true";
  verbose := getInput "verbose" =? "true";
  verify := getInput "verify" =? "true";
  walletAccount := getInput "wallet_account";
  walletImport := getInput "wallet_import" =? "true";
  walletAlgorithm := getInput "wallet_algorithm";
  walletNumber := getInput "wallet_number";
  walletSecret := getInput "wallet_secret";
  wipeStorage := getInput "wipe_storage" =? "true";
  workingDirectory := getInput "working_directory";
  skipBuild := getInput "skip_build" =? "true";
  skipUpdate := getInput "skip_update" =? "true";
  skipDeploy := getInput "skip_deploy" =? "true";
  updateOutputFile := getInput "update_output_file";
  deployOutputFile := getInput "deploy_output_file";
  safeAddress := getInput "safe_address";
  safeProposerKey := getInput "safe_proposer_key";
  safeRpcUrl := getInput "safe_rpc_url";
  safeServiceUrl := getInput "safe_service_url";
  safeChainId := getInput "safe_chain_id";
  safeDryRun := getInput "safe_dry_run" =? "true"
|}.

(** [inputs.unsigned = value] and [inputs.format = value]. *)
Definition set_unsigned (inputs : Inputs) (value : bool) : Inputs := {|
  cliVersion := cliVersion inputs;
  checkUpdates := checkUpdates inputs;
  createUpdatePr := createUpdatePr inputs;
  config := config inputs;
  deployment := deployment inputs;
  encrypted := encrypted inputs;
  feeDenom := feeDenom inputs;
  force := force inputs;
  format := format inputs;
  gasLimit := gasLimit inputs;
  gasPrice := gasPrice inputs;
  machine := machine inputs;
  network := network inputs;
  noContainer := noContainer inputs;
  noUpdateManifest := noUpdateManifest inputs;
  updateManifest := updateManifest inputs;
  nonce := nonce inputs;
  offer := offer inputs;
  offline := offline inputs;
  onlyValidate := onlyValidate inputs;
  output := output inputs;
  outputFile := outputFile inputs;
  provider := provider inputs;
  replaceMachine := replaceMachine inputs;
  showOffers := showOffers inputs;
  term := term inputs;
  termCount := termCount inputs;
  unsigned := value;
  verbose := verbose inputs;
  verify := verify inputs;
  walletAccount := walletAccount inputs;
  walletImport := walletImport inputs;
  walletAlgorithm := walletAlgorithm inputs;
  walletNumber := walletNumber inputs;
  walletSecret := walletSecret inputs;
  wipeStorage := wipeStorage inputs;
  workingDirectory := workingDirectory inputs;
  skipBuild := skipBuild inputs;
  skipUpdate := skipUpdate inputs;
  skipDeploy := skipDeploy inputs;
  updateOutputFile := updateOutputFile inputs;
  deployOutputFile := deployOutputFile inputs;
  safeAddress := safeAddress inputs;
  safeProposerKey := safeProposerKey inputs;
  safeRpcUrl := safeRpcUrl inputs;
  safeServiceUrl := safeServiceUrl inputs;
  safeChainId := safeChainId inputs;
  safeDryRun := safeDryRun inputs
|}.

Definition set_format (inputs : Inputs) (value : string) : Inputs := {|
  cliVersion := cliVersion inputs;
  checkUpdates := checkUpdates inputs;
  createUpdatePr := createUpdatePr inputs;
  config := config inputs;
  deployment := deployment inputs;
  encrypted := encrypted inputs;
  feeDenom := feeDenom inputs;
  force := force inputs;
  format := value;
  gasLimit := gasLimit inputs;
  gasPrice := gasPrice inputs;
  machine := machine inputs;
  network := network inputs;
  noContainer := noContainer inputs;
  noUpdateManifest := noUpdateManifest inputs;
  updateManifest := updateManifest inputs;
  nonce := nonce inputs;
  offer := offer inputs;
  offline := offline inputs;
  onlyValidate := onlyValidate inputs;
  output := output inputs;
  outputFile := outputFile inputs;
  provider := provider inputs;
  replaceMachine := replaceMachine inputs;
  showOffers := showOffers inputs;
  term := term inputs;
  termCount := termCount inputs;
  unsigned := unsigned inputs;
  verbose := verbose inputs;
  verify := verify inputs;
  walletAccount := walletAccount inputs;
  walletImport := walletImport inputs;
  walletAlgorithm := walletAlgorithm inputs;
  walletNumber := walletNumber inputs;
  walletSecret := walletSecret inputs;
  wipeStorage := wipeStorage inputs;
  workingDirectory := workingDirectory inputs;
  skipBuild := skipBuild inputs;
  skipUpdate := skipUpdate inputs;
  skipDeploy := skipDeploy inputs;
  updateOutputFile := updateOutputFile inputs;
  deployOutputFile := deployOutputFile inputs;
  safeAddress := safeAddress inputs;
  safeProposerKey := safeProposerKey inputs;
  safeRpcUrl := safeRpcUrl inputs;
  safeServiceUrl := safeServiceUrl inputs;
  safeChainId := safeChainId inputs;
  safeDryRun := safeDryRun inputs
|}.

(** *** The command lines *)

(** [...(b ? [name] : [])] *)
Definition switch (name : string) (b : bool) : list string :=
  if b then [name] else [].

(** [a || b] on two strings. *)
Definition or_string (a b : string) : string :=
  if truthy a then a else b.

Definition shouldVerify (inputs : Inputs) : bool :=
  negb (updateManifest inputs) && negb (onlyValidate inputs).

Definition buildArgs (inputs : Inputs) : list string :=
  ["rofl"; "build"]
    ++ flag "--config" (config inputs)
    ++ flag "--deployment" (deployment inputs)
    ++ switch "--force" (force inputs)
    ++ switch "--no-container" (noContainer inputs)
    ++ switch "--no-update-manifest"
         (noUpdateManifest inputs && negb (updateManifest inputs))
    ++ switch "--offline" (offline inputs)
    ++ switch "--only-validate" (onlyValidate inputs)
    ++ flag "--output" (output inputs)
    ++ switch "--verbose" (verbose inputs)
    ++ switch "--verify" (shouldVerify inputs || verify inputs).

(** [const updateOutputFile = inputs.updateOutputFile || inputs.outputFile] *)
Definition updateOutputFile' (inputs : Inputs) : string :=
  or_string (updateOutputFile inputs) (outputFile inputs).

Definition updateArgs (inputs : Inputs) : list string :=
  ["rofl"; "update"; "--yes"]
    ++ flag "--account" (walletAccount inputs)
    ++ flag "--config" (config inputs)
    ++ flag "--deployment" (deployment inputs)
    ++ switch "--encrypted" (encrypted inputs)
    ++ flag "--fee-denom" (feeDenom inputs)
    ++ flag "--format" (format inputs)
    ++ flag "--gas-limit" (gasLimit inputs)
    ++ flag "--gas-price" (gasPrice inputs)
    ++ flag "--nonce" (nonce inputs)
    ++ switch "--offline" (offline inputs)
    ++ flag "--output-file" (updateOutputFile' inputs)
    ++ switch "--unsigned" (unsigned inputs).

(** [const deployOutputFile = inputs.deployOutputFile || inputs.outputFile] *)
Definition deployOutputFile' (inputs : Inputs) : string :=
  or_string (deployOutputFile inputs) (outputFile inputs).

Definition deployArgs (inputs : Inputs) : list string :=
  ["rofl"; "deploy"; "--yes"]
    ++ flag "--account" (walletAccount inputs)
    ++ flag "--config" (config inputs)
    ++ flag "--deployment" (deployment inputs)
    ++ switch "--encrypted" (encrypted inputs)
    ++ flag "--fee-denom" (feeDenom inputs)
    ++ switch "--force" (force inputs)
    ++ flag "--format" (format inputs)
    ++ flag "--gas-limit" (gasLimit inputs)
    ++ flag "--gas-price" (gasPrice inputs)
    ++ flag "--machine" (machine inputs)
    ++ flag "--nonce" (nonce inputs)
    ++ flag "--offer" (offer inputs)
    ++ switch "--offline" (offline inputs)
    ++ flag "--output-file" (deployOutputFile' inputs)
    ++ flag "--provider" (provider inputs)
    ++ switch "--replace-machine" (replaceMachine inputs)
    ++ switch "--show-offers" (showOffers inputs)
    ++ flag "--term" (term inputs)
    ++ flag "--term-count" (termCount inputs)
    ++ switch "--unsigned" (unsigned inputs)
    ++ switch "--wipe-storage" (wipeStorage inputs).

Definition upgradeArgs (inputs : Inputs) : list string :=
  ["rofl"; "upgrade"] ++ flag "--deployment" (deployment inputs).

Definition npmInstallArgs : list string :=
  ["install"; "--no-save";
   "@safe-global/protocol-kit@6.1.2";
   "@safe-global/api-kit@4.0.1";
   "@safe-global/types-kit@3.0.0";
   "@oasisprotocol/client@1.3.0";
   "@oasisprotocol/client-rt@1.3.0";
   "xhr2@0.2.1"].

Definition safeInputs (inputs : Inputs) : Safe.SafeInputs := {|
  Safe.safePropose := true;
  Safe.safeAddress := safeAddress inputs;
  Safe.safeProposerKey := safeProposerKey inputs;
  Safe.safeRpcUrl := safeRpcUrl inputs;
  Safe.safeServiceUrl := safeServiceUrl inputs;
  Safe.safeChainId := safeChainId inputs;
  Safe.grpcUrl := "";
  Safe.deployment := deployment inputs;
  Safe.dryRun := safeDryRun inputs
|}.

Definition txFiles (inputs : Inputs) : Safe.TransactionFiles := {|
  Safe.updateFile := Some (updateOutputFile' inputs);
  Safe.deployFile := Some (deployOutputFile' inputs)
|}.

(** The text of the commit and of the pull request.  The two end in a
    line whose first character the source file holds as the ten bytes
    below. *)
Definition newline : string := String (ascii_of_nat 10) "".

Definition robot : string :=
  string_of_list_ascii (map ascii_of_nat [195; 176; 197; 184; 194; 164; 226; 128; 147]).

Definition commit_message : string :=
  "chore: update rofl.yaml artifacts to latest versions" ++ newline ++ newline
    ++ robot ++ " Generated by ROFL GitHub Action".

Definition pr_body : string :=
  "## Summary" ++ newline ++ newline
    ++ "This PR updates rofl.yaml artifacts to their latest versions."
    ++ newline ++ newline
    ++ "Generated by `oasis rofl upgrade`." ++ newline ++ newline
    ++ robot ++ " Generated by ROFL GitHub Action".

(** *** The host *)

(** A call of [exec.exec]: the command, its arguments and whether a
    non-zero exit code is let through. *)
Record Command : Type := {
  cmd : string;
  args : list string;
  ignoreReturnCode : bool
}.

(** What a call of [exec.exec] gives: the exit code, and the chunks of
    standard output as a listener gets them. *)
Record ExecResult : Type := {
  exitCode : Z;
  stdout : list string
}.

(** What [run] asks of the machine. *)
Inductive Step : Type :=
| Chdir (dir : string)
| Install (cliVersion : string)
| Exec (c : Command).

(** The answers of the host.  A [list Step] argument is what has been
    asked of the machine before, in order. *)
Record Host : Type := {
  (* [core.getInput] *)
  getInput : string -> string;
  (* [process.platform], [process.env.GITHUB_WORKSPACE] *)
  platform : string;
  GITHUB_WORKSPACE : option string;
  (* [path.isAbsolute], [path.join] of two paths, [String.prototype.trim] *)
  isAbsolute : string -> bool;
  join : string -> string -> string;
  trim : string -> string;
  (* [new Date().toISOString()] *)
  toISOString : string;
  (* [process.cwd()] *)
  cwd : list Step -> string;
  (* Node and the SDKs as src/safe.ts uses them; the file system is
     the one [run] looks at too *)
  sdk : list Step -> Safe.Env;
  (* [process.chdir]; [None] when it succeeds *)
  chdir : list Step -> string -> option Exn;
  (* [installOasisCLI] of src/cli.ts; [None] when it succeeds *)
  installOasisCLI : list Step -> string -> option Exn;
  (* [exec.exec]: it rejects, or resolves with the exit code; whether a
     non-zero exit code makes it reject is the library's affair, which is
     told [ignoreReturnCode] *)
  exec : list Step -> Command -> Exn + ExecResult
}.

(** *** The world *)

Inductive Level : Type := AtDebug | AtInfo | AtWarning.

Record World : Type := {
  (* [core.debug], [core.info], [core.warning] *)
  messages : list (Level * string);
  steps : list Step;
  (* [core.setOutput] *)
  outputs : list (string * string);
  (* [core.setFailed] *)
  failures : list string;
  safe : Safe.World
}.

Definition init_world : World := {|
  messages := [];
  steps := [];
  outputs := [];
  failures := [];
  safe := Safe.init_world
|}.

Definition add_message (w : World) (level : Level) (msg : string) : World := {|
  messages := messages w ++ [(level, msg)];
  steps := steps w;
  outputs := outputs w;
  failures := failures w;
  safe := safe w
|}.

Definition add_step (w : World) (s : Step) : World := {|
  messages := messages w;
  steps := steps w ++ [s];
  outputs := outputs w;
  failures := failures w;
  safe := safe w
|}.

Definition add_output (w : World) (name value : string) : World := {|
  messages := messages w;
  steps := steps w;
  outputs := outputs w ++ [(name, value)];
  failures := failures w;
  safe := safe w
|}.

Definition add_failure (w : World) (message : string) : World := {|
  messages := messages w;
  steps := steps w;
  outputs := outputs w;
  failures := failures w ++ [message];
  safe := safe w
|}.

Definition set_safe (w : World) (s : Safe.World) : World := {|
  messages := messages w;
  steps := steps w;
  outputs := outputs w;
  failures := failures w;
  safe := s
|}.

(** *** The monad *)

(** A computation goes on with a value, throws, leaves [run] by a
    [return], or runs out of the fuel of the Safe proposal's loops. *)
Inductive Outcome (A : Type) : Type :=
| Next (a : A)
| Thrown (e : Exn)
| Returned
| Exhausted.
Arguments Next {A} a.
Arguments Thrown {A} e.
Arguments Returned {A}.
Arguments Exhausted {A}.

Definition R (A : Type) : Type := World -> World * Outcome A.

Definition ret {A : Type} (a : A) : R A := fun w => (w, Next a).

Definition throw {A : Type} (e : Exn) : R A := fun w => (w, Thrown e).

(** [return] out of [run]. *)
Definition leave {A : Type} : R A := fun w => (w, Returned).

Definition bind {A B : Type} (m : R A) (k : A -> R B) : R B :=
  fun w =>
    match m w with
    | (w', Next a) => k a w'
    | (w', Thrown e) => (w', Thrown e)
    | (w', Returned) => (w', Returned)
    | (w', Exhausted) => (w', Exhausted)
    end.

(** [try { m } catch (error) { handler }]; a [return] inside [m] is not
    caught. *)
Definition catch {A : Type} (m : R A) (handler : Exn -> R A) : R A :=
  fun w =>
    match m w with
    | (w', Thrown e) => handler e w'
    | r => r
    end.

(** The end of the function: a [return] ends it as its last statement
    does. *)
Definition finish (m : R unit) : R unit :=
  fun w =>
    match m w with
    | (w', Returned) => (w', Next tt)
    | r => r
    end.

Declare Scope run_scope.
Delimit Scope run_scope with run.
Notation "x <- m ; k" := (bind m (fun x => k))
  (at level 100, m at next level, right associativity) : run_scope.
Notation "m ;; k" := (bind m (fun _ => k))
  (at level 100, right associativity) : run_scope.
Local Open Scope run_scope.

(** [if (b) { m }] *)
Definition when (b : bool) (m : R unit) : R unit :=
  if b then m else ret tt.

Definition log (level : Level) (msg : string) : R unit :=
  fun w => (add_message w level msg, Next tt).

Definition debug : string -> R unit := log AtDebug.
Definition info : string -> R unit := log AtInfo.
Definition warning : string -> R unit := log AtWarning.

Definition setOutput (name value : string) : R unit :=
  fun w => (add_output w name value, Next tt).

Definition setFailed (message : string) : R unit :=
  fun w => (add_failure w message, Next tt).

Section WithHost.

Variable host : Host.

Definition process_cwd : R string :=
  fun w => (w, Next (cwd host (steps w))).

Definition existsSync (path : string) : R bool :=
  fun w => (w, Next (Safe.existsSync (sdk host (steps w)) path)).

Definition process_chdir (dir : string) : R unit :=
  fun w =>
    match chdir host (steps w) dir with
    | None => (add_step w (Chdir dir), Next tt)
    | Some e => (add_step w (Chdir dir), Thrown e)
    end.

Definition install (cliVersion : string) : R unit :=
  fun w =>
    match installOasisCLI host (steps w) cliVersion with
    | None => (add_step w (Install cliVersion), Next tt)
    | Some e => (add_step w (Install cliVersion), Thrown e)
    end.

(** [await exec.exec(command, arguments, { ignoreReturnCode })] *)
Definition exec_with (ignore : bool) (command : string)
  (arguments : list string) : R ExecResult :=
  fun w =>
    let c := {| cmd := command; args := arguments;
                ignoreReturnCode := ignore |} in
    match exec host (steps w) c with
    | inr r => (add_step w (Exec c), Next r)
    | inl e => (add_step w (Exec c), Thrown e)
    end.

(** [await exec.exec(command, arguments)], what it resolves with not
    being looked at. *)
Definition exec_ (command : string) (arguments : list string) : R unit :=
  exec_with false command arguments ;; ret tt.

(** [await runSafeProposal(inputs, files, networkName, workspaceDir)],
    run in the world of the Safe proposal. *)
Definition runSafeProposal (fuel : nat) (inputs : Safe.SafeInputs)
  (files : Safe.TransactionFiles) (networkName : string)
  (workspaceDir : string) : R (option string) :=
  fun w =>
    match Safe.runSafeProposal (sdk host (steps w)) fuel inputs files
            networkName (Some workspaceDir) (safe w) with
    | (s, Safe.Ok hash) => (set_safe w s, Next hash)
    | (s, Safe.Throw e) => (set_safe w s, Thrown e)
    | (s, Safe.OutOfFuel) => (set_safe w s, Exhausted)
    end.

(** What a listener that adds up [data.toString().trim()] has at the
    end, and what one that adds up [data.toString()] has. *)
Definition trimmed_output (r : ExecResult) : string :=
  String.concat "" (map (trim host) (stdout r)).

Definition whole_output (r : ExecResult) : string :=
  String.concat "" (stdout r).

(** **** The parts of [run] *)

(** [// Switch to working directory if set] *)
Definition absDir (inputs : Inputs) (dir : string) : string :=
  if isAbsolute host (workingDirectory inputs)
  then workingDirectory inputs
  else join host
         (match GITHUB_WORKSPACE host with
          | Some workspace => if truthy workspace then workspace else dir
          | None => dir
          end)
         (workingDirectory inputs).

Definition switch_directory (inputs : Inputs) : R unit :=
  when (truthy (workingDirectory inputs))
    (dir <- process_cwd ;
     let absDir := absDir inputs dir in
     found <- existsSync absDir ;
     if negb found then
       setFailed ("Working directory does not exist: " ++ absDir) ;;
       leave
     else
       process_chdir absDir ;;
       debug ("Changed working directory to: " ++ absDir)).

(** [// Validate and configure Safe mode BEFORE building args]; it
    gives the inputs as they are after it. *)
Definition configure_safe_mode (inputs : Inputs) : R Inputs :=
  if truthy (safeAddress inputs) then
    (* Enforce unsigned mode *)
    inputs <-
      (if negb (unsigned inputs) then
         info "Safe mode: automatically enabling unsigned transaction generation" ;;
         ret (set_unsigned inputs true)
       else ret inputs) ;
    (* Enforce CBOR format *)
    inputs <-
      (if negb (format inputs =? "cbor") then
         info "Safe mode: automatically setting format to cbor" ;;
         ret (set_format inputs "cbor")
       else ret inputs) ;
    (* Require output file for update transactions *)
    when (negb (skipUpdate inputs) && negb (truthy (updateOutputFile inputs))
          && negb (truthy (outputFile inputs)))
      (throw (JsError
         ("Safe mode requires update_output_file (or output_file) when update is enabled. "
          ++ "This file will contain the unsigned CBOR transaction for Safe proposal."))) ;;
    (* Require output file for deploy transactions *)
    when (negb (skipDeploy inputs) && negb (truthy (deployOutputFile inputs))
          && negb (truthy (outputFile inputs)))
      (throw (JsError
         ("Safe mode requires deploy_output_file (or output_file) when deploy is enabled. "
          ++ "This file will contain the unsigned CBOR transaction for Safe proposal."))) ;;
    ret inputs
  else ret inputs.

Definition branchName : string :=
  "rofl-update-" ++ substring 0 10 (toISOString host).

(** [if (inputs.createUpdatePr) { ... }] of the update check. *)
Definition create_update_pr (manifestFiles : list string) : R unit :=
  info "Creating pull request with updates..." ;;
  (* Check if an open PR already exists for ROFL updates *)
  listed <-
    exec_with true "gh"
      ["pr"; "list"; "--state"; "open"; "--search";
       "chore: update ROFL artifacts in:title"; "--json"; "url"; "--jq";
       ".[0].url // empty"] ;
  let existingPrUrl := trimmed_output listed in
  if truthy existingPrUrl then
    info ("An open PR already exists: " ++ existingPrUrl) ;;
    setOutput "update_pr_url" existingPrUrl ;;
    setOutput "updates_available" "true" ;;
    leave
  else
  (* Configure git *)
  exec_ "git" ["config"; "user.name"; "github-actions[bot]"] ;;
  exec_ "git"
    ["config"; "user.email"; "github-actions[bot]@users.noreply.github.com"] ;;
  (* Check if remote branch already exists *)
  heads <- exec_with false "git" ["ls-remote"; "--heads"; "origin"; branchName] ;
  let remoteBranchOutput := whole_output heads in
  let remoteBranchExists :=
    Nat.ltb 0 (String.length (trim host remoteBranchOutput)) in
  (* Create and checkout branch *)
  exec_ "git" ["checkout"; "-B"; branchName] ;;
  (* Stage changes *)
  exec_ "git" ("add" :: manifestFiles) ;;
  exec_ "git" ["commit"; "-m"; commit_message] ;;
  (* Push branch (force push if remote branch exists to update it) *)
  when remoteBranchExists
    (info ("Remote branch " ++ branchName
           ++ " exists, force pushing to update it")) ;;
  exec_ "git"
    (["push"; "-u"; "origin"; branchName] ++ switch "--force" remoteBranchExists) ;;
  (* Create PR using gh CLI *)
  created <-
    exec_with false "gh"
      ["pr"; "create"; "--title";
       "chore: update ROFL artifacts to latest versions"; "--body"; pr_body] ;
  let prUrl := trimmed_output created in
  setOutput "update_pr_url" prUrl ;;
  info ("Pull request created: " ++ prUrl).

(** [// Step 1.5: Check for updates (if enabled)]: the body of the
    [if], every path of which ends in a [return]. *)
Definition check_updates (inputs : Inputs) : R unit :=
  info "Checking for rofl.yaml updates..." ;;
  (* Run oasis rofl upgrade *)
  exec_ "oasis" (upgradeArgs inputs) ;;
  (* Check if rofl.yaml or rofl.yml changed *)
  yaml <- existsSync "rofl.yaml" ;
  yml <- existsSync "rofl.yml" ;
  let manifestFiles :=
    (if yaml then ["rofl.yaml"] else []) ++ (if yml then ["rofl.yml"] else []) in
  if Nat.eqb (length manifestFiles) 0 then
    warning "No rofl.yaml or rofl.yml found in working directory" ;;
    setOutput "updates_available" "false" ;;
    leave
  else
  diffResult <-
    exec_with true "git" (["diff"; "--exit-code"; "--"] ++ manifestFiles) ;
  (* git diff --exit-code returns 1 if there are changes, 0 if no changes *)
  let hasChanges := negb (Z.eqb (exitCode diffResult) 0) in
  setOutput "updates_available" (if hasChanges then "true" else "false") ;;
  if negb hasChanges then
    info "No updates available for rofl.yaml" ;;
    leave
  else
  info "Updates available for rofl.yaml" ;;
  when (createUpdatePr inputs) (create_update_pr manifestFiles) ;;
  (* Return early - don't continue with build/update/deploy *)
  leave.

(** [// Step 2: Install build dependencies] *)
Definition install_build_dependencies (inputs : Inputs) : R unit :=
  when ((platform host =? "linux") && negb (skipBuild inputs)
        && negb (onlyValidate inputs))
    (info "Installing ROFL build dependencies..." ;;
     catch
       (exec_ "sudo" ["apt-get"; "update"; "-qq"] ;;
        exec_ "sudo" ["apt-get"; "install"; "-y"; "-qq"; "squashfs-tools";
                      "fakeroot"; "cryptsetup-bin"; "qemu-utils"])
       (fun _ =>
          warning
            ("Failed to install build dependencies via apt-get. "
             ++ "If running in a container or on a non-Debian system, "
             ++ "ensure these packages are pre-installed: "
             ++ "squashfs-tools, fakeroot, cryptsetup-bin, qemu-utils"))).

(** [// Step 3: Setup network and wallet] *)
Definition setup_network_and_wallet (inputs : Inputs)
  (walletImportArgs : list string) : R unit :=
  exec_ "oasis" ["network"; "set-default"; network inputs] ;;
  when (walletImport inputs)
    (exec_ "oasis" walletImportArgs ;;
     exec_ "oasis" ["wallet"; "set-default"; walletAccount inputs]).

(** [// Step 4: ROFL Build] *)
Definition rofl_build (inputs : Inputs) : R unit :=
  if negb (skipBuild inputs) then
    exec_ "oasis" (buildArgs inputs) ;;
    when (truthy (output inputs)) (setOutput "build_output" (output inputs))
  else info "Skipping ROFL build step".

(** [// Step 5: ROFL Update] *)
Definition rofl_update (inputs : Inputs) : R unit :=
  if negb (skipUpdate inputs) && negb (onlyValidate inputs) then
    exec_ "oasis" (updateArgs inputs) ;;
    when (truthy (updateOutputFile' inputs))
      (setOutput "update_file" (updateOutputFile' inputs))
  else info "Skipping ROFL update step".

(** [// Step 6: ROFL Deploy] *)
Definition rofl_deploy (inputs : Inputs) : R unit :=
  if negb (skipDeploy inputs) && negb (onlyValidate inputs) then
    exec_ "oasis" (deployArgs inputs) ;;
    when (truthy (deployOutputFile' inputs))
      (setOutput "deploy_file" (deployOutputFile' inputs))
  else info "Skipping ROFL deploy step".

(** [// Step 7: Safe transaction proposal (optional)] *)
Definition safe_proposal (fuel : nat) (inputs : Inputs) : R unit :=
  when (truthy (safeAddress inputs))
    (workspaceDir <- process_cwd ;
     info ("Installing Safe and Oasis SDK dependencies in " ++ workspaceDir
           ++ "...") ;;
     exec_ "npm" npmInstallArgs ;;
     safeTxHash <-
       runSafeProposal fuel (safeInputs inputs) (txFiles inputs)
         (network inputs) workspaceDir ;
     match safeTxHash with
     | Some hash => when (truthy hash) (setOutput "safe_tx_hash" hash)
     | None => ret tt
     end).

(** **** [run] *)

(** The body of the [try]; [fuel] bounds the retry loops of the Safe
    proposal. *)
Definition run_body (fuel : nat) : R unit :=
  (* Collect all inputs *)
  let inputs := collect (getInput host) in
  debug (collected_inputs_debug inputs) ;;
  switch_directory inputs ;;
  (* Build oasis wallet import command *)
  let walletImportArgs := walletImportArgs inputs in
  debug (walletImportArgs_debug inputs) ;;
  inputs <- configure_safe_mode inputs ;
  (* Warn if update_manifest is enabled (testing mode) *)
  when (updateManifest inputs)
    (warning
       ("update_manifest is enabled. This will auto-update rofl.yaml with new enclave IDs. "
        ++ "For production, commit enclave IDs to source control and use verify: true instead.")) ;;
  debug ("Built buildArgs: " ++ Js.join " " (buildArgs inputs)) ;;
  debug ("Built updateArgs: " ++ Js.join " " (updateArgs inputs)) ;;
  debug ("Built deployArgs: " ++ Js.join " " (deployArgs inputs)) ;;
  (* Step 1: Install Oasis CLI *)
  install (cliVersion inputs) ;;
  (* Step 1.5: Check for updates (if enabled) *)
  when (checkUpdates inputs) (check_updates inputs) ;;
  install_build_dependencies inputs ;;
  setup_network_and_wallet inputs walletImportArgs ;;
  rofl_build inputs ;;
  rofl_update inputs ;;
  rofl_deploy inputs ;;
  safe_proposal fuel inputs ;;
  info "Oasis ROFL deployment steps completed successfully.".

(** [try { ... } catch (error) { core.setFailed(...) }] *)
Definition run (fuel : nat) : R unit :=
  finish
    (catch (run_body fuel)
       (fun error => setFailed (errorMessage error))).

End WithHost.

End Run.

(* ------------------------------------------------------------------ *)
(** ** What the properties of [run] are stated with *)

Module Flow.
Import Js Main Run.

(** The inputs a host gives, and the world a run of the action on the
    host ends in. *)
Definition inputs_of (host : Host) : Inputs := collect (getInput host).

Definition final (host : Host) (fuel : nat) : World :=
  fst (run host fuel init_world).

(** The run executes the command [c]. *)
Definition ran (host : Host) (fuel : nat) (c : Command) : Prop :=
  In (Exec c) (steps (final host fuel)).

(** The arguments hold [name] followed by [value]. *)
Definition has_flag (name value : string) (arguments : list string) : Prop :=
  exists before after, arguments = before ++ name :: value :: after.

(** The inputs after the Safe mode has been configured. *)
Definition configured (inputs : Inputs) : Inputs :=
  if truthy (safeAddress inputs)
  then set_format (set_unsigned inputs true) "cbor"
  else inputs.

(** In Safe mode, a step that is not skipped has a file to write its
    transaction to. *)
Definition validated (inputs : Inputs) : Prop :=
  truthy (safeAddress inputs) = true ->
  (skipUpdate inputs = false -> truthy (updateOutputFile' inputs) = true) /\
  (skipDeploy inputs = false -> truthy (deployOutputFile' inputs) = true).

(** The subcommands of [oasis rofl] and the inputs that switch each
    on. *)
Definition enabled (inputs : Inputs) (subcommand : string) : bool :=
  if subcommand =? "upgrade" then checkUpdates inputs
  else if subcommand =? "build" then
    negb (checkUpdates inputs) && negb (skipBuild inputs)
  else if subcommand =? "update" then
    negb (checkUpdates inputs) && negb (skipUpdate inputs)
    && negb (onlyValidate inputs)
  else if subcommand =? "deploy" then
    negb (checkUpdates inputs) && negb (skipDeploy inputs)
    && negb (onlyValidate inputs)
  else false.

(** How a computation ends when it does not go on. *)
Inductive Exit : Type :=
| Throws (e : Exn)
| Returns
| Exhausts.

(** [Q] holds of the value and the world a computation goes on with,
    [S] of the world it stops in. *)
Definition post {A : Type} (Q : A -> World -> Prop)
  (S : Exit -> World -> Prop) (r : World * Outcome A) : Prop :=
  match r with
  | (w, Next a) => Q a w
  | (w, Thrown e) => S (Throws e) w
  | (w, Returned) => S Returns w
  | (w, Exhausted) => S Exhausts w
  end.

(** From a world in [P], the computation [m] goes on in [Q] or stops in
    [S]. *)
Definition triple {A : Type} (P : World -> Prop) (m : R A)
  (Q : A -> World -> Prop) (S : Exit -> World -> Prop) : Prop :=
  forall w, P w -> post Q S (m w).

(** Inside a [try] whose handler starts from [J]: what is thrown is
    caught, the other exits are those of the whole. *)
Definition caught (J : World -> Prop) (S : Exit -> World -> Prop)
  : Exit -> World -> Prop :=
  fun x w =>
    match x with
    | Throws _ => J w
    | _ => S x w
    end.

(** What a run may do: the steps it may take, the outputs it may set
    and the worlds the Safe proposal may be in. *)
Record Policy : Type := {
  allows_step : Step -> Prop;
  allows_output : string -> string -> Prop;
  allows_safe : Safe.World -> Prop
}.

Definition respects (p : Policy) (w : World) : Prop :=
  Forall (allows_step p) (steps w) /\
  Forall (fun o => allows_output p (fst o) (snd o)) (outputs w) /\
  allows_safe p (safe w).

(** The last line of a run that got through. *)
Definition success : Level * string :=
  (AtInfo, "Oasis ROFL deployment steps completed successfully.").

(** The arguments of an offline transaction for the Safe: unsigned, in
    CBOR and written to a file. *)
Definition unsigned_cbor_to_file (arguments : list string) : Prop :=
  In "--unsigned" arguments /\
  has_flag "--format" "cbor" arguments /\
  exists file,
    truthy file = true /\ has_flag "--output-file" file arguments.

(** An [oasis rofl] command is one that the inputs switch on. *)
Definition enabled_policy (inputs : Inputs) : Policy := {|
  allows_step s :=
    match s with
    | Exec c =>
        forall subcommand rest,
          cmd c = "oasis" -> args c = "rofl" :: subcommand :: rest ->
          enabled inputs subcommand = true
    | _ => True
    end;
  allows_output _ _ := True;
  allows_safe _ := True
|}.

(** An update or a deploy is an offline transaction for the Safe. *)
Definition safe_mode_policy : Policy := {|
  allows_step s :=
    match s with
    | Exec c =>
        forall rest,
          cmd c = "oasis" ->
          args c = "rofl" :: "update" :: rest \/
          args c = "rofl" :: "deploy" :: rest ->
          unsigned_cbor_to_file rest
    | _ => True
    end;
  allows_output _ _ := True;
  allows_safe _ := True
|}.

(** Nothing but the upgrade of the manifest, [git] and [gh]; no output
    but the two of the check; the Safe proposal is not run. *)
Definition check_policy (inputs : Inputs) : Policy := {|
  allows_step s :=
    match s with
    | Exec c =>
        cmd c = "git" \/ cmd c = "gh" \/
        (cmd c = "oasis" /\ args c = upgradeArgs inputs)
    | _ => True
    end;
  allows_output name _ :=
    name = "updates_available" \/ name = "update_pr_url";
  allows_safe s := s = Safe.init_world
|}.

(** A push is one of the update branch, forced or not, in a check for
    updates that opens a pull request. *)
Definition push_policy (host : Host) (inputs : Inputs) : Policy := {|
  allows_step s :=
    match s with
    | Exec c =>
        forall rest,
          cmd c = "git" -> args c = "push" :: rest ->
          checkUpdates inputs = true /\ createUpdatePr inputs = true /\
          (rest = ["-u"; "origin"; branchName host] \/
           rest = ["-u"; "origin"; branchName host; "--force"])
    | _ => True
    end;
  allows_output _ _ := True;
  allows_safe _ := True
|}.

(** No SDK is installed, no proposal hash is put out and the Safe
    proposal is not run. *)
Definition plain_policy : Policy := {|
  allows_step s :=
    match s with
    | Exec c => cmd c <> "npm"
    | _ => True
    end;
  allows_output name _ := name <> "safe_tx_hash";
  allows_safe s := s = Safe.init_world
|}.

(** The Safe proposal proposes nothing. *)
Definition dry_policy : Policy := {|
  allows_step _ := True;
  allows_output _ _ := True;
  allows_safe s := Props.quiet Safe.init_world s
|}.

(** Each output with the value and the inputs it comes from. *)
Definition comes_from (inputs : Inputs) (name value : string) : Prop :=
  (name = "build_output" /\ value = output inputs /\
   enabled inputs "build" = true) \/
  (name = "update_file" /\ value = updateOutputFile' inputs /\
   enabled inputs "update" = true) \/
  (name = "deploy_file" /\ value = deployOutputFile' inputs /\
   enabled inputs "deploy" = true) \/
  (name = "safe_tx_hash" /\ truthy (safeAddress inputs) = true /\
   checkUpdates inputs = false) \/
  (name = "updates_available" /\ (value = "true" \/ value = "false") /\
   checkUpdates inputs = true) \/
  (name = "update_pr_url" /\ checkUpdates inputs = true /\
   createUpdatePr inputs = true).

Definition output_policy (inputs : Inputs) : Policy := {|
  allows_step _ := True;
  allows_output := comes_from inputs;
  allows_safe _ := True
|}.

(** The run has not failed and has not said that it got through. *)
Definition going (w : World) : Prop :=
  failures w = [] /\ ~ In success (messages w).

(** How the body of [run] stops: what it throws leaves the run as it
    goes, a [return] comes after at most one failure, and the fuel is
    not used up. *)
Definition stopped (x : Exit) (w : World) : Prop :=
  match x with
  | Throws _ => going w
  | Returns =>
      ~ In success (messages w) /\
      (failures w = [] \/ exists message, failures w = [message])
  | Exhausts => False
  end.

(** A run that has not failed, or has failed once and has not said that
    it got through. *)
Definition settled (w : World) : Prop :=
  failures w = [] \/
  exists message,
    failures w = [message] /\ ~ In success (messages w).

(** Of every command of the history that the host let fail, [G] holds:
    of what was done before it, of the command, of what was done after
    it and of what it threw. *)
Definition each_failure (host : Host)
  (G : list Step -> Command -> list Step -> Exn -> Prop)
  (history : list Step) : Prop :=
  forall before c after e,
    history = before ++ Exec c :: after ->
    exec host before c = inl e ->
    G before c after e.

(** The run has not failed, and no command has but under [sudo]. *)
Definition only_sudo_failed (host : Host) (w : World) : Prop :=
  failures w = [] /\
  each_failure host (fun _ c _ _ => cmd c = "sudo") (steps w).

(** How the body of [run] stops when no command but under [sudo] may
    fail and go by: what it throws is what its last command threw,
    unless no such command failed. *)
Definition fatal_exit (host : Host) (x : Exit) (w : World) : Prop :=
  match x with
  | Throws thrown =>
      failures w = [] /\
      each_failure host
        (fun _ c after e => cmd c = "sudo" \/ (after = [] /\ e = thrown))
        (steps w)
  | _ => each_failure host (fun _ c _ _ => cmd c = "sudo") (steps w)
  end.

(** A failed command is one under [sudo], or the last step of a run
    that failed with what the command threw. *)
Definition fatal (host : Host) (w : World) : Prop :=
  each_failure host
    (fun _ c after e =>
       cmd c = "sudo" \/
       (after = [] /\ failures w = [errorMessage e]))
    (steps w).

(** The command that follows the installation of the build
    dependencies, and the warning of a failed installation. *)
Definition set_default (inputs : Inputs) : Command := {|
  cmd := "oasis";
  args := ["network"; "set-default"; network inputs];
  ignoreReturnCode := false
|}.

Definition dependencies_warning : Level * string :=
  (AtWarning,
   ("Failed to install build dependencies via apt-get. "
    ++ "If running in a container or on a non-Debian system, "
    ++ "ensure these packages are pre-installed: "
    ++ "squashfs-tools, fakeroot, cryptsetup-bin, qemu-utils")%string).

(** What holds of a command under [sudo] that failed: the run has
    warned and has gone on to set the default network; the same
    before the run has gone on; and the same before it has warned. *)
Definition tolerated (inputs : Inputs) (w : World)
  : list Step -> Command -> list Step -> Exn -> Prop :=
  fun _ c after _ =>
    cmd c = "sudo" ->
    In dependencies_warning (messages w) /\
    exists rest, after = Exec (set_default inputs) :: rest.

Definition pending (inputs : Inputs) (w : World)
  : list Step -> Command -> list Step -> Exn -> Prop :=
  fun _ c after _ =>
    cmd c = "sudo" ->
    In dependencies_warning (messages w) /\
    (after = [] \/ exists rest, after = Exec (set_default inputs) :: rest).

Definition unwarned (inputs : Inputs) (w : World)
  : list Step -> Command -> list Step -> Exn -> Prop :=
  fun _ c after _ =>
    cmd c = "sudo" ->
    after = [] \/
    (In dependencies_warning (messages w) /\
     exists rest, after = Exec (set_default inputs) :: rest).

(** A command whose exit code must be zero, and one whose exit code is
    let through. *)
Definition command (name : string) (arguments : list string) : Command := {|
  cmd := name;
  args := arguments;
  ignoreReturnCode := false
|}.

Definition lenient (name : string) (arguments : list string) : Command := {|
  cmd := name;
  args := arguments;
  ignoreReturnCode := true
|}.

(** The host answers the commands of the script with its results, one
    after the other, from the history on. *)
Fixpoint answers (host : Host) (history : list Step)
  (script : list (Command * ExecResult)) : Prop :=
  match script with
  | [] => True
  | (c, r) :: rest =>
      exec host history c = inr r /\ answers host (history ++ [Exec c]) rest
  end.

(** The working directory that the inputs name, from where the run
    starts. *)
Definition working_directory (host : Host) : string :=
  absDir host (inputs_of host) (cwd host []).

(** The run gets into its working directory: none is named, or the one
    that is named exists and can be changed to.  [entered] is what it
    has done by then. *)
Definition enters (host : Host) : Prop :=
  truthy (workingDirectory (inputs_of host)) = false \/
  (truthy (workingDirectory (inputs_of host)) = true /\
   Safe.existsSync (sdk host []) (working_directory host) = true /\
   chdir host [] (working_directory host) = None).

Definition entered (host : Host) : list Step :=
  if truthy (workingDirectory (inputs_of host))
  then [Chdir (working_directory host)]
  else [].

(** The message of a Safe mode that has no file for the transaction of
    a step. *)
Definition output_file_required (step : string) : string :=
  "Safe mode requires " ++ step ++ "_output_file (or output_file) when "
  ++ step ++ " is enabled. "
  ++ "This file will contain the unsigned CBOR transaction for Safe proposal.".

(** The world [w] with other messages. *)
Definition with_messages (w : World) (notes : list (Level * string))
  : World := {|
  messages := notes;
  steps := steps w;
  outputs := outputs w;
  failures := failures w;
  safe := safe w
|}.

(** A check for updates without Safe mode that gets as far as the
    commands: the run gets into its working directory and the CLI
    installs.  [checking] is what the run has done by then. *)
Record checks (host : Host) : Prop := {
  checks_enters : enters host;
  checks_plain : truthy (safeAddress (inputs_of host)) = false;
  checks_on : checkUpdates (inputs_of host) = true;
  checks_install :
    installOasisCLI host (entered host) (cliVersion (inputs_of host)) = None
}.

Definition checking (host : Host) : list Step :=
  entered host ++ [Install (cliVersion (inputs_of host))].

(** The commands of the check. *)
Definition rofl_upgrade (host : Host) : Command :=
  command "oasis" (upgradeArgs (inputs_of host)).

(** The manifests that are there once the upgrade has run. *)
Definition manifests (host : Host) : list string :=
  let fs := sdk host (checking host ++ [Exec (rofl_upgrade host)]) in
  (if Safe.existsSync fs "rofl.yaml" then ["rofl.yaml"] else [])
  ++ (if Safe.existsSync fs "rofl.yml" then ["rofl.yml"] else []).

Definition git_diff (host : Host) : Command :=
  lenient "git" (["diff"; "--exit-code"; "--"] ++ manifests host).












(** The result of a command that exits with 0. *)
Definition done (printed : list string) : ExecResult :=
  {| exitCode := 0; stdout := printed |}.





End Flow.

(* ------------------------------------------------------------------ *)
(** ** Hosts of the examples *)

Module Workflow.
Import Js Main Run.

(** The inputs of a workflow step, by name; an input that is not given
    is the empty string. *)
Fixpoint input (table : list (string * string)) (name : string) : string :=
  match table with
  | [] => ""
  | (k, v) :: rest => if k =? name then v else input rest name
  end.

(** A Safe deployment on testnet, and the same with other inputs put in
    front. *)
Definition safe_deployment : list (string * string) :=
  [("cli_version", "latest");
   ("network", "testnet");
   ("deployment", "default");
   ("wallet_import", "true");
   ("wallet_account", "deployer");
   ("wallet_algorithm", "secp256k1-raw");
   ("wallet_secret", "5ec2e7");
   ("update_output_file", "update.cbor");
   ("deploy_output_file", "deploy.cbor");
   ("safe_address", "0x2ECd2bc7344a15996698B6C2Ff62ba4332FEC83f");
   ("safe_proposer_key", "0x1234567890abcdef")].

(** A plain deployment, signed by the imported wallet. *)
Definition plain_deployment : list (string * string) :=
  [("cli_version", "latest");
   ("network", "testnet");
   ("wallet_import", "true");
   ("wallet_account", "deployer");
   ("wallet_secret", "5ec2e7")].

(** The check for updates that opens a pull request. *)
Definition update_check : list (string * string) :=
  [("cli_version", "latest");
   ("network", "testnet");
   ("check_updates", "true");
   ("create_update_pr", "true")].

Definition workspace : string := "/home/runner/work/app".

(** The directory the run is in: the last it changed to. *)
Fixpoint directory (dir : string) (history : list Step) : string :=
  match history with
  | [] => dir
  | Chdir d :: rest => directory d rest
  | _ :: rest => directory dir rest
  end.

Definition succeeds (output : list string) : Exn + ExecResult :=
  inr {| exitCode := 0; stdout := output |}.

Definition exits (code : Z) : Exn + ExecResult :=
  inr {| exitCode := code; stdout := [] |}.

Definition fails (command : string) : Exn + ExecResult :=
  inl (JsError ("The process '" ++ command ++ "' failed with exit code 1")).

(** A machine on which every command succeeds and prints nothing. *)
Definition obliging : list Step -> Command -> Exn + ExecResult :=
  fun _ _ => succeeds [].

(** A machine without [sudo]. *)
Definition without_sudo : list Step -> Command -> Exn + ExecResult :=
  fun _ c => if cmd c =? "sudo" then fails "sudo" else succeeds [].

(** A machine on which [oasis rofl build] fails. *)
Definition build_fails : list Step -> Command -> Exn + ExecResult :=
  fun _ c =>
    match args c with
    | a :: b :: _ =>
        if (cmd c =? "oasis") && (a =? "rofl") && (b =? "build")
        then fails "oasis" else succeeds []
    | _ => succeeds []
    end.

(** A repository whose manifest the upgrade changes: [git diff] exits
    with 1; [gh pr list] prints [open], [git ls-remote] prints [heads]
    and [gh pr create] prints the address of the new pull request. *)
Definition upgraded (open heads : list string)
  : list Step -> Command -> Exn + ExecResult :=
  fun _ c =>
    match args c with
    | a :: b :: _ =>
        if (cmd c =? "git") && (a =? "diff") then exits 1
        else if (cmd c =? "gh") && (a =? "pr") && (b =? "list")
        then succeeds open
        else if (cmd c =? "gh") && (a =? "pr") && (b =? "create")
        then succeeds ["https://github.com/o/app/pull/7"]
        else if (cmd c =? "git") && (a =? "ls-remote") then succeeds heads
        else succeeds []
    | _ => succeeds []
    end.

(** [s] without the line feeds and spaces at its start. *)
Fixpoint trim_start (s : string) : string :=
  match s with
  | String c rest =>
      if (Ascii.eqb c " " || Ascii.eqb c (ascii_of_nat 10))%bool
      then trim_start rest else s
  | EmptyString => s
  end.

Definition reverse (s : string) : string :=
  string_of_list_ascii (rev (list_ascii_of_string s)).

Definition strip (s : string) : string :=
  reverse (trim_start (reverse (trim_start s))).

(** The host with the inputs [table], on which the paths [files] exist
    and the commands answer as [script] says. *)
Definition host (table : list (string * string)) (files : list string)
  (script : list Step -> Command -> Exn + ExecResult) : Host := {|
  getInput := input table;
  platform := "linux";
  GITHUB_WORKSPACE := Some workspace;
  isAbsolute := String.prefix "/";
  join := fun a b => (a ++ "/" ++ b)%string;
  trim := strip;
  toISOString := "2026-01-15T08:30:00.000Z";
  cwd := directory workspace;
  sdk := fun _ =>
    Safe.with_files (Scenario.flaky 0 0)
      (fun path => existsb (String.eqb path) files)
      (Safe.readFileSync (Scenario.flaky 0 0));
  chdir := fun _ _ => None;
  installOasisCLI := fun _ _ => None;
  exec := script
|}.

Definition artifacts : list string := ["update.cbor"; "deploy.cbor"].

(** The hosts of the examples: a Safe deployment, the same as a dry
    run, and a plain deployment, on a machine on which every command
    succeeds; a plain deployment that names a working directory that is
    not there; a Safe deployment that names no file for its
    transactions, and one without a proposer key; a plain deployment on
    a machine without [sudo], and one on which the build fails. *)
Definition safe_host : Host := host safe_deployment artifacts obliging.

Definition dry_host : Host :=
  host (("safe_dry_run", "true") :: safe_deployment) artifacts obliging.

Definition plain_host : Host := host plain_deployment [] obliging.

Definition lost_host : Host :=
  host (("working_directory", "app") :: plain_deployment) [] obliging.

Definition unfiled_host : Host :=
  host [("network", "testnet");
        ("safe_address", "0x2ECd2bc7344a15996698B6C2Ff62ba4332FEC83f");
        ("safe_proposer_key", "0x1234567890abcdef")] [] obliging.


Definition bare_host : Host := host plain_deployment [] without_sudo.

Definition broken_host : Host := host plain_deployment [] build_fails.

(** The hosts of a check for updates: the manifest is as it was; the
    upgrade has changed it and the update branch is on the remote; the
    same with a pull request that is open. *)
Definition unchanged_host : Host := host update_check ["rofl.yaml"] obliging.

Definition upgraded_host : Host :=
  host update_check ["rofl.yaml"]
    (upgraded [] ["5ca1ab1e refs/heads/rofl-update-2026-01-15"]).


End Workflow.

(* ------------------------------------------------------------------ *)
(** ** Properties *)

Import Js Safe Props.
Local Open Scope safe_scope.

(** *** Running the monad *)

Lemma add_logs_nil (w : World) : add_logs w [] = w.
Proof. destruct w; unfold add_logs; cbn. now rewrite app_nil_r. Qed.

Lemma add_logs_app (w : World) (l1 l2 : list (LogLevel * string)) :
  add_logs (add_logs w l1) l2 = add_logs w (l1 ++ l2).
Proof. unfold add_logs; cbn. now rewrite app_assoc. Qed.

Lemma only_logs_ret {A : Type} (a : A) : only_logs (ret a).
Proof.
  exists (Ok a), []. split; [discriminate |].
  intros w. now rewrite add_logs_nil.
Qed.

Lemma only_logs_throw {A : Type} (e : Exn) : only_logs (@throw A e).
Proof.
  exists (Throw e), []. split; [discriminate |].
  intros w. now rewrite add_logs_nil.
Qed.

Lemma only_logs_log (level : LogLevel) (msg : string) :
  only_logs (log level msg).
Proof. exists (Ok tt), [(level, msg)]. split; [discriminate | reflexivity]. Qed.

Lemma only_logs_lift {A : Type} (r : Exn + A) : only_logs (lift r).
Proof. destruct r; [apply only_logs_throw | apply only_logs_ret]. Qed.

Lemma only_logs_lift_unit (r : option Exn) : only_logs (lift_unit r).
Proof. destruct r; [apply only_logs_throw | apply only_logs_ret]. Qed.

Lemma only_logs_bind {A B : Type} (m : M A) (k : A -> M B) :
  only_logs m -> (forall a, only_logs (k a)) -> only_logs (bind m k).
Proof.
  intros (r & ls & Hr & Hm) Hk.
  destruct r as [a | e |]; [| | contradiction].
  - destruct (Hk a) as (r' & ls' & Hr' & Hka).
    exists r', (ls ++ ls'). split; [exact Hr' |]. intros w.
    unfold bind. now rewrite Hm, Hka, add_logs_app.
  - exists (Throw e), ls. split; [discriminate |].
    intros w. unfold bind. now rewrite Hm.
Qed.

Create HintDb logs.

#[local] Hint Resolve only_logs_ret only_logs_throw only_logs_log
  only_logs_lift only_logs_lift_unit : logs.

(** Takes a computation apart along its binds and case distinctions. *)
Ltac only_logs_tac :=
  repeat first
    [ progress intros
    | apply only_logs_bind
    | solve [auto with logs]
    | match goal with
      | |- only_logs (match ?x with _ => _ end) => destruct x
      | |- only_logs (if ?b then _ else _) => destruct b
      end ].

Lemma only_logs_loadModule env name path : only_logs (loadModule env name path).
Proof. unfold loadModule. auto with logs. Qed.

Lemma only_logs_process_update_file env id files txs :
  only_logs (process_update_file env id files txs).
Proof.
  unfold process_update_file, call_body, info. only_logs_tac.
Qed.

Lemma only_logs_process_deploy_file env id files txs :
  only_logs (process_deploy_file env id files txs).
Proof.
  unfold process_deploy_file, info. only_logs_tac.
Qed.

Lemma only_logs_generateTransactions env files networkName path :
  only_logs (generateTransactions env files networkName path).
Proof.
  unfold generateTransactions.
  only_logs_tac;
    auto using only_logs_loadModule, only_logs_process_update_file,
      only_logs_process_deploy_file.
Qed.

(** *** The two blocks of [generateTransactions] *)

Lemma generateTransactions_ready env files networkName path id :
  ready env networkName path id ->
  forall w,
    generateTransactions env files networkName path w =
    bind (process_update_file env id files [])
      (fun txs => bind (process_deploy_file env id files txs) ret) w.
Proof.
  intros (p & Hnet & Hmods & Hhex) w.
  unfold generateTransactions, loadModule, installed in *.
  inversion Hmods as [| ? ? H1 Hrest]; subst.
  inversion Hrest as [| ? ? H2 _]; subst.
  rewrite Hnet. cbn. rewrite H1. cbn. rewrite H2. cbn. rewrite Hhex. cbn.
  reflexivity.
Qed.

Lemma update_block_absent env id files txs w :
  absent env (updateFile files) ->
  process_update_file env id files txs w = (w, Ok txs).
Proof.
  unfold absent, process_update_file.
  destruct (updateFile files) as [p |]; [intros -> |]; reflexivity.
Qed.

Lemma update_block_present env id files txs c w :
  holds_artifact env (updateFile files) c ->
  exists ls,
    process_update_file env id files txs w =
    (add_logs w ls, Ok (txs ++ [descriptor (rofl_callUpdate env id (body c))])).
Proof.
  intros (p & data & cbor & Hp & Ht & He & Hr & Hd & Hc).
  unfold process_update_file, call_body. rewrite Hp, Ht, He. cbn.
  rewrite Hr. cbn. rewrite Hd. cbn. rewrite Hc. cbn.
  eexists [_; _]. unfold add_logs. cbn. rewrite <- app_assoc. reflexivity.
Qed.

Lemma update_block_part env id files us txs w :
  update_part env id files us ->
  exists ls,
    process_update_file env id files txs w = (add_logs w ls, Ok (txs ++ us)).
Proof.
  intros [[Habs ->] | (c & Hc & ->)].
  - exists []. rewrite add_logs_nil, app_nil_r.
    now apply update_block_absent.
  - now apply update_block_present.
Qed.

Lemma deploy_block_absent env id files txs w :
  absent env (deployFile files) ->
  process_deploy_file env id files txs w = (w, Ok txs).
Proof.
  unfold absent, process_deploy_file.
  destruct (deployFile files) as [p |]; [intros -> |]; reflexivity.
Qed.

(** The deploy block once the file is read and decoded. *)
Lemma deploy_block_decoded env id files txs c w :
  holds_artifact env (deployFile files) c ->
  exists l,
    process_deploy_file env id files txs w =
    (if truthy_opt (method c) then
       if startsWith (show (method c)) "roflmarket." then
         (add_logs w [l; (LInfo, ("Deploy method: " ++ show (method c))%string)],
          Ok (txs ++ [descriptor
                        (roflmarket_callInstanceExecuteCmds env id (body c))]))
       else
         (add_logs w [l; (LInfo, ("Deploy method: " ++ show (method c))%string)],
          Throw (JsError
                   ("Unsupported deploy CBOR method: " ++ show (method c) ++
                    ". " ++ "Supported methods: rofl.Update, roflmarket.*")))
     else (add_logs w [l], Ok txs)).
Proof.
  intros (p & data & cbor & Hp & Ht & He & Hr & Hd & Hc).
  unfold process_deploy_file. rewrite Hp, Ht, He. cbn.
  rewrite Hr. cbn. rewrite Hd. cbn. rewrite Hc.
  eexists.
  destruct (truthy_opt (method c)); [| reflexivity].
  cbn. destruct (startsWith (show (method c)) "roflmarket.");
    unfold add_logs; cbn; rewrite <- app_assoc; reflexivity.
Qed.

Lemma contains_app_r (needle a b : string) :
  contains needle b = true -> contains needle (a ++ b)%string = true.
Proof.
  intros H. induction a as [| c a IH]; cbn; [exact H |].
  rewrite IH. apply orb_true_r.
Qed.

(** The error message of the deploy block names both families, whatever
    the method. *)
Lemma unsupported_message_names_families (m : string) :
  let msg := ("Unsupported deploy CBOR method: " ++ m ++ ". " ++
              "Supported methods: rofl.Update, roflmarket.*")%string in
  contains "rofl.Update" msg = true /\ contains "roflmarket.*" msg = true.
Proof.
  cbv zeta. split.
  - apply contains_app_r, contains_app_r. reflexivity.
  - apply contains_app_r, contains_app_r. reflexivity.
Qed.

Lemma generateTransactions_same_artifacts env exists_ read files networkName
  path :
  same_artifacts env exists_ read files ->
  forall w,
    generateTransactions (with_files env exists_ read) files networkName path w
    = generateTransactions env files networkName path w.
Proof.
  intros Hsame w.
  unfold generateTransactions, process_update_file, process_deploy_file,
    loadModule, resolveModule.
  cbn [with_files existsSync readFileSync createRequire require fromHex
       fromCBOR rofl_callUpdate roflmarket_callInstanceExecuteCmds].
  destruct (updateFile files) as [pu |] eqn:Hu;
    destruct (deployFile files) as [pd |] eqn:Hd;
    repeat match goal with
      | p : string |- _ =>
          lazymatch goal with
          | |- context [exists_ p] =>
              let H := fresh in
              assert (H : exists_ p = existsSync env p /\
                          read p = readFileSync env p)
                by (apply Hsame; auto);
              destruct H as [-> ->]
          end
      end;
    reflexivity.
Qed.

(** *** Claims about [generateTransactions] *)

Lemma truthy_nonempty (s : string) : s <> "" -> truthy s = true.
Proof.
  intros H. unfold truthy. apply negb_true_iff. now apply String.eqb_neq.
Qed.

(** C6.  The deploy artifact of this run decodes with a method string
    that is present and empty.  The empty string is outside the two
    families, yet transaction generation throws no error and adds no
    descriptor: the artifact is passed over like one without a
    method. *)
Theorem empty_method_is_not_rejected :
  holds_artifact
    (Scenario.env None (Some Scenario.empty_method_artifact)
       (Scenario.answers 0) Scenario.accepts)
    (deployFile Scenario.both_files)
    {| method := Some ""; body := Some [Byte.x06] |} /\
  supported_family "" = false /\
  snd (generateTransactions
         (Scenario.env None (Some Scenario.empty_method_artifact)
            (Scenario.answers 0) Scenario.accepts)
         Scenario.both_files "testnet" None init_world) = Ok [].
Proof.
  split; [| split; reflexivity].
  exists Scenario.deploy_path, Scenario.empty_method_artifact,
    {| call := Some {| method := Some ""; body := Some [Byte.x06] |} |}.
  repeat split.
Qed.

(** C8.  Both artifact files of these two runs are present and decode.
    Where the deploy artifact declares no method, the run returns the
    hash of a proposal of one operation, the update call, and that is
    what the wallet service has on record: the deploy call is left out
    of the batch without an error.  Where the deploy artifact declares
    rofl.Update, the run throws the unsupported-method error and nothing
    is proposed. *)
Theorem deploy_call_is_not_batched :
  (holds_artifact Scenario.unnamed_deploy (updateFile Scenario.both_files)
     {| method := Some "rofl.Update"; body := Some [Byte.x01] |} /\
   holds_artifact Scenario.unnamed_deploy (deployFile Scenario.both_files)
     {| method := None; body := Some [Byte.x03] |} /\
   snd (proposeToSafe Scenario.unnamed_deploy 3 (Scenario.inputs false)
          Scenario.both_files "testnet" None init_world) = Ok "0x5afe" /\
   map (fun p => st_transactions (pt_safeTransactionData p))
     (proposals
        (fst (proposeToSafe Scenario.unnamed_deploy 3 (Scenario.inputs false)
                Scenario.both_files "testnet" None init_world)))
   = [[{| mt_to := "0x0100000000000000000000000000000000000103";
          mt_data := "0x1a2b";
          mt_value := "0";
          mt_operation := Call |}]]) /\
  (holds_artifact Scenario.rofl_deploy (updateFile Scenario.both_files)
     {| method := Some "rofl.Update"; body := Some [Byte.x01] |} /\
   holds_artifact Scenario.rofl_deploy (deployFile Scenario.both_files)
     {| method := Some "rofl.Update"; body := Some [Byte.x04] |} /\
   snd (proposeToSafe Scenario.rofl_deploy 3 (Scenario.inputs false)
          Scenario.both_files "testnet" None init_world)
   = Throw (JsError "Unsupported deploy CBOR method: rofl.Update. Supported methods: rofl.Update, roflmarket.*") /\
   proposals
     (fst (proposeToSafe Scenario.rofl_deploy 3 (Scenario.inputs false)
             Scenario.both_files "testnet" None init_world)) = []).
Proof.
  split; (split; [| split; [| split; reflexivity]]).
  - exists Scenario.update_path, Scenario.update_artifact,
      {| call := Some {| method := Some "rofl.Update";
                         body := Some [Byte.x01] |} |}.
    repeat split.
  - exists Scenario.deploy_path, Scenario.no_method_artifact,
      {| call := Some {| method := None; body := Some [Byte.x03] |} |}.
    repeat split.
  - exists Scenario.update_path, Scenario.update_artifact,
      {| call := Some {| method := Some "rofl.Update";
                         body := Some [Byte.x01] |} |}.
    repeat split.
  - exists Scenario.deploy_path, Scenario.rofl_update_deploy_artifact,
      {| call := Some {| method := Some "rofl.Update";
                         body := Some [Byte.x04] |} |}.
    repeat split.
Qed.

(** C1.  The deploy artifact of this run decodes with no method field.
    Transaction generation throws nothing: it returns the descriptor of
    the update artifact alone, and with the deploy artifact alone it
    returns the empty list. *)
Theorem missing_method_is_skipped :
  holds_artifact
    (Scenario.env (Some Scenario.update_artifact)
       (Some Scenario.no_method_artifact)
       (Scenario.answers 0) Scenario.accepts)
    (deployFile Scenario.both_files)
    {| method := None; body := Some [Byte.x03] |} /\
  snd (generateTransactions
         (Scenario.env (Some Scenario.update_artifact)
            (Some Scenario.no_method_artifact)
            (Scenario.answers 0) Scenario.accepts)
         Scenario.both_files "testnet" None init_world)
  = Ok [descriptor (Scenario.update_subcall Scenario.testnet_id
                      (Some [Byte.x01]))] /\
  snd (generateTransactions
         (Scenario.env None (Some Scenario.no_method_artifact)
            (Scenario.answers 0) Scenario.accepts)
         Scenario.both_files "testnet" None init_world)
  = Ok [].
Proof.
  split; [| split; reflexivity].
  exists Scenario.deploy_path, Scenario.no_method_artifact,
    {| call := Some {| method := None; body := Some [Byte.x03] |} |}.
  repeat split.
Qed.

(** C7.  The deploy artifact of this run declares the method
    rofl.Update.  It is not wrapped by the rofl wrapper's update call:
    transaction generation throws the unsupported-method error, whose
    message lists rofl.Update among the supported methods. *)
Theorem rofl_update_deploy_is_rejected :
  holds_artifact
    (Scenario.env None (Some Scenario.rofl_update_deploy_artifact)
       (Scenario.answers 0) Scenario.accepts)
    (deployFile Scenario.both_files)
    {| method := Some "rofl.Update"; body := Some [Byte.x04] |} /\
  snd (generateTransactions
         (Scenario.env None (Some Scenario.rofl_update_deploy_artifact)
            (Scenario.answers 0) Scenario.accepts)
         Scenario.both_files "testnet" None init_world)
  = Throw (JsError "Unsupported deploy CBOR method: rofl.Update. Supported methods: rofl.Update, roflmarket.*").
Proof.
  split; [| reflexivity].
  exists Scenario.deploy_path, Scenario.rofl_update_deploy_artifact,
    {| call := Some {| method := Some "rofl.Update";
                       body := Some [Byte.x04] |} |}.
  repeat split.
Qed.

(** *** The nonce loop *)

Section NonceLoop.

Variables (env : Env) (apiKit : ApiKit) (inputs : SafeInputs).

Local Abbreviation request := (GetNextNonce (safeAddress inputs)).
Local Abbreviation ask w k :=
  (getNextNonce env (k + nonce_requests w) apiKit (safeAddress inputs)).

Ltac nonce_run :=
  match goal with
  | fuel : nat |- _ =>
      destruct fuel as [| [| [| fuel]]]; try lia
  end;
  unfold nonce_loop, apiKit_getNextNonce, try_, bind, info, warning, sleep,
    log, effect, ret, throw; cbn;
  repeat match goal with
    | H : getNextNonce _ _ _ _ = _ |- _ => cbn in H; rewrite H; clear H; cbn
    end;
  eexists; split; [reflexivity |];
  unfold after_nonce; cbn; rewrite <- ?app_assoc; auto.

Lemma nonce_loop_first fuel nonce w n :
  3 <= fuel ->
  ask w 0 = inr n ->
  exists w',
    nonce_loop env fuel apiKit inputs 1 nonce w = (w', Ok n) /\
    after_nonce w [request] 1 w'.
Proof. intros Hfuel H0. nonce_run. Qed.

Lemma nonce_loop_second fuel nonce w e1 n :
  3 <= fuel ->
  ask w 0 = inl e1 -> ask w 1 = inr n ->
  exists w',
    nonce_loop env fuel apiKit inputs 1 nonce w = (w', Ok n) /\
    after_nonce w [request; Sleep 1000; request] 2 w'.
Proof. intros Hfuel H0 H1. nonce_run. Qed.

Lemma nonce_loop_third fuel nonce w e1 e2 n :
  3 <= fuel ->
  ask w 0 = inl e1 -> ask w 1 = inl e2 -> ask w 2 = inr n ->
  exists w',
    nonce_loop env fuel apiKit inputs 1 nonce w = (w', Ok n) /\
    after_nonce w [request; Sleep 1000; request; Sleep 2000; request] 3 w'.
Proof. intros Hfuel H0 H1 H2. nonce_run. Qed.

Lemma nonce_loop_exhausted fuel nonce w e1 e2 e3 :
  3 <= fuel ->
  ask w 0 = inl e1 -> ask w 1 = inl e2 -> ask w 2 = inl e3 ->
  exists w',
    nonce_loop env fuel apiKit inputs 1 nonce w =
      (w', Throw (JsError ("Failed to get nonce after 3 attempts: " ++
                           errorMessage e3)%string)) /\
    after_nonce w [request; Sleep 1000; request; Sleep 2000; request] 3 w'.
Proof. intros Hfuel H0 H1 H2. nonce_run. Qed.

End NonceLoop.

(** *** The submission loop *)

Section ProposeLoop.

Variables (env : Env) (apiKit : ApiKit) (protocolKit : ProtocolKit)
  (safeTransaction : SafeTransaction) (safeTxHash : string)
  (signature : Signature).

Local Abbreviation props :=
  (proposal env protocolKit safeTransaction safeTxHash signature).
Local Abbreviation submit := (ProposeTransaction props).
Local Abbreviation reject w k :=
  (proposeTransaction env (k + propose_requests w) apiKit props).
Local Abbreviation loop fuel :=
  (propose_loop env fuel apiKit protocolKit safeTransaction safeTxHash
     signature 0).

Ltac propose_run :=
  match goal with
  | fuel : nat |- _ =>
      destruct fuel as [| [| [| fuel]]]; try lia
  end;
  unfold propose_loop, apiKit_proposeTransaction, try_, bind, info, warning,
    error, sleep, log, effect, ret, throw, proposal in *; cbn;
  repeat match goal with
    | H : proposeTransaction _ _ _ _ = _ |- _ =>
        cbn in H; rewrite H; clear H; cbn
    end;
  eexists; split; [reflexivity |];
  unfold after_propose; cbn; rewrite <- ?app_assoc, ?app_nil_r; auto.

Lemma propose_loop_first fuel w :
  3 <= fuel ->
  reject w 0 = None ->
  exists w',
    loop fuel w = (w', Ok safeTxHash) /\
    after_propose w [submit] 1 [props] w'.
Proof. intros Hfuel H0. propose_run. Qed.

Lemma propose_loop_second fuel w e1 :
  3 <= fuel ->
  reject w 0 = Some e1 -> reject w 1 = None ->
  exists w',
    loop fuel w = (w', Ok safeTxHash) /\
    after_propose w [submit; Sleep 1000; submit] 2 [props] w'.
Proof. intros Hfuel H0 H1. propose_run. Qed.

Lemma propose_loop_third fuel w e1 e2 :
  3 <= fuel ->
  reject w 0 = Some e1 -> reject w 1 = Some e2 -> reject w 2 = None ->
  exists w',
    loop fuel w = (w', Ok safeTxHash) /\
    after_propose w [submit; Sleep 1000; submit; Sleep 2000; submit] 3
      [props] w'.
Proof. intros Hfuel H0 H1 H2. propose_run. Qed.

Lemma propose_loop_exhausted fuel w e1 e2 e3 :
  3 <= fuel ->
  reject w 0 = Some e1 -> reject w 1 = Some e2 -> reject w 2 = Some e3 ->
  exists w',
    loop fuel w = (w', Throw e3) /\
    after_propose w [submit; Sleep 1000; submit; Sleep 2000; submit] 3
      [] w'.
Proof. intros Hfuel H0 H1 H2. propose_run. Qed.

End ProposeLoop.

(** *** [proposeToSafe]: the stages before the nonce *)

Lemma bind_ok {A B : Type} (m : M A) (k : A -> M B) w w' a :
  m w = (w', Ok a) -> bind m k w = k a w'.
Proof. intros H. unfold bind. now rewrite H. Qed.

Lemma bind_throw {A B : Type} (m : M A) (k : A -> M B) w w' e :
  m w = (w', Throw e) -> bind m k w = (w', Throw e).
Proof. intros H. unfold bind. now rewrite H. Qed.

#[local] Arguments String.append : simpl never.
#[local] Arguments generateTransactions : simpl never.
#[local] Arguments nonce_loop : simpl never.
#[local] Arguments propose_loop : simpl never.
#[local] Arguments log_operations : simpl never.
#[local] Arguments Z_toString : simpl never.
#[local] Arguments nat_toString : simpl never.

Lemma installed_safe_modules env path :
  installed env path safe_modules ->
  resolveModule env "xhr2" path = None /\
  resolveModule env "@safe-global/protocol-kit" path = None /\
  resolveModule env "@safe-global/api-kit" path = None /\
  resolveModule env "@safe-global/types-kit" path = None.
Proof.
  unfold installed, safe_modules. intros H.
  repeat match goal with
    | H : Forall _ (_ :: _) |- _ => inversion H; subst; clear H
    end.
  auto.
Qed.

(** When [generateTransactions] returns, the network name resolved. *)
Lemma generateTransactions_network env files networkName path w txs :
  snd (generateTransactions env files networkName path w) = Ok txs ->
  exists p, NETWORKS_get networkName = Some p.
Proof.
  unfold generateTransactions.
  destruct (NETWORKS_get networkName) as [p |]; [now exists p |].
  cbn. discriminate.
Qed.

(** C3.  When transaction generation produces no descriptor, the proposal
    flow throws the error that no transaction file was found, and it has
    done nothing but log: no Safe kit was created, no nonce was asked for,
    no proposal was made, and the wallet service's record is as it
    was. *)
Theorem empty_proposal_is_rejected env fuel inputs files networkName path w :
  installed env path safe_modules ->
  snd (generateTransactions env files networkName path w) = Ok [] ->
  let r := proposeToSafe env fuel inputs files networkName path w in
  snd r = Throw (JsError "No transaction files found to propose") /\
  effects (fst r) = effects w /\
  nonce_requests (fst r) = nonce_requests w /\
  propose_requests (fst r) = propose_requests w /\
  proposals (fst r) = proposals w.
Proof.
  intros Hmods Hgen.
  destruct (generateTransactions_network _ _ _ _ _ _ Hgen) as (p & Hnet).
  destruct (only_logs_generateTransactions env files networkName path)
    as (r & ls & _ & Hrun).
  rewrite Hrun in Hgen. cbn in Hgen. subst r.
  apply installed_safe_modules in Hmods as (H1 & H2 & H3 & H4).
  unfold proposeToSafe, loadModule, info. cbn.
  rewrite Hnet. cbn. rewrite H1. cbn. rewrite H2. cbn. rewrite H3. cbn.
  rewrite H4. cbn. rewrite (bind_ok _ _ _ _ _ (Hrun _)). cbn. auto.
Qed.



(** *** [proposeToSafe] on a valid input set *)

(** A computation that logs and returns [a], in every world. *)
Lemma logs_and_returns_bind {A B : Type} (m : M A) (k : A -> M B) a b :
  (exists ls, forall w, m w = (add_logs w ls, Ok a)) ->
  (exists ls, forall w, k a w = (add_logs w ls, Ok b)) ->
  exists ls, forall w, bind m k w = (add_logs w ls, Ok b).
Proof.
  intros (ls & Hm) (ls' & Hk). exists (ls ++ ls'). intros w.
  now rewrite (bind_ok _ _ _ _ _ (Hm w)), Hk, add_logs_app.
Qed.

Lemma info_logs_and_returns msg :
  exists ls, forall w, info msg w = (add_logs w ls, Ok tt).
Proof. now exists [(LInfo, msg)]. Qed.

Lemma log_operations_run i txs :
  exists ls, forall w, log_operations i txs w = (add_logs w ls, Ok tt).
Proof.
  revert i. induction txs as [| tx txs IH]; intros i.
  - exists []. intros w. now rewrite add_logs_nil.
  - cbn [log_operations].
    repeat (eapply logs_and_returns_bind;
            [apply info_logs_and_returns |]).
    apply IH.
Qed.

Lemma nonce_loop_resolves env apiKit inputs fuel nonce w n :
  3 <= fuel ->
  nonce_requests w = 0 ->
  nonce_resolves env apiKit (safeAddress inputs) n ->
  exists w' asked,
    nonce_loop env fuel apiKit inputs 1 nonce w = (w', Ok n) /\
    effects w' = effects w ++ asked /\
    forallb (fun e => negb (is_create e) && negb (is_propose e)) asked
    = true /\
    propose_requests w' = propose_requests w /\
    proposals w' = proposals w.
Proof.
  intros Hfuel Hw (k & Hk & Hn & Hbefore).
  destruct k as [| [| [| k]]]; [| | | lia].
  - destruct (nonce_loop_first env apiKit inputs fuel nonce w n Hfuel)
      as (w' & Hrun & He & _ & Hp & Hq); [now rewrite Hw |].
    exists w'. eexists. repeat split; eauto.
  - destruct (Hbefore 0) as [e1 H1]; [lia |].
    destruct (nonce_loop_second env apiKit inputs fuel nonce w e1 n Hfuel)
      as (w' & Hrun & He & _ & Hp & Hq); try (now rewrite Hw).
    exists w'. eexists. repeat split; eauto.
  - destruct (Hbefore 0) as [e1 H1]; [lia |].
    destruct (Hbefore 1) as [e2 H2]; [lia |].
    destruct (nonce_loop_third env apiKit inputs fuel nonce w e1 e2 n Hfuel)
      as (w' & Hrun & He & _ & Hp & Hq); try (now rewrite Hw).
    exists w'. eexists. repeat split; eauto.
Qed.

Lemma or_else_default (a b : string) :
  or_else a (Some b) = Some (if truthy a then a else b).
Proof. unfold or_else. now destruct (truthy a). Qed.

(** A run on a valid input set reaches the choice between the dry run
    and the submission in a world [w1] where both kits were created, the
    nonce was asked for, the transaction was created, hashed and signed,
    and nothing was proposed; between the kits and the transaction
    there are the nonce requests and their waits only ([asked]); from
    there the dry run only logs and returns the hash, and the live run
    is the submission loop. *)
Lemma proposeToSafe_built env fuel inputs files networkName path profile txs c
  nonce hash signature :
  3 <= fuel ->
  signs env inputs files networkName path profile txs c nonce hash signature ->
  exists w1 asked,
    effects w1 =
      [NewSafeApiKit (the_apiKit inputs profile c);
       SafeInit (the_protocolKit inputs profile)] ++ asked ++
      [CreateTransaction (the_transaction txs nonce);
       GetTransactionHash (the_transaction txs nonce);
       SignHash hash] /\
    forallb (fun e => negb (is_create e) && negb (is_propose e)) asked
    = true /\
    propose_requests w1 = 0 /\
    proposals w1 = [] /\
    (dryRun inputs = true ->
     exists ls,
       proposeToSafe env fuel inputs files networkName path init_world
       = (add_logs w1 ls, Ok hash)) /\
    (dryRun inputs = false ->
     proposeToSafe env fuel inputs files networkName path init_world
     = propose_loop env fuel (the_apiKit inputs profile c)
         (the_protocolKit inputs profile) (the_transaction txs nonce) hash
         signature 0 w1).
Proof.
  intros Hfuel [Hnet Hmods Htxs Hsome Hc Hinit Hnonce Hcreate Hhash Hsig].
  destruct (only_logs_generateTransactions env files networkName path)
    as (out & ls & _ & Hrun).
  rewrite Hrun in Htxs. cbn in Htxs. subst out.
  apply installed_safe_modules in Hmods as (H1 & H2 & H3 & H4).
  unfold the_apiKit, the_protocolKit, the_transaction, effective_rpcUrl,
    effective_serviceUrl, effective_chainId in *.
  unfold proposeToSafe, loadModule, protocolKit_init, info. cbn.
  rewrite Hnet. cbn. rewrite H1. cbn. rewrite H2. cbn. rewrite H3. cbn.
  rewrite H4. cbn. rewrite (bind_ok _ _ _ _ _ (Hrun _)).
  destruct txs as [| tx txs]; [contradiction |]. cbn.
  rewrite !or_else_default.
  assert (Hchain :
    (if truthy (safeChainId inputs)
     then bind (lift (BigInt env (safeChainId inputs)))
            (fun c0 => ret (Some c0))
     else ret (Some (chainId profile))) = ret (Some c)).
  { destruct (truthy (safeChainId inputs)).
    - rewrite Hc. reflexivity.
    - now injection Hc as ->. }
  rewrite Hchain. cbn. rewrite Hinit. cbn.
  match goal with
  | |- context [bind (nonce_loop _ _ ?kit _ 1 0) _ ?w] =>
      destruct (nonce_loop_resolves env kit inputs fuel 0 w nonce
                  Hfuel eq_refl Hnonce)
        as (w' & asked & Hloop & He & Hasked & Hp & Hq)
  end.
  rewrite (bind_ok _ _ _ _ _ Hloop).
  unfold protocolKit_createTransaction, protocolKit_getTransactionHash,
    protocolKit_signHash. cbn in *.
  rewrite Hcreate. cbn. rewrite Hhash. cbn. rewrite Hsig. cbn.
  match goal with
  | |- context [(if dryRun inputs then _ else _) ?w] => exists w, asked
  end.
  cbn. rewrite He, Hp, Hq. cbn.
  repeat apply conj; auto.
  - rewrite <- !app_assoc. reflexivity.
  - intros ->.
    match goal with
    | |- exists l, ?m ?w = _ =>
        assert (Hlog : exists l, forall w0, m w0 = (add_logs w0 l, Ok hash))
    end.
    { repeat (eapply logs_and_returns_bind;
              [first [apply info_logs_and_returns
                     | apply log_operations_run] |]).
      exists []. intros w0. now rewrite add_logs_nil. }
    destruct Hlog as (l & Hlog). exists l. apply Hlog.
  - intros ->. reflexivity.
Qed.

Lemma proposeToSafe_signed env fuel inputs files networkName path profile txs c
  nonce hash signature :
  3 <= fuel ->
  signs env inputs files networkName path profile txs c nonce hash signature ->
  exists w1 asked,
    effects w1 =
      [NewSafeApiKit (the_apiKit inputs profile c);
       SafeInit (the_protocolKit inputs profile)] ++ asked ++
      [CreateTransaction (the_transaction txs nonce);
       GetTransactionHash (the_transaction txs nonce);
       SignHash hash] /\
    forallb (fun e => negb (is_propose e)) asked = true /\
    propose_requests w1 = 0 /\
    proposals w1 = [] /\
    (dryRun inputs = true ->
     exists ls,
       proposeToSafe env fuel inputs files networkName path init_world
       = (add_logs w1 ls, Ok hash)) /\
    (dryRun inputs = false ->
     proposeToSafe env fuel inputs files networkName path init_world
     = propose_loop env fuel (the_apiKit inputs profile c)
         (the_protocolKit inputs profile) (the_transaction txs nonce) hash
         signature 0 w1).
Proof.
  intros Hfuel Hsigns.
  destruct (proposeToSafe_built env fuel inputs files networkName path
              profile txs c nonce hash signature Hfuel Hsigns)
    as (w1 & asked & He & Hasked & Hrest).
  exists w1, asked. split; [exact He |]. split; [| exact Hrest].
  apply forallb_forall. intros x Hx.
  apply (proj1 (forallb_forall _ _) Hasked x) in Hx.
  now apply andb_prop in Hx.
Qed.

(** *** Claims about [proposeToSafe] *)

(** C2.  On a valid input set with the dry run switched on, the run
    returns the hash the protocol kit computed for the transaction, a
    non-empty string as the kit's hashes are; no propose request is among
    its effects, none was counted, and the wallet service's record of
    proposals is empty as at the start. *)
Theorem dry_run_proposes_nothing env fuel inputs files networkName path
  profile txs c nonce hash signature :
  3 <= fuel ->
  signs env inputs files networkName path profile txs c nonce hash signature ->
  hash <> "" ->
  dryRun inputs = true ->
  let r := proposeToSafe env fuel inputs files networkName path init_world in
  (exists h,
     snd r = Ok h /\ h <> "" /\
     getTransactionHash env (the_protocolKit inputs profile)
       (the_transaction txs nonce) = inr h) /\
  forallb (fun e => negb (is_propose e)) (effects (fst r)) = true /\
  propose_requests (fst r) = propose_requests init_world /\
  proposals (fst r) = proposals init_world.
Proof.
  intros Hfuel Hsigns Hhash Hdry.
  destruct (proposeToSafe_signed env fuel inputs files networkName path
              profile txs c nonce hash signature Hfuel Hsigns)
    as (w1 & asked & He & Hasked & Hp & Hq & Hrun & _).
  destruct (Hrun Hdry) as (ls & ->). cbn.
  repeat apply conj; auto.
  - exists hash. repeat split; auto. apply Hsigns.
  - rewrite He. cbn. rewrite forallb_app, Hasked. reflexivity.
Qed.

(** C5.  The submission loop, started with no retry counted and fuel for
    three rounds, in any world.  [reject k] is the error of the [k]-th
    propose request from now, if the wallet service rejects it.  An
    accepted first request returns the hash; one rejection and an
    acceptance take two requests 1000 ms apart; two rejections and an
    acceptance take three, 1000 ms and 2000 ms apart; after three
    rejections the third error is thrown as it is, after the same three
    requests and two waits, and nothing is on record.  At most three
    requests are made.  And a live run on a valid input set is this loop,
    started in a world where nothing was proposed yet. *)
Theorem submission_retry_budget env apiKit protocolKit safeTransaction
  safeTxHash signature fuel w :
  3 <= fuel ->
  let r := propose_loop env fuel apiKit protocolKit safeTransaction
             safeTxHash signature 0 w in
  let props := proposal env protocolKit safeTransaction safeTxHash signature in
  let submit := ProposeTransaction props in
  let reject := fun k =>
    proposeTransaction env (k + propose_requests w) apiKit props in
  (reject 0 = None ->
   snd r = Ok safeTxHash /\
   effects (fst r) = effects w ++ [submit] /\
   proposals (fst r) = proposals w ++ [props]) /\
  (forall e1,
     reject 0 = Some e1 -> reject 1 = None ->
     snd r = Ok safeTxHash /\
     effects (fst r) = effects w ++ [submit; Sleep 1000; submit] /\
     proposals (fst r) = proposals w ++ [props]) /\
  (forall e1 e2,
     reject 0 = Some e1 -> reject 1 = Some e2 -> reject 2 = None ->
     snd r = Ok safeTxHash /\
     effects (fst r) =
       effects w ++ [submit; Sleep 1000; submit; Sleep 2000; submit] /\
     proposals (fst r) = proposals w ++ [props]) /\
  (forall e1 e2 e3,
     reject 0 = Some e1 -> reject 1 = Some e2 -> reject 2 = Some e3 ->
     snd r = Throw e3 /\
     effects (fst r) =
       effects w ++ [submit; Sleep 1000; submit; Sleep 2000; submit] /\
     proposals (fst r) = proposals w) /\
  propose_requests (fst r) <= 3 + propose_requests w /\
  (forall inputs files networkName path profile txs c nonce,
     signs env inputs files networkName path profile txs c nonce safeTxHash
       signature ->
     dryRun inputs = false ->
     exists w1,
       proposeToSafe env fuel inputs files networkName path init_world
       = propose_loop env fuel (the_apiKit inputs profile c)
           (the_protocolKit inputs profile) (the_transaction txs nonce)
           safeTxHash signature 0 w1 /\
       forallb (fun e => negb (is_propose e)) (effects w1) = true /\
       propose_requests w1 = 0 /\
       proposals w1 = []).
Proof.
  intros Hfuel r props submit reject. subst r props submit reject.
  repeat apply conj.
  - intros H0.
    destruct (propose_loop_first env apiKit protocolKit safeTransaction
                safeTxHash signature fuel w Hfuel H0)
      as (w' & -> & He & _ & _ & Hq). cbn. now rewrite He, Hq.
  - intros e1 H0 H1.
    destruct (propose_loop_second env apiKit protocolKit safeTransaction
                safeTxHash signature fuel w e1 Hfuel H0 H1)
      as (w' & -> & He & _ & _ & Hq). cbn. now rewrite He, Hq.
  - intros e1 e2 H0 H1 H2.
    destruct (propose_loop_third env apiKit protocolKit safeTransaction
                safeTxHash signature fuel w e1 e2 Hfuel H0 H1 H2)
      as (w' & -> & He & _ & _ & Hq). cbn. now rewrite He, Hq.
  - intros e1 e2 e3 H0 H1 H2.
    destruct (propose_loop_exhausted env apiKit protocolKit safeTransaction
                safeTxHash signature fuel w e1 e2 e3 Hfuel H0 H1 H2)
      as (w' & -> & He & _ & _ & Hq). cbn.
    now rewrite He, Hq, app_nil_r.
  - destruct (proposeTransaction env (0 + propose_requests w) apiKit
                (proposal env protocolKit safeTransaction safeTxHash
                   signature)) as [e1 |] eqn:H0.
    2: { destruct (propose_loop_first env apiKit protocolKit safeTransaction
                     safeTxHash signature fuel w Hfuel H0)
           as (w' & -> & _ & Hn & _). cbn. rewrite Hn. lia. }
    destruct (proposeTransaction env (1 + propose_requests w) apiKit
                (proposal env protocolKit safeTransaction safeTxHash
                   signature)) as [e2 |] eqn:H1.
    2: { destruct (propose_loop_second env apiKit protocolKit safeTransaction
                     safeTxHash signature fuel w e1 Hfuel H0 H1)
           as (w' & -> & _ & Hn & _). cbn. rewrite Hn. lia. }
    destruct (proposeTransaction env (2 + propose_requests w) apiKit
                (proposal env protocolKit safeTransaction safeTxHash
                   signature)) as [e3 |] eqn:H2.
    2: { destruct (propose_loop_third env apiKit protocolKit safeTransaction
                     safeTxHash signature fuel w e1 e2 Hfuel H0 H1 H2)
           as (w' & -> & _ & Hn & _). cbn. rewrite Hn. lia. }
    destruct (propose_loop_exhausted env apiKit protocolKit safeTransaction
                safeTxHash signature fuel w e1 e2 e3 Hfuel H0 H1 H2)
      as (w' & -> & _ & Hn & _). cbn. rewrite Hn. lia.
  - intros inputs files networkName path profile txs c nonce Hsigns Hlive.
    destruct (proposeToSafe_signed env fuel inputs files networkName path
                profile txs c nonce safeTxHash signature Hfuel Hsigns)
      as (w1 & asked & He & Hasked & Hp & Hq & _ & Hrun).
    exists w1. repeat split; auto.
    rewrite He. cbn. rewrite forallb_app, Hasked. reflexivity.
Qed.

(** *** Runs *)

Lemma flaky_signs (dry : bool) (f g : nat) :
  f < 3 ->
  signs (Scenario.flaky f g) (Scenario.inputs dry) Scenario.both_files
    "testnet" None testnet Scenario.two_descriptors 23295 7 "0x5afe"
    Scenario.the_signature.
Proof.
  intros Hf. constructor; try reflexivity.
  - repeat constructor.
  - discriminate.
  - exists f. repeat split; [exact Hf | |].
    + cbn. unfold Scenario.fails_then_answers.
      now rewrite Nat.ltb_irrefl.
    + intros j Hj. exists (JsError "Service Unavailable").
      cbn. unfold Scenario.fails_then_answers.
      apply Nat.ltb_lt in Hj. now rewrite Hj.
Qed.

(** A dry run of [dry_run_proposes_nothing]. *)
Lemma dry_run_proposes_nothing_witness :
  snd (proposeToSafe (Scenario.flaky 0 0) 3 (Scenario.inputs true)
         Scenario.both_files "testnet" None init_world) = Ok "0x5afe" /\
  proposals
    (fst (proposeToSafe (Scenario.flaky 0 0) 3 (Scenario.inputs true)
            Scenario.both_files "testnet" None init_world)) = [].
Proof.
  pose proof
    (dry_run_proposes_nothing (Scenario.flaky 0 0) 3 (Scenario.inputs true)
       Scenario.both_files "testnet" None testnet Scenario.two_descriptors
       23295 7 "0x5afe" Scenario.the_signature) as H.
  cbv zeta in H.
  split; [reflexivity |].
  apply H.
  - lia.
  - constructor; try reflexivity.
    + repeat constructor.
    + discriminate.
    + exists 0. repeat split; [lia |]. intros j Hj. lia.
  - discriminate.
  - reflexivity.
Defined.

(** A run of [empty_proposal_is_rejected]: no artifact file exists. *)
Lemma empty_proposal_is_rejected_witness :
  snd (proposeToSafe
         (Scenario.env None None (Scenario.answers 7) Scenario.accepts) 3
         (Scenario.inputs false) Scenario.both_files "testnet" None
         init_world)
  = Throw (JsError "No transaction files found to propose").
Proof.
  refine (proj1
    (empty_proposal_is_rejected
       (Scenario.env None None (Scenario.answers 7) Scenario.accepts) 3
       (Scenario.inputs false) Scenario.both_files "testnet" None
       init_world _ _)).
  - repeat constructor.
  - reflexivity.
Defined.


(** A run of [submission_retry_budget]: three rejections. *)
Lemma submission_retry_budget_witness :
  snd (propose_loop (Scenario.flaky 0 3) 3
         (the_apiKit (Scenario.inputs false) testnet 23295)
         (the_protocolKit (Scenario.inputs false) testnet)
         (the_transaction Scenario.two_descriptors 7) "0x5afe"
         Scenario.the_signature 0 init_world)
  = Throw (JsError "Bad Gateway").
Proof.
  refine (proj1 (proj1 (proj2 (proj2 (proj2
    (submission_retry_budget (Scenario.flaky 0 3)
       (the_apiKit (Scenario.inputs false) testnet 23295)
       (the_protocolKit (Scenario.inputs false) testnet)
       (the_transaction Scenario.two_descriptors 7) "0x5afe"
       Scenario.the_signature 3 init_world _))))
    (JsError "Bad Gateway") (JsError "Bad Gateway") (JsError "Bad Gateway")
    _ _ _)); [lia | reflexivity ..].
Defined.

(** *** The network table *)

(** C9.  The name constructor is neither mainnet nor testnet, yet the
    lookup in the table finds the member of that name that every object
    inherits, the guard of [proposeToSafe] lets it pass, and so does the
    guard of [generateTransactions]: once the modules are loaded the run
    hands an undefined runtime identifier to the Oasis SDK, and the error
    it throws is the SDK's, whatever that is, not the unknown-network
    error. *)
Theorem inherited_name_is_not_unknown env fuel inputs files path e :
  installed env path
    (safe_modules ++ ["@oasisprotocol/client"; "@oasisprotocol/client-rt"]) ->
  fromHex env None = inl e ->
  NETWORKS_get "constructor" = Some (Inherited "constructor") /\
  snd (proposeToSafe env fuel inputs files "constructor" path init_world)
  = Throw e.
Proof.
  intros Hmods Hhex. split; [reflexivity |].
  unfold installed, safe_modules in Hmods. cbn in Hmods.
  repeat match goal with
    | H : Forall _ (_ :: _) |- _ => inversion H; subst; clear H
    end.
  assert (Hgen : forall w,
    generateTransactions env files "constructor" path w = (w, Throw e)).
  { intros w. unfold generateTransactions, loadModule, bind. cbn.
    repeat match goal with
      | H : resolveModule _ _ _ = None |- _ => rewrite H; cbn
      end.
    now rewrite Hhex. }
  unfold proposeToSafe, loadModule, info. cbn.
  repeat match goal with
    | H : resolveModule _ _ _ = None |- _ => rewrite H; clear H; cbn
    end.
  now rewrite (bind_throw _ _ _ _ _ (Hgen _)).
Qed.

(** A run of [inherited_name_is_not_unknown]. *)
Lemma inherited_name_is_not_unknown_witness :
  snd (proposeToSafe (Scenario.flaky 0 0) 3 (Scenario.inputs false)
         Scenario.both_files "constructor" None init_world)
  = Throw (JsError "Cannot read properties of undefined (reading 'match')").
Proof.
  refine (proj2
    (inherited_name_is_not_unknown (Scenario.flaky 0 0) 3
       (Scenario.inputs false) Scenario.both_files None
       (JsError "Cannot read properties of undefined (reading 'match')")
       _ _)).
  - repeat constructor.
  - reflexivity.
Defined.

(* ------------------------------------------------------------------ *)
(** ** The debug lines of [run] *)

Section Redaction.

Local Abbreviation redact args :=
  (fun (arg : string) (i : Z) =>
     if Main.is_string (Main.at_index args (i - 1)) "--secret"
     then "***" else arg).

Lemma nth_error_map_indexed {A B : Type} (f : A -> Z -> B) (xs : list A) :
  forall (k : Z) (j : nat),
    nth_error (Main.map_indexed f k xs) j =
    option_map (fun x => f x (k + Z.of_nat j)%Z) (nth_error xs j).
Proof.
  induction xs as [| x xs IH]; intros k j.
  - now destruct j.
  - destruct j as [| j]; cbn.
    + now rewrite Z.add_0_r.
    + rewrite IH. destruct (nth_error xs j); cbn; [| reflexivity].
      do 2 f_equal. lia.
Qed.

Lemma last_or_snoc prev xs x : Main.last_or prev (xs ++ [x]) = Some x.
Proof. unfold Main.last_or. now rewrite fold_left_app. Qed.

(** The argument before position [length pre] is the last of [pre]. *)
Lemma at_index_before pre xs :
  Main.at_index (pre ++ xs) (Z.of_nat (length pre) - 1) = Main.last_or None pre.
Proof.
  induction pre as [| x pre _] using rev_ind.
  - reflexivity.
  - rewrite last_or_snoc, length_app. cbn [length].
    unfold Main.at_index.
    destruct (Z.ltb_spec (Z.of_nat (length pre + 1) - 1) 0) as [H | _];
      [lia |].
    replace (Z.to_nat (Z.of_nat (length pre + 1) - 1)) with (length pre)
      by lia.
    rewrite <- app_assoc. rewrite nth_error_app2 by lia.
    now rewrite Nat.sub_diag.
Qed.

Lemma map_indexed_redact args pre xs :
  args = pre ++ xs ->
  Main.map_indexed (redact args) (Z.of_nat (length pre)) xs =
  Main.redact_from (Main.last_or None pre) xs.
Proof.
  revert pre. induction xs as [| x xs IH]; intros pre Hargs; [reflexivity |].
  cbn [Main.map_indexed Main.redact_from]. f_equal.
  - now rewrite Hargs, at_index_before.
  - specialize (IH (pre ++ [x])).
    rewrite last_or_snoc, length_app in IH. cbn [length] in IH.
    replace (Z.of_nat (length pre) + 1)%Z with (Z.of_nat (length pre + 1))
      by lia.
    apply IH. now rewrite <- app_assoc.
Qed.

(** The redaction of [run] is the one-pass redaction. *)
Lemma redactedWalletArgs_redact_from args :
  Main.redactedWalletArgs args = Main.redact_from None args.
Proof. exact (map_indexed_redact args [] args eq_refl). Qed.

Lemma redact_from_app prev xs ys :
  Main.redact_from prev (xs ++ ys) =
  Main.redact_from prev xs ++ Main.redact_from (Main.last_or prev xs) ys.
Proof.
  revert prev. induction xs as [| x xs IH]; intros prev; [reflexivity |].
  cbn. now rewrite IH.
Qed.

(** What is printed for a command that ends with the secret does not
    depend on the secret. *)
Lemma redact_secret_flag pre secret :
  Main.redactedWalletArgs (pre ++ ["--secret"; secret]) =
  Main.redact_from None pre ++
  [if Main.is_string (Main.last_or None pre) "--secret"
   then "***" else "--secret"; "***"].
Proof.
  now rewrite redactedWalletArgs_redact_from, redact_from_app.
Qed.

End Redaction.

(** The logged object is the same whatever the two secrets are. *)
Lemma redactedInputs_with_secrets inputs key secret :
  Main.redactedInputs (Main.with_secrets inputs key secret)
  = Main.redactedInputs inputs.
Proof. unfold Main.redactedInputs, Main.properties. cbn. reflexivity. Qed.

(** C10, as amended.  In the object that is logged the Safe proposer key
    and the wallet secret are three stars.  In the logged wallet-import
    arguments, whatever the argument list, the argument after every
    --secret is three stars.  And of two runs that differ in the two
    secrets only, the logged inputs are the same string, and the logged
    wallet-import commands are the same string when the wallet secret is
    empty in both runs or in neither. *)
Theorem debug_output_hides_secrets (inputs : Main.Inputs) :
  (Main.get_property "safeProposerKey" (Main.redactedInputs inputs)
     = Some (Main.JString "***") /\
   Main.get_property "walletSecret" (Main.redactedInputs inputs)
     = Some (Main.JString "***")) /\
  (forall args i,
     nth_error args i = Some "--secret" ->
     i + 1 < length args ->
     nth_error (Main.redactedWalletArgs args) (i + 1) = Some "***") /\
  (forall key1 secret1 key2 secret2,
     Main.collected_inputs_debug (Main.with_secrets inputs key1 secret1) =
     Main.collected_inputs_debug (Main.with_secrets inputs key2 secret2)) /\
  (forall key1 secret1 key2 secret2,
     truthy secret1 = truthy secret2 ->
     Main.walletImportArgs_debug (Main.with_secrets inputs key1 secret1) =
     Main.walletImportArgs_debug (Main.with_secrets inputs key2 secret2)).
Proof.
  repeat apply conj.
  - reflexivity.
  - reflexivity.
  - intros args i Hflag Hlen.
    unfold Main.redactedWalletArgs. rewrite nth_error_map_indexed.
    destruct (nth_error args (i + 1)) as [arg |] eqn:Harg.
    2: { apply nth_error_None in Harg. lia. }
    cbn. unfold Main.at_index.
    destruct (Z.ltb_spec (Z.of_nat (i + 1) - 1) 0) as [H | _]; [lia |].
    replace (Z.to_nat (Z.of_nat (i + 1) - 1)) with i by lia.
    rewrite Hflag. reflexivity.
  - intros key1 secret1 key2 secret2.
    unfold Main.collected_inputs_debug.
    now rewrite !redactedInputs_with_secrets.
  - intros key1 secret1 key2 secret2 Htruthy.
    unfold Main.walletImportArgs_debug, Main.walletImportArgs.
    cbn [Main.with_secrets Main.walletAccount Main.walletAlgorithm
         Main.config Main.walletNumber Main.walletSecret].
    unfold Main.flag at 4 8. rewrite <- Htruthy.
    destruct (truthy secret1); [| reflexivity].
    rewrite !app_assoc.
    now rewrite !redact_secret_flag.
Qed.

(** C10 as stated fails for two runs that differ in the wallet secret
    only, one with an empty secret: the logged wallet-import commands
    differ by the --secret argument and its three stars. *)
Lemma empty_secret_shows :
  Main.walletImportArgs_debug
    (Main.with_secrets Scenario.action_inputs "0x1234567890abcdef" "")
  = "Built walletImportArgs: wallet import deployer --yes --algorithm secp256k1-raw" /\
  Main.walletImportArgs_debug
    (Main.with_secrets Scenario.action_inputs "0x1234567890abcdef" "5ec2e7")
  = "Built walletImportArgs: wallet import deployer --yes --algorithm secp256k1-raw --secret ***" /\
  Main.walletImportArgs_debug
    (Main.with_secrets Scenario.action_inputs "0x1234567890abcdef" "")
  <> Main.walletImportArgs_debug
       (Main.with_secrets Scenario.action_inputs "0x1234567890abcdef" "5ec2e7").
Proof.
  split; [reflexivity | split; [reflexivity |]].
  intros H. cbv in H. discriminate H.
Qed.

(* ------------------------------------------------------------------ *)
(** ** Further properties of the module *)

(** X1.  The update artifact is wrapped by the rofl wrapper's update call
    whatever method it declares, or none: with no deploy artifact the
    descriptor list is that one descriptor. *)
Theorem update_artifact_is_wrapped env files networkName path id c :
  ready env networkName path id ->
  holds_artifact env (updateFile files) c ->
  absent env (deployFile files) ->
  forall w,
    snd (generateTransactions env files networkName path w) =
      Ok [descriptor (rofl_callUpdate env id (body c))].
Proof.
  intros Hready Hu Hd w.
  rewrite (generateTransactions_ready _ _ _ _ _ Hready). unfold bind.
  destruct (update_block_present env id files [] c w Hu) as (ls & ->).
  now rewrite deploy_block_absent.
Qed.

(** A run of [update_artifact_is_wrapped]. *)
Lemma update_artifact_is_wrapped_witness :
  snd (generateTransactions
         (Scenario.env (Some Scenario.update_artifact) None
            (Scenario.answers 0) Scenario.accepts)
         Scenario.both_files "testnet" None init_world)
  = Ok [descriptor (Scenario.update_subcall Scenario.testnet_id
                      (Some [Byte.x01]))].
Proof.
  refine (update_artifact_is_wrapped
            (Scenario.env (Some Scenario.update_artifact) None
               (Scenario.answers 0) Scenario.accepts)
            Scenario.both_files "testnet" None Scenario.testnet_id
            {| method := Some "rofl.Update"; body := Some [Byte.x01] |}
            _ _ _ init_world).
  - exists (Own testnet). repeat split; repeat constructor.
  - exists Scenario.update_path, Scenario.update_artifact,
      {| call := Some {| method := Some "rofl.Update";
                         body := Some [Byte.x01] |} |}.
    repeat split.
  - reflexivity.
Defined.

(** X3.  A name that is neither a network of the table nor a property every
    object inherits is rejected by [proposeToSafe] with the
    unknown-network error before anything else happens; devnet and
    localnet are such names. *)
Theorem unknown_network_is_rejected env fuel inputs files networkName path w :
  mem networkName (["mainnet"; "testnet"] ++ Object_prototype) = false ->
  let r := proposeToSafe env fuel inputs files networkName path w in
  snd r = Throw (JsError ("Unknown network: " ++ networkName ++
                          ". Supported: mainnet, testnet")%string) /\
  effects (fst r) = effects w /\
  mem "devnet" (["mainnet"; "testnet"] ++ Object_prototype) = false /\
  mem "localnet" (["mainnet"; "testnet"] ++ Object_prototype) = false.
Proof.
  intros Hname.
  assert (Hget : NETWORKS_get networkName = None).
  { unfold NETWORKS_get, NETWORKS.
    change (mem networkName (["mainnet"; "testnet"] ++ Object_prototype))
      with (if "mainnet" =? networkName then true
            else if "testnet" =? networkName then true
            else mem networkName Object_prototype) in Hname.
    cbn [assoc].
    destruct ("mainnet" =? networkName); [discriminate Hname |].
    destruct ("testnet" =? networkName); [discriminate Hname |].
    now rewrite Hname. }
  unfold proposeToSafe, info. cbn. rewrite Hget. cbn. auto.
Qed.

(** A run of [unknown_network_is_rejected]. *)
Lemma unknown_network_is_rejected_witness :
  snd (proposeToSafe (Scenario.flaky 0 0) 3 (Scenario.inputs false)
         Scenario.both_files "devnet" None init_world)
  = Throw (JsError "Unknown network: devnet. Supported: mainnet, testnet").
Proof.
  refine (proj1
    (unknown_network_is_rejected (Scenario.flaky 0 0) 3
       (Scenario.inputs false) Scenario.both_files "devnet" None init_world
       _)).
  reflexivity.
Defined.

Lemma propose_loop_extends env apiKit protocolKit safeTransaction safeTxHash
  signature fuel w :
  3 <= fuel ->
  exists es,
    effects (fst (propose_loop env fuel apiKit protocolKit safeTransaction
                    safeTxHash signature 0 w)) = effects w ++ es.
Proof.
  intros Hfuel.
  destruct (proposeTransaction env (0 + propose_requests w) apiKit
              (proposal env protocolKit safeTransaction safeTxHash
                 signature)) as [e1 |] eqn:H0.
  2: { destruct (propose_loop_first env apiKit protocolKit safeTransaction
                   safeTxHash signature fuel w Hfuel H0)
         as (w' & -> & He & _). eexists. exact He. }
  destruct (proposeTransaction env (1 + propose_requests w) apiKit
              (proposal env protocolKit safeTransaction safeTxHash
                 signature)) as [e2 |] eqn:H1.
  2: { destruct (propose_loop_second env apiKit protocolKit safeTransaction
                   safeTxHash signature fuel w e1 Hfuel H0 H1)
         as (w' & -> & He & _). eexists. exact He. }
  destruct (proposeTransaction env (2 + propose_requests w) apiKit
              (proposal env protocolKit safeTransaction safeTxHash
                 signature)) as [e3 |] eqn:H2.
  2: { destruct (propose_loop_third env apiKit protocolKit safeTransaction
                   safeTxHash signature fuel w e1 e2 Hfuel H0 H1 H2)
         as (w' & -> & He & _). eexists. exact He. }
  destruct (propose_loop_exhausted env apiKit protocolKit safeTransaction
              safeTxHash signature fuel w e1 e2 e3 Hfuel H0 H1 H2)
    as (w' & -> & He & _). eexists. exact He.
Qed.

(** X5.  On a valid input set the two Safe kits are the first effects of the
    run, and they are created with the caller's RPC URL, service URL and
    chain id where these are non-empty, with the profile's otherwise. *)
Theorem overrides_take_precedence env fuel inputs files networkName path
  profile txs c nonce hash signature :
  3 <= fuel ->
  signs env inputs files networkName path profile txs c nonce hash signature ->
  (exists rest,
     effects (fst (proposeToSafe env fuel inputs files networkName path
                     init_world)) =
     NewSafeApiKit
       {| ak_chainId := Some c;
          ak_txServiceUrl :=
            Some (if truthy (safeServiceUrl inputs)
                  then safeServiceUrl inputs else safeApi profile) |}
     :: SafeInit
          {| pk_provider :=
               Some (if truthy (safeRpcUrl inputs)
                     then safeRpcUrl inputs else web3Api profile);
             pk_signer := safeProposerKey inputs;
             pk_safeAddress := safeAddress inputs |}
     :: rest) /\
  (truthy (safeChainId inputs) = true ->
   BigInt env (safeChainId inputs) = inr c) /\
  (truthy (safeChainId inputs) = false -> c = chainId profile).
Proof.
  intros Hfuel Hsigns.
  destruct (proposeToSafe_signed env fuel inputs files networkName path
              profile txs c nonce hash signature Hfuel Hsigns)
    as (w1 & asked & He & _ & _ & _ & Hdry & Hlive).
  repeat apply conj.
  - destruct (dryRun inputs).
    + destruct (Hdry eq_refl) as (ls & ->). cbn. rewrite He.
      eexists. reflexivity.
    + rewrite (Hlive eq_refl).
      destruct (propose_loop_extends env (the_apiKit inputs profile c)
                  (the_protocolKit inputs profile)
                  (the_transaction txs nonce) hash signature fuel w1 Hfuel)
        as (es & ->).
      rewrite He. eexists. reflexivity.
  - intros Ht. pose proof (signs_chainId _ _ _ _ _ _ _ _ _ _ _ Hsigns) as Hc.
    unfold effective_chainId in Hc. now rewrite Ht in Hc.
  - intros Ht. pose proof (signs_chainId _ _ _ _ _ _ _ _ _ _ _ Hsigns) as Hc.
    unfold effective_chainId in Hc. rewrite Ht in Hc. congruence.
Qed.

(** Runs of [overrides_take_precedence]: the caller's RPC URL, service
    URL and chain id; no override, the testnet's defaults; and no
    override, the mainnet's defaults. *)
Lemma overrides_take_precedence_witness :
  (exists rest,
     effects (fst (proposeToSafe (Scenario.flaky 0 0) 3
                     Scenario.overriding_inputs Scenario.both_files "testnet"
                     None init_world)) =
     NewSafeApiKit
       {| ak_chainId := Some 31337%Z;
          ak_txServiceUrl := Some "https://safe.example.org/api" |}
     :: SafeInit
          {| pk_provider := Some "https://rpc.example.org";
             pk_signer := "0x1234567890abcdef";
             pk_safeAddress := "0x2ECd2bc7344a15996698B6C2Ff62ba4332FEC83f" |}
     :: rest) /\
  (exists rest,
     effects (fst (proposeToSafe (Scenario.flaky 0 0) 3
                     (Scenario.inputs false) Scenario.both_files "testnet"
                     None init_world)) =
     NewSafeApiKit
       {| ak_chainId := Some 23295%Z;
          ak_txServiceUrl :=
            Some "https://transaction-testnet.safe.oasis.io/api" |}
     :: SafeInit
          {| pk_provider := Some "https://testnet.sapphire.oasis.io";
             pk_signer := "0x1234567890abcdef";
             pk_safeAddress := "0x2ECd2bc7344a15996698B6C2Ff62ba4332FEC83f" |}
     :: rest) /\
  (exists rest,
     effects (fst (proposeToSafe (Scenario.flaky 0 0) 3
                     (Scenario.inputs false) Scenario.both_files "mainnet"
                     None init_world)) =
     NewSafeApiKit
       {| ak_chainId := Some 23294%Z;
          ak_txServiceUrl := Some "https://transaction.safe.oasis.io/api" |}
     :: SafeInit
          {| pk_provider := Some "https://sapphire.oasis.io";
             pk_signer := "0x1234567890abcdef";
             pk_safeAddress := "0x2ECd2bc7344a15996698B6C2Ff62ba4332FEC83f" |}
     :: rest).
Proof.
  split; [| split].
  - refine (proj1
      (overrides_take_precedence (Scenario.flaky 0 0) 3
         Scenario.overriding_inputs Scenario.both_files "testnet" None testnet
         Scenario.two_descriptors 31337 7 "0x5afe" Scenario.the_signature
         _ _)).
    + lia.
    + constructor; try reflexivity.
      * repeat constructor.
      * discriminate.
      * exists 0. repeat split; [lia |]. intros j Hj. lia.
  - refine (proj1
      (overrides_take_precedence (Scenario.flaky 0 0) 3
         (Scenario.inputs false) Scenario.both_files "testnet" None testnet
         Scenario.two_descriptors 23295 7 "0x5afe" Scenario.the_signature
         _ _)).
    + lia.
    + apply flaky_signs. lia.
  - refine (proj1
      (overrides_take_precedence (Scenario.flaky 0 0) 3
         (Scenario.inputs false) Scenario.both_files "mainnet" None mainnet
         Scenario.two_descriptors 23294 7 "0x5afe" Scenario.the_signature
         _ _)).
    + lia.
    + constructor; try reflexivity.
      * repeat constructor.
      * discriminate.
      * exists 0. repeat split; [lia |]. intros j Hj. lia.
Defined.

(** X25.  For every deploy artifact that decodes with a non-empty method
    string [m], after an update artifact that is absent or decodes: when
    [m] is outside the two families, transaction generation throws the
    error that quotes [m] and names rofl.Update and roflmarket.*; when
    [m] is roflmarket.InstanceExecuteCmds, exactly one descriptor is
    added for the artifact, the one the roflmarket wrapper's
    instance-execute-commands call builds. *)
Theorem method_gating env files networkName path id us cd m :
  ready env networkName path id ->
  update_part env id files us ->
  holds_artifact env (deployFile files) cd ->
  method cd = Some m ->
  m <> "" ->
  forall w,
    (supported_family m = false ->
     let msg := ("Unsupported deploy CBOR method: " ++ m ++ ". " ++
                 "Supported methods: rofl.Update, roflmarket.*")%string in
     snd (generateTransactions env files networkName path w)
       = Throw (JsError msg) /\
     contains "rofl.Update" msg = true /\
     contains "roflmarket.*" msg = true)
    /\
    (m = "roflmarket.InstanceExecuteCmds" ->
     snd (generateTransactions env files networkName path w) =
       Ok (us ++ [descriptor
                    (roflmarket_callInstanceExecuteCmds env id (body cd))])).
Proof.
  intros Hready Hu Hd Hm Hne w.
  rewrite (generateTransactions_ready _ _ _ _ _ Hready). unfold bind.
  destruct (update_block_part env id files us [] w Hu) as (ls & ->).
  destruct (deploy_block_decoded env id files ([] ++ us) cd (add_logs w ls) Hd)
    as (l & ->).
  rewrite Hm. cbn [truthy_opt show]. rewrite (truthy_nonempty m Hne).
  split.
  - intros Hout. apply orb_false_elim in Hout as [_ ->]. cbv zeta.
    split; [reflexivity | apply unsupported_message_names_families].
  - intros ->. reflexivity.
Qed.

(** Runs of [method_gating]: an unknown method after an absent update
    artifact, and a method of the roflmarket family after an update
    artifact. *)
Lemma method_gating_witness :
  snd (generateTransactions
         (Scenario.env None (Some Scenario.unknown_method_artifact)
            (Scenario.answers 0) Scenario.accepts)
         Scenario.both_files "testnet" None init_world)
  = Throw (JsError "Unsupported deploy CBOR method: unknown.Foo. Supported methods: rofl.Update, roflmarket.*") /\
  snd (generateTransactions (Scenario.flaky 0 0) Scenario.both_files
         "testnet" None init_world)
  = Ok [{| tx_to := "0x0100000000000000000000000000000000000103";
           tx_data := "0x1a2b";
           tx_value := "0" |};
        {| tx_to := "0x0100000000000000000000000000000000000103";
           tx_data := "0x3c4d";
           tx_value := "0" |}].
Proof.
  split.
  - refine (proj1 (proj1
      (method_gating
         (Scenario.env None (Some Scenario.unknown_method_artifact)
            (Scenario.answers 0) Scenario.accepts)
         Scenario.both_files "testnet" None Scenario.testnet_id []
         {| method := Some "unknown.Foo"; body := Some [Byte.x05] |}
         "unknown.Foo" _ _ _ _ _ init_world) _)).
    + exists (Own testnet). repeat split; repeat constructor.
    + left. split; reflexivity.
    + exists Scenario.deploy_path, Scenario.unknown_method_artifact,
        {| call := Some {| method := Some "unknown.Foo";
                           body := Some [Byte.x05] |} |}.
      repeat split.
    + reflexivity.
    + discriminate.
    + reflexivity.
  - refine (proj2
      (method_gating (Scenario.flaky 0 0) Scenario.both_files "testnet" None
         Scenario.testnet_id
         [descriptor (Scenario.update_subcall Scenario.testnet_id
                        (Some [Byte.x01]))]
         {| method := Some "roflmarket.InstanceExecuteCmds";
            body := Some [Byte.x02] |}
         "roflmarket.InstanceExecuteCmds" _ _ _ _ _ init_world) _).
    + exists (Own testnet). repeat split; repeat constructor.
    + right.
      exists {| method := Some "rofl.Update"; body := Some [Byte.x01] |}.
      split; [| reflexivity].
      exists Scenario.update_path, Scenario.update_artifact,
        {| call := Some {| method := Some "rofl.Update";
                           body := Some [Byte.x01] |} |}.
      repeat split.
    + exists Scenario.deploy_path, Scenario.market_artifact,
        {| call := Some {| method := Some "roflmarket.InstanceExecuteCmds";
                           body := Some [Byte.x02] |} |}.
      repeat split.
    + reflexivity.
    + discriminate.
    + reflexivity.
Defined.

(** *** The batch of a proposal *)

(** The decimal form of a bigint is never the empty string. *)
Lemma Z_toString_truthy (z : Z) : truthy (Z_toString z) = true.
Proof.
  unfold Z_toString, NilZero.string_of_int.
  destruct (Z.to_int z) as [d | d]; [destruct d |]; reflexivity.
Qed.

(** So the value of a descriptor is never empty, and the default of
    [metaTransaction] never takes its place. *)
Lemma metaTransaction_descriptor (s : Subcall) :
  metaTransaction (descriptor s) =
  {| mt_to := sub_to s;
     mt_data := sub_data s;
     mt_value :=
       match sub_value s with
       | Some v => if (v =? 0)%Z then "0" else Z_toString v
       | None => "0"
       end;
     mt_operation := Call |}.
Proof.
  unfold metaTransaction, descriptor. cbn.
  destruct (sub_value s) as [v |]; [| reflexivity].
  destruct (v =? 0)%Z; [reflexivity |].
  now rewrite Z_toString_truthy.
Qed.

Lemma filter_none {A : Type} (f : A -> bool) (l : list A) :
  forallb (fun x => negb (f x)) l = true -> filter f l = [].
Proof.
  induction l as [| x l IH]; cbn; [reflexivity |].
  intros H. apply andb_prop in H as [Hx Hl].
  apply negb_true_iff in Hx. rewrite Hx. now apply IH.
Qed.

Lemma asked_creates_nothing (asked : list Effect) :
  forallb (fun e => negb (is_create e) && negb (is_propose e)) asked = true ->
  forallb (fun e => negb (is_create e)) asked = true.
Proof.
  intros H. apply forallb_forall. intros x Hx.
  apply (proj1 (forallb_forall _ _) H x) in Hx.
  now apply andb_prop in Hx.
Qed.

(** The submission loop creates no transaction, and what it puts on the
    wallet service's record is the proposal it was given. *)
Lemma propose_loop_record env apiKit protocolKit safeTransaction safeTxHash
  signature fuel w :
  3 <= fuel ->
  let r := propose_loop env fuel apiKit protocolKit safeTransaction
             safeTxHash signature 0 w in
  exists es accepted,
    effects (fst r) = effects w ++ es /\
    forallb (fun e => negb (is_create e)) es = true /\
    proposals (fst r) = proposals w ++ accepted /\
    Forall (fun p => p = proposal env protocolKit safeTransaction safeTxHash
                           signature) accepted.
Proof.
  intros Hfuel. cbv zeta.
  destruct (proposeTransaction env (0 + propose_requests w) apiKit
              (proposal env protocolKit safeTransaction safeTxHash
                 signature)) as [e1 |] eqn:H0.
  2: { destruct (propose_loop_first env apiKit protocolKit safeTransaction
                   safeTxHash signature fuel w Hfuel H0)
         as (w' & -> & He & _ & _ & Hq).
       eexists _, _. repeat split; [exact He | reflexivity | exact Hq |].
       now repeat constructor. }
  destruct (proposeTransaction env (1 + propose_requests w) apiKit
              (proposal env protocolKit safeTransaction safeTxHash
                 signature)) as [e2 |] eqn:H1.
  2: { destruct (propose_loop_second env apiKit protocolKit safeTransaction
                   safeTxHash signature fuel w e1 Hfuel H0 H1)
         as (w' & -> & He & _ & _ & Hq).
       eexists _, _. repeat split; [exact He | reflexivity | exact Hq |].
       now repeat constructor. }
  destruct (proposeTransaction env (2 + propose_requests w) apiKit
              (proposal env protocolKit safeTransaction safeTxHash
                 signature)) as [e3 |] eqn:H2.
  2: { destruct (propose_loop_third env apiKit protocolKit safeTransaction
                   safeTxHash signature fuel w e1 e2 Hfuel H0 H1 H2)
         as (w' & -> & He & _ & _ & Hq).
       eexists _, _. repeat split; [exact He | reflexivity | exact Hq |].
       now repeat constructor. }
  destruct (propose_loop_exhausted env apiKit protocolKit safeTransaction
              safeTxHash signature fuel w e1 e2 e3 Hfuel H0 H1 H2)
    as (w' & -> & He & _ & _ & Hq).
  eexists _, _. repeat split; [exact He | reflexivity | exact Hq |].
  constructor.
Qed.

(** X26.  The update artifact and the deploy artifact are both present
    and decode, and the deploy artifact declares a method of the
    roflmarket family.  Transaction generation returns two descriptors,
    the update call that the rofl wrapper built, then the deploy call
    that the roflmarket wrapper built, each with the wrapper's target and
    data and with its value in decimal, or 0 for no value; every file
    system that holds the same two files gives the same list.  And a run
    on a valid input set creates one Safe transaction, whose operations
    are these two calls in this order, and whatever reaches the wallet
    service's record is that transaction. *)
Theorem batch_order env fuel inputs files networkName path id cu cd profile c
  nonce hash signature :
  3 <= fuel ->
  ready env networkName path id ->
  holds_artifact env (updateFile files) cu ->
  holds_artifact env (deployFile files) cd ->
  roflmarket_method cd = true ->
  let value := fun s : Subcall =>
    match sub_value s with
    | Some v => if (v =? 0)%Z then "0" else Z_toString v
    | None => "0"
    end in
  let update := rofl_callUpdate env id (body cu) in
  let deploy := roflmarket_callInstanceExecuteCmds env id (body cd) in
  let batch :=
    [{| tx_to := sub_to update;
        tx_data := sub_data update;
        tx_value := value update |};
     {| tx_to := sub_to deploy;
        tx_data := sub_data deploy;
        tx_value := value deploy |}] in
  let transaction :=
    {| st_transactions :=
         [{| mt_to := sub_to update;
             mt_data := sub_data update;
             mt_value := value update;
             mt_operation := Call |};
          {| mt_to := sub_to deploy;
             mt_data := sub_data deploy;
             mt_value := value deploy;
             mt_operation := Call |}];
       st_nonce := nonce |} in
  (forall w,
     snd (generateTransactions env files networkName path w) = Ok batch) /\
  (forall exists_ read w,
     same_artifacts env exists_ read files ->
     snd (generateTransactions (with_files env exists_ read) files
            networkName path w) = Ok batch) /\
  (signs env inputs files networkName path profile batch c nonce hash
     signature ->
   let r := proposeToSafe env fuel inputs files networkName path init_world in
   filter is_create (effects (fst r)) = [CreateTransaction transaction] /\
   Forall (fun p => pt_safeTransactionData p = transaction)
     (proposals (fst r))).
Proof.
  intros Hfuel Hready Hu Hd Hm value update deploy batch transaction.
  assert (Hrun : forall w,
    snd (generateTransactions env files networkName path w) = Ok batch).
  { intros w0. rewrite (generateTransactions_ready _ _ _ _ _ Hready).
    unfold bind.
    destruct (update_block_present env id files [] cu w0 Hu) as (ls & ->).
    destruct (deploy_block_decoded env id files
                ([] ++ [descriptor (rofl_callUpdate env id (body cu))]) cd
                (add_logs w0 ls) Hd) as (l & ->).
    unfold roflmarket_method in Hm. apply andb_prop in Hm as [-> ->].
    reflexivity. }
  split; [exact Hrun |]. split.
  { intros exists_ read w Hsame.
    now rewrite generateTransactions_same_artifacts, Hrun. }
  intros Hsigns r.
  assert (Ht : the_transaction batch nonce = transaction).
  { unfold the_transaction, transaction, batch. cbn [map].
    change {| tx_to := sub_to update; tx_data := sub_data update;
              tx_value := value update |} with (descriptor update).
    change {| tx_to := sub_to deploy; tx_data := sub_data deploy;
              tx_value := value deploy |} with (descriptor deploy).
    now rewrite !metaTransaction_descriptor. }
  destruct (proposeToSafe_built env fuel inputs files networkName path
              profile batch c nonce hash signature Hfuel Hsigns)
    as (w1 & asked & He & Hasked & _ & Hq & Hdry & Hlive).
  apply asked_creates_nothing in Hasked.
  assert (Hcreated :
    filter is_create (effects w1) = [CreateTransaction transaction]).
  { rewrite He, Ht. cbn [app filter is_create].
    rewrite filter_app, (filter_none _ _ Hasked). reflexivity. }
  subst r. destruct (dryRun inputs).
  - destruct (Hdry eq_refl) as (ls & ->). cbn.
    rewrite Hq. split; [exact Hcreated | constructor].
  - rewrite (Hlive eq_refl).
    destruct (propose_loop_record env (the_apiKit inputs profile c)
                (the_protocolKit inputs profile) (the_transaction batch nonce)
                hash signature fuel w1 Hfuel)
      as (es & accepted & -> & Hes & -> & Hacc).
    rewrite filter_app, Hcreated, (filter_none _ _ Hes), Hq. cbn [app].
    split; [reflexivity |].
    eapply Forall_impl; [| exact Hacc].
    intros p ->. cbn. exact Ht.
Qed.

(** A run of [batch_order]: the two descriptors, and the transaction of
    a live run. *)
Lemma batch_order_witness :
  snd (generateTransactions (Scenario.flaky 0 0) Scenario.both_files
         "testnet" None init_world)
  = Ok [{| tx_to := "0x0100000000000000000000000000000000000103";
           tx_data := "0x1a2b";
           tx_value := "0" |};
        {| tx_to := "0x0100000000000000000000000000000000000103";
           tx_data := "0x3c4d";
           tx_value := "0" |}] /\
  filter is_create
    (effects
       (fst (proposeToSafe (Scenario.flaky 0 0) 3 (Scenario.inputs false)
               Scenario.both_files "testnet" None init_world)))
  = [CreateTransaction
       {| st_transactions :=
            [{| mt_to := "0x0100000000000000000000000000000000000103";
                mt_data := "0x1a2b";
                mt_value := "0";
                mt_operation := Call |};
             {| mt_to := "0x0100000000000000000000000000000000000103";
                mt_data := "0x3c4d";
                mt_value := "0";
                mt_operation := Call |}];
          st_nonce := 7 |}].
Proof.
  pose proof
    (batch_order (Scenario.flaky 0 0) 3 (Scenario.inputs false)
       Scenario.both_files "testnet" None Scenario.testnet_id
       {| method := Some "rofl.Update"; body := Some [Byte.x01] |}
       {| method := Some "roflmarket.InstanceExecuteCmds";
          body := Some [Byte.x02] |}
       testnet 23295 7 "0x5afe" Scenario.the_signature) as H.
  cbv zeta in H.
  destruct H as (Hgen & _ & Hrun).
  - lia.
  - exists (Own testnet). repeat split; repeat constructor.
  - exists Scenario.update_path, Scenario.update_artifact,
      {| call := Some {| method := Some "rofl.Update";
                         body := Some [Byte.x01] |} |}.
    repeat split.
  - exists Scenario.deploy_path, Scenario.market_artifact,
      {| call := Some {| method := Some "roflmarket.InstanceExecuteCmds";
                         body := Some [Byte.x02] |} |}.
    repeat split.
  - reflexivity.
  - split; [exact (Hgen init_world) |].
    refine (proj1 (Hrun _)).
    exact (flaky_signs false 0 0 (Nat.lt_0_succ 2)).
Defined.

(** *** What holds of every run *)

Lemma quiet_refl w : quiet w w.
Proof.
  repeat split. exists []. now rewrite app_nil_r.
Qed.

Lemma quiet_trans w1 w2 w3 : quiet w1 w2 -> quiet w2 w3 -> quiet w1 w3.
Proof.
  intros (Hp & Hr & es & He & Hes) (Hp' & Hr' & es' & He' & Hes').
  repeat split; [congruence | congruence |].
  exists (es ++ es'). split.
  - now rewrite He', He, app_assoc.
  - now rewrite forallb_app, Hes, Hes'.
Qed.

Lemma stays_quiet_only_logs {A : Type} (m : M A) :
  only_logs m -> stays_quiet m.
Proof.
  intros (r & ls & _ & Hm) w. rewrite Hm. cbn.
  repeat split. exists []. now rewrite app_nil_r.
Qed.

Lemma stays_quiet_bind {A B : Type} (m : M A) (k : A -> M B) :
  stays_quiet m -> (forall a, stays_quiet (k a)) -> stays_quiet (bind m k).
Proof.
  intros Hm Hk w. unfold bind. specialize (Hm w).
  destruct (m w) as [w' [a | e |]]; cbn in *; auto.
  eapply quiet_trans; [exact Hm | apply Hk].
Qed.

Lemma stays_quiet_try {A : Type} (m : M A) :
  stays_quiet m -> stays_quiet (try_ m).
Proof.
  intros Hm w. unfold try_. specialize (Hm w).
  now destruct (m w) as [w' [a | e |]].
Qed.

Lemma stays_quiet_effect (e : Effect) :
  is_propose e = false -> stays_quiet (effect e).
Proof.
  intros He w. repeat split. exists [e]. split; [reflexivity |].
  cbn. now rewrite He.
Qed.

Lemma stays_quiet_getNextNonce env kit address :
  stays_quiet (apiKit_getNextNonce env kit address).
Proof.
  intros w. unfold apiKit_getNextNonce.
  destruct (getNextNonce env (nonce_requests w) kit address);
    repeat split; exists [GetNextNonce address]; now split.
Qed.

Create HintDb quiet.

#[local] Hint Resolve only_logs_ret only_logs_throw only_logs_log
  only_logs_lift only_logs_lift_unit only_logs_loadModule
  only_logs_generateTransactions : quiet.
#[local] Hint Resolve stays_quiet_only_logs stays_quiet_getNextNonce : quiet.
#[local] Hint Extern 1 (stays_quiet (effect _)) =>
  apply stays_quiet_effect; reflexivity : quiet.
#[local] Hint Extern 1 (stays_quiet (log_operations _ _)) =>
  apply stays_quiet_only_logs;
  let i := fresh in let txs := fresh in
  match goal with
  | |- only_logs (log_operations ?i ?txs) =>
      destruct (log_operations_run i txs) as (ls & Hls);
      exists (Ok tt), ls; split; [discriminate | exact Hls]
  end : quiet.

(** Takes a computation apart along its binds and case distinctions. *)
Ltac quiet_tac :=
  repeat first
    [ progress intros
    | progress cbv zeta
    | solve [auto with quiet]
    | apply stays_quiet_bind
    | apply stays_quiet_try
    | match goal with
      | |- stays_quiet (match ?x with _ => _ end) => destruct x
      | |- stays_quiet (if ?b then _ else _) => destruct b
      end ].

Lemma stays_quiet_nonce_loop env fuel apiKit inputs attempt nonce :
  stays_quiet (nonce_loop env fuel apiKit inputs attempt nonce).
Proof.
  revert attempt nonce.
  induction fuel as [| fuel IH]; intros attempt nonce.
  - intros w. apply quiet_refl.
  - unfold nonce_loop. fold nonce_loop. unfold info, warning, sleep.
    quiet_tac.
Qed.

#[local] Hint Resolve stays_quiet_nonce_loop : quiet.

(** X7.  With the dry run switched on, no run of [proposeToSafe] proposes
    anything, whether it returns or throws, from any world: no propose
    request is among its effects or was counted, and the wallet
    service's record is as it was. *)
Theorem dry_run_never_proposes env fuel inputs files networkName path w :
  dryRun inputs = true ->
  quiet w (fst (proposeToSafe env fuel inputs files networkName path w)).
Proof.
  intros Hdry. revert w.
  change (stays_quiet
            (proposeToSafe env fuel inputs files networkName path)).
  unfold proposeToSafe, protocolKit_init, protocolKit_createTransaction,
    protocolKit_getTransactionHash, protocolKit_signHash, info.
  rewrite Hdry. quiet_tac.
Qed.

(** A run of [dry_run_never_proposes]: the dry run of two descriptors. *)
Lemma dry_run_never_proposes_witness :
  quiet init_world
    (fst (proposeToSafe (Scenario.flaky 2 0) 3 (Scenario.inputs true)
            Scenario.both_files "testnet" None init_world)).
Proof.
  apply (dry_run_never_proposes (Scenario.flaky 2 0) 3 (Scenario.inputs true)
           Scenario.both_files "testnet" None init_world).
  reflexivity.
Defined.

Lemma finishes_only_logs {A : Type} (m : M A) : only_logs m -> finishes m.
Proof. intros (r & ls & Hr & Hm) w. now rewrite Hm. Qed.

Lemma finishes_bind {A B : Type} (m : M A) (k : A -> M B) :
  finishes m -> (forall a, finishes (k a)) -> finishes (bind m k).
Proof.
  intros Hm Hk w. unfold bind. specialize (Hm w).
  destruct (m w) as [w' [a | e |]]; cbn in *;
    [apply Hk | discriminate | contradiction].
Qed.

Lemma finishes_effect (e : Effect) : finishes (effect e).
Proof. intros w. discriminate. Qed.

Lemma finishes_nonce_loop env fuel apiKit inputs nonce :
  3 <= fuel -> finishes (nonce_loop env fuel apiKit inputs 1 nonce).
Proof.
  intros Hfuel w.
  destruct (getNextNonce env (0 + nonce_requests w) apiKit
              (safeAddress inputs)) as [e1 | n] eqn:H0.
  2: { destruct (nonce_loop_first env apiKit inputs fuel nonce w n
                   Hfuel H0) as (w' & -> & _). discriminate. }
  destruct (getNextNonce env (1 + nonce_requests w) apiKit
              (safeAddress inputs)) as [e2 | n] eqn:H1.
  2: { destruct (nonce_loop_second env apiKit inputs fuel nonce w e1 n
                   Hfuel H0 H1) as (w' & -> & _). discriminate. }
  destruct (getNextNonce env (2 + nonce_requests w) apiKit
              (safeAddress inputs)) as [e3 | n] eqn:H2.
  2: { destruct (nonce_loop_third env apiKit inputs fuel nonce w e1 e2 n
                   Hfuel H0 H1 H2) as (w' & -> & _). discriminate. }
  destruct (nonce_loop_exhausted env apiKit inputs fuel nonce w e1 e2 e3
              Hfuel H0 H1 H2) as (w' & -> & _). discriminate.
Qed.

Lemma finishes_propose_loop env fuel apiKit protocolKit safeTransaction
  safeTxHash signature :
  3 <= fuel ->
  finishes (propose_loop env fuel apiKit protocolKit safeTransaction
              safeTxHash signature 0).
Proof.
  intros Hfuel w.
  destruct (proposeTransaction env (0 + propose_requests w) apiKit
              (proposal env protocolKit safeTransaction safeTxHash
                 signature)) as [e1 |] eqn:H0.
  2: { destruct (propose_loop_first env apiKit protocolKit safeTransaction
                   safeTxHash signature fuel w Hfuel H0)
         as (w' & -> & _). discriminate. }
  destruct (proposeTransaction env (1 + propose_requests w) apiKit
              (proposal env protocolKit safeTransaction safeTxHash
                 signature)) as [e2 |] eqn:H1.
  2: { destruct (propose_loop_second env apiKit protocolKit safeTransaction
                   safeTxHash signature fuel w e1 Hfuel H0 H1)
         as (w' & -> & _). discriminate. }
  destruct (proposeTransaction env (2 + propose_requests w) apiKit
              (proposal env protocolKit safeTransaction safeTxHash
                 signature)) as [e3 |] eqn:H2.
  2: { destruct (propose_loop_third env apiKit protocolKit safeTransaction
                   safeTxHash signature fuel w e1 e2 Hfuel H0 H1 H2)
         as (w' & -> & _). discriminate. }
  destruct (propose_loop_exhausted env apiKit protocolKit safeTransaction
              safeTxHash signature fuel w e1 e2 e3 Hfuel H0 H1 H2)
    as (w' & -> & _). discriminate.
Qed.

Create HintDb fuel.

#[local] Hint Resolve only_logs_ret only_logs_throw only_logs_log
  only_logs_lift only_logs_lift_unit only_logs_loadModule
  only_logs_generateTransactions : fuel.
#[local] Hint Resolve finishes_only_logs finishes_effect finishes_nonce_loop
  finishes_propose_loop : fuel.
#[local] Hint Extern 1 (finishes (log_operations _ _)) =>
  apply finishes_only_logs;
  match goal with
  | |- only_logs (log_operations ?i ?txs) =>
      destruct (log_operations_run i txs) as (ls & Hls);
      exists (Ok tt), ls; split; [discriminate | exact Hls]
  end : fuel.

Ltac fuel_tac :=
  repeat first
    [ progress intros
    | progress cbv zeta
    | solve [auto with fuel]
    | apply finishes_bind
    | match goal with
      | |- finishes (match ?x with _ => _ end) => destruct x
      | |- finishes (if ?b then _ else _) => destruct b
      end ].

(** X8.  Fuel for three rounds is enough: with it no run of [proposeToSafe]
    runs out of fuel, so every run returns a hash or throws. *)
Theorem proposeToSafe_finishes env fuel inputs files networkName path w :
  3 <= fuel ->
  (exists hash,
     snd (proposeToSafe env fuel inputs files networkName path w) = Ok hash) \/
  (exists e,
     snd (proposeToSafe env fuel inputs files networkName path w) = Throw e).
Proof.
  intros Hfuel.
  assert (H : finishes (proposeToSafe env fuel inputs files networkName path)).
  { unfold proposeToSafe, protocolKit_init, protocolKit_createTransaction,
      protocolKit_getTransactionHash, protocolKit_signHash, info.
    fuel_tac. }
  specialize (H w).
  destruct (snd (proposeToSafe env fuel inputs files networkName path w))
    as [hash | e |]; [left; now exists hash | right; now exists e |
                      contradiction].
Qed.

(** A run of [proposeToSafe_finishes]: the wallet service rejects every
    proposal. *)
Lemma proposeToSafe_finishes_witness :
  (exists hash,
     snd (proposeToSafe (Scenario.flaky 1 3) 3 (Scenario.inputs false)
            Scenario.both_files "testnet" None init_world) = Ok hash) \/
  (exists e,
     snd (proposeToSafe (Scenario.flaky 1 3) 3 (Scenario.inputs false)
            Scenario.both_files "testnet" None init_world) = Throw e).
Proof.
  apply (proposeToSafe_finishes (Scenario.flaky 1 3) 3 (Scenario.inputs false)
           Scenario.both_files "testnet" None init_world).
  lia.
Defined.

(* ------------------------------------------------------------------ *)
(** ** Properties of [run] *)

(** *** The Safe proposal as [run] calls it *)

(** With the dry run switched on, [runSafeProposal] proposes nothing. *)
Lemma stays_quiet_runSafeProposal env fuel inputs files networkName path :
  dryRun inputs = true ->
  stays_quiet (runSafeProposal env fuel inputs files networkName path).
Proof.
  intros Hdry.
  unfold runSafeProposal, proposeToSafe, protocolKit_init,
    protocolKit_createTransaction, protocolKit_getTransactionHash,
    protocolKit_signHash, info.
  rewrite Hdry. quiet_tac.
Qed.

(** With fuel for three rounds, [runSafeProposal] does not run out of
    fuel. *)
Lemma finishes_runSafeProposal env fuel inputs files networkName path :
  3 <= fuel ->
  finishes (runSafeProposal env fuel inputs files networkName path).
Proof.
  intros Hfuel.
  unfold runSafeProposal, proposeToSafe, protocolKit_init,
    protocolKit_createTransaction, protocolKit_getTransactionHash,
    protocolKit_signHash, info.
  fuel_tac.
Qed.

Import Main Run Flow.

(** *** The rules of [triple] *)

Section Structure.

Context {A : Type}.
Variables (P : World -> Prop) (Q : A -> World -> Prop)
  (S : Exit -> World -> Prop).

Lemma triple_ret (a : A) :
  (forall w, P w -> Q a w) -> triple P (ret a) Q S.
Proof. intros H w Hw. now apply H. Qed.

Lemma triple_throw (e : Exn) :
  (forall w, P w -> S (Throws e) w) -> triple P (@throw A e) Q S.
Proof. intros H w Hw. now apply H. Qed.

Lemma triple_leave :
  (forall w, P w -> S Returns w) -> triple P (@leave A) Q S.
Proof. intros H w Hw. now apply H. Qed.

Lemma triple_bind {B : Type} (Q1 : B -> World -> Prop) (m : R B)
  (k : B -> R A) :
  triple P m Q1 S -> (forall b, triple (Q1 b) (k b) Q S) ->
  triple P (bind m k) Q S.
Proof.
  intros Hm Hk w Hw. specialize (Hm w Hw). unfold bind.
  destruct (m w) as [w' [b | e | |]]; cbn in *; try assumption.
  now apply Hk.
Qed.

Lemma triple_catch (S1 : Exit -> World -> Prop) (m : R A)
  (handler : Exn -> R A) :
  triple P m Q S1 ->
  (forall e, triple (S1 (Throws e)) (handler e) Q S) ->
  (forall w, S1 Returns w -> S Returns w) ->
  (forall w, S1 Exhausts w -> S Exhausts w) ->
  triple P (catch m handler) Q S.
Proof.
  intros Hm Hh Hr Hx w Hw. specialize (Hm w Hw). unfold catch.
  destruct (m w) as [w' [b | e | |]]; cbn in *; auto.
  now apply Hh.
Qed.

Lemma triple_pure (fact : Prop) (m : R A) :
  (fact -> triple P m Q S) -> triple (fun w => P w /\ fact) m Q S.
Proof. intros H w [Hw Hf]. now apply H. Qed.

Lemma triple_false (m : R A) : triple (fun _ => False) m Q S.
Proof. intros w []. Qed.

End Structure.

Lemma triple_weaken {A : Type} (P P' : World -> Prop) (m : R A)
  (Q Q' : A -> World -> Prop) (S S' : Exit -> World -> Prop) :
  triple P' m Q' S' ->
  (forall w, P w -> P' w) ->
  (forall a w, Q' a w -> Q a w) ->
  (forall x w, S' x w -> S x w) ->
  triple P m Q S.
Proof.
  intros Hm HP HQ HS w Hw. specialize (Hm w (HP w Hw)).
  destruct (m w) as [w' [b | e | |]]; cbn in *; auto.
Qed.

Lemma triple_finish (P : World -> Prop) (m : R unit)
  (Q : unit -> World -> Prop) (S S1 : Exit -> World -> Prop) :
  triple P m Q S1 ->
  (forall w, S1 Returns w -> Q tt w) ->
  (forall e w, S1 (Throws e) w -> S (Throws e) w) ->
  (forall w, S1 Exhausts w -> S Exhausts w) ->
  triple P (finish m) Q S.
Proof.
  intros Hm Hr Ht Hx w Hw. specialize (Hm w Hw). unfold finish.
  destruct (m w) as [w' [b | e | |]]; cbn in *; auto.
Qed.

Section Primitives.

Variable host : Host.
Variables (P : World -> Prop) (S : Exit -> World -> Prop).

Lemma triple_log (Q : unit -> World -> Prop) level msg :
  (forall w, P w -> Q tt (add_message w level msg)) ->
  triple P (log level msg) Q S.
Proof. intros H w Hw. now apply H. Qed.

Lemma triple_setOutput (Q : unit -> World -> Prop) name value :
  (forall w, P w -> Q tt (add_output w name value)) ->
  triple P (setOutput name value) Q S.
Proof. intros H w Hw. now apply H. Qed.

Lemma triple_setFailed (Q : unit -> World -> Prop) message :
  (forall w, P w -> Q tt (add_failure w message)) ->
  triple P (setFailed message) Q S.
Proof. intros H w Hw. now apply H. Qed.

Lemma triple_process_cwd (Q : string -> World -> Prop) :
  (forall w, P w -> Q (cwd host (steps w)) w) ->
  triple P (process_cwd host) Q S.
Proof. intros H w Hw. now apply H. Qed.

Lemma triple_existsSync (Q : bool -> World -> Prop) path :
  (forall w, P w -> Q (Safe.existsSync (sdk host (steps w)) path) w) ->
  triple P (existsSync host path) Q S.
Proof. intros H w Hw. now apply H. Qed.

Lemma triple_process_chdir (Q : unit -> World -> Prop) dir :
  (forall w, P w -> chdir host (steps w) dir = None ->
             Q tt (add_step w (Chdir dir))) ->
  (forall w e, P w -> chdir host (steps w) dir = Some e ->
               S (Throws e) (add_step w (Chdir dir))) ->
  triple P (process_chdir host dir) Q S.
Proof.
  intros H1 H2 w Hw. unfold process_chdir.
  destruct (chdir host (steps w) dir) eqn:E; cbn; auto.
Qed.

Lemma triple_install (Q : unit -> World -> Prop) version :
  (forall w, P w -> installOasisCLI host (steps w) version = None ->
             Q tt (add_step w (Install version))) ->
  (forall w e, P w -> installOasisCLI host (steps w) version = Some e ->
               S (Throws e) (add_step w (Install version))) ->
  triple P (install host version) Q S.
Proof.
  intros H1 H2 w Hw. unfold install.
  destruct (installOasisCLI host (steps w) version) eqn:E; cbn; auto.
Qed.

Lemma triple_exec_with (Q : ExecResult -> World -> Prop) ignore command
  arguments :
  let c := {| cmd := command; args := arguments;
              ignoreReturnCode := ignore |} in
  (forall w r, P w -> exec host (steps w) c = inr r ->
               Q r (add_step w (Exec c))) ->
  (forall w e, P w -> exec host (steps w) c = inl e ->
               S (Throws e) (add_step w (Exec c))) ->
  triple P (exec_with host ignore command arguments) Q S.
Proof.
  intros c H1 H2 w Hw. unfold exec_with. fold c.
  destruct (exec host (steps w) c) eqn:E; cbn; auto.
Qed.

Lemma triple_exec_ (Q : unit -> World -> Prop) command arguments :
  let c := {| cmd := command; args := arguments;
              ignoreReturnCode := false |} in
  (forall w r, P w -> exec host (steps w) c = inr r ->
               Q tt (add_step w (Exec c))) ->
  (forall w e, P w -> exec host (steps w) c = inl e ->
               S (Throws e) (add_step w (Exec c))) ->
  triple P (exec_ host command arguments) Q S.
Proof.
  intros c H1 H2. unfold exec_.
  apply (triple_bind _ _ _ (fun _ w => Q tt w)).
  - apply triple_exec_with; assumption.
  - intros _. apply triple_ret. auto.
Qed.

Lemma triple_runSafeProposal (Q : option string -> World -> Prop) fuel inputs
  files networkName workspaceDir :
  (forall w,
     P w ->
     let r := Safe.runSafeProposal (sdk host (steps w)) fuel inputs files
                networkName (Some workspaceDir) (safe w) in
     match snd r with
     | Safe.Ok hash => Q hash (set_safe w (fst r))
     | Safe.Throw e => S (Throws e) (set_safe w (fst r))
     | Safe.OutOfFuel => S Exhausts (set_safe w (fst r))
     end) ->
  triple P (runSafeProposal host fuel inputs files networkName workspaceDir)
    Q S.
Proof.
  intros H w Hw. specialize (H w Hw). unfold runSafeProposal.
  destruct (Safe.runSafeProposal _ _ _ _ _ _ _) as [s [hash | e |]];
    cbn in *; assumption.
Qed.

End Primitives.

Lemma triple_catch_keeps {A : Type} (J P : World -> Prop) (m : R A)
  (handler : Exn -> R A) (Q : A -> World -> Prop)
  (S : Exit -> World -> Prop) :
  triple P m Q (caught J S) ->
  (forall e, triple J (handler e) Q S) ->
  triple P (catch m handler) Q S.
Proof.
  intros Hm Hh. apply (triple_catch _ _ _ (caught J S)); auto.
Qed.

Lemma triple_fail_leave {A : Type} (P : World -> Prop) message
  (Q : A -> World -> Prop) (S : Exit -> World -> Prop) :
  (forall w, P w -> S Returns (add_failure w message)) ->
  triple P (bind (setFailed message) (fun _ => leave)) Q S.
Proof.
  intros H.
  apply (triple_bind _ _ _ (fun _ w => S Returns w)).
  - apply triple_setFailed. exact H.
  - intros _. apply triple_leave. auto.
Qed.

(** *** The configuration of the Safe mode *)

Lemma set_unsigned_same inputs :
  set_unsigned inputs (unsigned inputs) = inputs.
Proof. now destruct inputs. Qed.

Lemma set_format_same inputs :
  set_format inputs (format inputs) = inputs.
Proof. now destruct inputs. Qed.

Lemma negb_truthy_or a b :
  negb (truthy a) && negb (truthy b) = false ->
  truthy (or_string a b) = true.
Proof.
  unfold or_string. destruct (truthy a) eqn:Ha; cbn.
  - intros _. exact Ha.
  - destruct (truthy b); [reflexivity | discriminate].
Qed.

(** What [configure_safe_mode] asks of an invariant: the two lines it
    may log keep it, and it may throw. *)
Lemma triple_configure_safe_mode (J : World -> Prop)
  (S : Exit -> World -> Prop) inputs :
  (forall w,
     J w ->
     J (add_message w AtInfo
          "Safe mode: automatically enabling unsigned transaction generation")) ->
  (forall w,
     J w ->
     J (add_message w AtInfo
          "Safe mode: automatically setting format to cbor")) ->
  (forall w e, J w -> S (Throws e) w) ->
  triple J (configure_safe_mode inputs)
    (fun a w => J w /\ (a = configured inputs /\ validated a)) S.
Proof.
  intros Hlog1 Hlog2 Hthrow.
  unfold configure_safe_mode, configured, validated.
  destruct (truthy (safeAddress inputs)) eqn:Hsafe.
  2:{ apply triple_ret. intros w Hw. repeat split; try assumption;
      rewrite Hsafe in *; discriminate. }
  assert (H1 : triple J
            (if negb (unsigned inputs)
             then bind
                    (info "Safe mode: automatically enabling unsigned transaction generation")
                    (fun _ => ret (set_unsigned inputs true))
             else ret inputs)
            (fun a w => J w /\ a = set_unsigned inputs true) S).
  { destruct (unsigned inputs) eqn:Hu; cbn [negb].
    - apply triple_ret. intros w Hw. split; [assumption |].
      now rewrite <- Hu, set_unsigned_same.
    - apply (triple_bind _ _ _ (fun _ => J)).
      + apply triple_log. exact Hlog1.
      + intros _. apply triple_ret. auto. }
  eapply triple_bind; [exact H1 |]. clear H1.
  intros a. apply triple_pure. intros ->.
  set (i1 := set_unsigned inputs true).
  assert (H2 : triple J
            (if negb (format i1 =? "cbor")
             then bind
                    (info "Safe mode: automatically setting format to cbor")
                    (fun _ => ret (set_format i1 "cbor"))
             else ret i1)
            (fun a w => J w /\ a = set_format i1 "cbor") S).
  { destruct (format i1 =? "cbor") eqn:Hf; cbn [negb].
    - apply triple_ret. intros w Hw. split; [assumption |].
      apply String.eqb_eq in Hf. now rewrite <- Hf, set_format_same.
    - apply (triple_bind _ _ _ (fun _ => J)).
      + apply triple_log. exact Hlog2.
      + intros _. apply triple_ret. auto. }
  eapply triple_bind; [exact H2 |]. clear H2.
  intros a. apply triple_pure. intros ->.
  set (i2 := set_format i1 "cbor").
  apply (triple_bind _ _ _
           (fun _ w => J w /\ (skipUpdate i2 = false ->
                               truthy (updateOutputFile' i2) = true))).
  { unfold when.
    destruct (negb (skipUpdate i2) && negb (truthy (updateOutputFile i2))
              && negb (truthy (outputFile i2))) eqn:E.
    - apply triple_throw. auto.
    - apply triple_ret. intros w Hw. split; [assumption |]. intros Hs.
      rewrite Hs in E. cbn [negb andb] in E.
      now apply negb_truthy_or. }
  intros _. apply triple_pure. intros Hu.
  apply (triple_bind _ _ _
           (fun _ w => J w /\ (skipDeploy i2 = false ->
                               truthy (deployOutputFile' i2) = true))).
  { unfold when.
    destruct (negb (skipDeploy i2) && negb (truthy (deployOutputFile i2))
              && negb (truthy (outputFile i2))) eqn:E.
    - apply triple_throw. auto.
    - apply triple_ret. intros w Hw. split; [assumption |]. intros Hs.
      rewrite Hs in E. cbn [negb andb] in E.
      now apply negb_truthy_or. }
  intros _. apply triple_pure. intros Hd.
  apply triple_ret. intros w Hw. repeat split; assumption.
Qed.

Lemma configured_shape inputs :
  exists u f,
    configured inputs = set_format (set_unsigned inputs u) f /\
    (truthy (safeAddress inputs) = true -> u = true /\ f = "cbor").
Proof.
  unfold configured. destruct (truthy (safeAddress inputs)).
  - exists true, "cbor". auto.
  - exists (unsigned inputs), (format inputs). split; [| discriminate].
    now rewrite set_unsigned_same, set_format_same.
Qed.

(** *** Walking the body of [run] *)

Ltac unfold_run :=
  unfold run, run_body, switch_directory, check_updates, create_update_pr,
    install_build_dependencies, setup_network_and_wallet, rofl_build,
    rofl_update, rofl_deploy, safe_proposal, debug, info, warning.

(** Reduces the fields of inputs that were set. *)
Ltac project :=
  cbn [set_format set_unsigned
       cliVersion checkUpdates createUpdatePr config deployment
       encrypted feeDenom force format gasLimit gasPrice machine
       network noContainer noUpdateManifest updateManifest nonce offer
       offline onlyValidate output outputFile provider replaceMachine
       showOffers term termCount unsigned verbose verify walletAccount
       walletImport walletAlgorithm walletNumber walletSecret
       wipeStorage workingDirectory skipBuild skipUpdate skipDeploy
       updateOutputFile deployOutputFile safeAddress safeProposerKey
       safeRpcUrl safeServiceUrl safeChainId safeDryRun]
    in *.

(** Walks the body of [run] with the invariant [J]: the configuration
    of the Safe mode gives the inputs of the rest as [i] with two fields
    set, and the rest after the check for updates is walked with the
    check switched off. *)
Ltac walk_step J :=
  lazymatch goal with
  | |- triple _ (bind (configure_safe_mode ?i) _) _ _ =>
      apply (triple_bind _ _ _
               (fun a w => J w /\ (a = configured i /\ validated a)));
      [ apply triple_configure_safe_mode
      | let u := fresh "u" in
        let f := fresh "f" in
        let E := fresh "E" in
        let Hsafe := fresh "Hsafe" in
        let Hvalid := fresh "Hvalid" in
        intros ?; apply triple_pure; intros [-> Hvalid];
        destruct (configured_shape i) as (u & f & E & Hsafe);
        rewrite E in *; clear E; project ]
  | |- triple _ (bind (when (checkUpdates ?i) _) _) _ _ =>
      destruct (checkUpdates i) eqn:?; unfold when at 1;
      [ apply (triple_bind _ _ _ (fun _ _ => False));
        [| intros ?; apply triple_false ]
      | apply (triple_bind _ _ _ (fun _ => J));
        [ apply triple_ret; auto |] ]
  | |- triple _ (bind (setFailed _) (fun _ => leave)) _ _ =>
      apply triple_fail_leave
  | |- triple _ (bind _ _) _ _ => apply (triple_bind _ _ _ (fun _ => J))
  | |- triple _ (ret _) _ _ => apply triple_ret
  | |- triple _ (throw _) _ _ => apply triple_throw
  | |- triple _ leave _ _ => apply triple_leave
  | |- triple _ (log _ _) _ _ => apply triple_log
  | |- triple _ (setOutput _ _) _ _ => apply triple_setOutput
  | |- triple _ (setFailed _) _ _ => apply triple_setFailed
  | |- triple _ (process_cwd _) _ _ => apply triple_process_cwd
  | |- triple _ (existsSync _ _) _ _ => apply triple_existsSync
  | |- triple _ (process_chdir _ _) _ _ => apply triple_process_chdir
  | |- triple _ (install _ _) _ _ => apply triple_install
  | |- triple _ (exec_ _ _ _) _ _ => apply triple_exec_
  | |- triple _ (exec_with _ _ _ _) _ _ => apply triple_exec_with
  | |- triple _ (runSafeProposal _ _ _ _ _ _) _ _ =>
      apply triple_runSafeProposal
  | |- triple _ (catch _ _) _ _ => apply (triple_catch_keeps J)
  | |- triple _ (when _ _) _ _ => unfold when at 1
  | |- triple _ (if ?b then _ else _) _ _ => destruct b eqn:?
  | |- triple _ (match ?x with _ => _ end) _ _ => destruct x eqn:?
  | |- triple _ (let _ := _ in _) _ _ => cbv zeta
  | |- forall _, _ => intros
  | |- let _ := _ in _ => intros
  end.

Ltac walk_with J := repeat (walk_step J).

(** The same with the steps of [hook] taken first. *)
Ltac walk_hooked hook J := repeat (first [hook | walk_step J]).

(** The end of [run]: what its body keeps, [run] keeps. *)
Lemma triple_run (J : World -> Prop) host fuel :
  (forall w message, J w -> J (add_failure w message)) ->
  triple J (run_body host fuel) (fun _ => J) (fun _ => J) ->
  triple J (run host fuel) (fun _ => J) (fun _ => J).
Proof.
  intros Hfail Hbody. unfold run.
  apply (triple_finish _ _ _ _ (fun _ => J)); auto.
  apply (triple_catch _ _ _ (fun _ => J)); auto.
  intros e. apply triple_setFailed. auto.
Qed.

Lemma final_holds (P J : World -> Prop) host fuel :
  triple P (run host fuel) (fun _ => J) (fun _ => J) ->
  P init_world -> J (final host fuel).
Proof.
  intros H H0. specialize (H init_world H0). unfold final.
  destruct (run host fuel init_world) as [w [[] | e | |]]; exact H.
Qed.

Lemma final_keeps (J : World -> Prop) host fuel :
  triple J (run host fuel) (fun _ => J) (fun _ => J) ->
  J init_world -> J (final host fuel).
Proof. apply final_holds. Qed.

(** Rewrites with the conditions of the path. *)
Ltac path_conditions :=
  repeat match goal with
         | H : _ && _ = true |- _ => apply andb_prop in H; destruct H
         end;
  repeat match goal with
         | H : _ = true |- _ => rewrite H
         | H : _ = false |- _ => rewrite H
         end.

(** Splits the conjunctions among the conditions of the path and turns
    them into equations on the inputs. *)
Ltac split_conditions :=
  repeat match goal with
         | H : _ && _ = true |- _ => apply andb_prop in H; destruct H
         | H : negb _ = true |- _ => apply negb_true_iff in H
         | H : negb _ = false |- _ => apply negb_false_iff in H
         end.

(** *** One path of [run] *)

Lemma bind_next {A B : Type} (m : R A) (k : A -> R B) w w' a r :
  m w = (w', Next a) -> k a w' = r -> bind m k w = r.
Proof. intros Hm Hk. unfold bind. now rewrite Hm. Qed.

Lemma bind_thrown {A B : Type} (m : R A) (k : A -> R B) w w' e :
  m w = (w', Thrown e) -> bind m k w = (w', Thrown e).
Proof. intros Hm. unfold bind. now rewrite Hm. Qed.

Lemma bind_returned {A B : Type} (m : R A) (k : A -> R B) w w' :
  m w = (w', Returned) -> bind m k w = (w', Returned).
Proof. intros Hm. unfold bind. now rewrite Hm. Qed.

Lemma run_returned host fuel w w' :
  run_body host fuel w = (w', Returned) -> run host fuel w = (w', Next tt).
Proof. intros H. unfold run, finish, catch. now rewrite H. Qed.

Lemma run_thrown host fuel w w' e :
  run_body host fuel w = (w', Thrown e) ->
  run host fuel w = (add_failure w' (errorMessage e), Next tt).
Proof. intros H. unfold run, finish, catch. now rewrite H. Qed.

Lemma exec_with_answer host ignore name arguments w r :
  exec host (steps w)
    {| cmd := name; args := arguments; ignoreReturnCode := ignore |} = inr r ->
  exec_with host ignore name arguments w =
    (add_step w (Exec {| cmd := name; args := arguments;
                         ignoreReturnCode := ignore |}), Next r).
Proof. intros H. unfold exec_with. now rewrite H. Qed.

Lemma exec_answer host name arguments w r :
  exec host (steps w) (command name arguments) = inr r ->
  exec_ host name arguments w =
    (add_step w (Exec (command name arguments)), Next tt).
Proof.
  intros H. unfold exec_.
  apply (bind_next _ _ _ _ _ _ (exec_with_answer _ _ _ _ _ _ H)).
  reflexivity.
Qed.

Lemma install_done host version w :
  installOasisCLI host (steps w) version = None ->
  install host version w = (add_step w (Install version), Next tt).
Proof. intros H. unfold install. now rewrite H. Qed.

(** Goes on with the next statement, which does not fail. *)
Ltac next :=
  eapply bind_next; [reflexivity |];
  cbn [steps outputs failures safe messages add_step add_message add_output
       add_failure set_safe with_messages init_world].

(** The switch to the working directory, when the run gets into it. *)
Lemma switch_directory_enters host w :
  enters host ->
  steps w = [] ->
  exists notes,
    switch_directory host (inputs_of host) w =
      ({| messages := notes;
          steps := entered host;
          outputs := outputs w;
          failures := failures w;
          safe := safe w |}, Next tt).
Proof.
  intros Henters Hw. unfold switch_directory, entered, when.
  destruct Henters as [H | (H & Hfound & Hchdir)]; rewrite H.
  - exists (messages w). destruct w. cbn in *. now subst.
  - eexists. eapply bind_next; [reflexivity |].
    eapply bind_next; [reflexivity |].
    rewrite Hw. fold (working_directory host). rewrite Hfound. cbn [negb].
    eapply bind_next.
    + unfold process_chdir. rewrite Hw, Hchdir. reflexivity.
    + unfold debug, log, add_message, add_step. cbn. rewrite Hw. reflexivity.
Qed.

(** The configuration of the Safe mode, when a step that is not skipped
    has no file: it throws, and has done no more than log. *)
Lemma configure_safe_mode_throws inputs w :
  truthy (safeAddress inputs) = true ->
  truthy (outputFile inputs) = false ->
  (skipUpdate inputs = false /\ truthy (updateOutputFile inputs) = false) \/
  (skipDeploy inputs = false /\ truthy (deployOutputFile inputs) = false) ->
  exists notes,
    configure_safe_mode inputs w =
      (with_messages w notes,
       Thrown (JsError
                 (output_file_required
                    (if negb (skipUpdate inputs)
                        && negb (truthy (updateOutputFile inputs))
                     then "update" else "deploy")))).
Proof.
  intros Hsafe Hfile Hlacks. unfold configure_safe_mode. rewrite Hsafe.
  assert (H1 : exists notes,
             (if negb (unsigned inputs)
              then bind
                     (info "Safe mode: automatically enabling unsigned transaction generation")
                     (fun _ => ret (set_unsigned inputs true))
              else ret inputs) w
             = (with_messages w notes, Next (set_unsigned inputs true))).
  { destruct (unsigned inputs) eqn:Hu; cbn [negb].
    - exists (messages w). rewrite <- Hu, set_unsigned_same.
      destruct w; reflexivity.
    - eexists. unfold bind, info, log, ret, add_message, with_messages.
      reflexivity. }
  destruct H1 as (notes1 & H1).
  set (i1 := set_unsigned inputs true) in *.
  set (w1 := with_messages w notes1) in *.
  assert (H2 : exists notes,
             (if negb (format i1 =? "cbor")
              then bind
                     (info "Safe mode: automatically setting format to cbor")
                     (fun _ => ret (set_format i1 "cbor"))
              else ret i1) w1
             = (with_messages w notes, Next (set_format i1 "cbor"))).
  { destruct (format i1 =? "cbor") eqn:Hf; cbn [negb].
    - exists notes1. apply String.eqb_eq in Hf.
      now rewrite <- Hf, set_format_same.
    - eexists. unfold bind, info, log, ret, add_message, with_messages.
      reflexivity. }
  destruct H2 as (notes2 & H2).
  exists notes2.
  eapply bind_next; [exact H1 |].
  eapply bind_next; [exact H2 |].
  subst i1. project. rewrite Hfile. cbn [negb]. rewrite !andb_true_r.
  unfold when, output_file_required.
  destruct (negb (skipUpdate inputs) && negb (truthy (updateOutputFile inputs)))
    eqn:Hu.
  - apply bind_thrown. reflexivity.
  - eapply bind_next; [reflexivity |].
    destruct Hlacks as [[Hs Ht] | [Hs Ht]].
    + rewrite Hs, Ht in Hu. discriminate Hu.
    + rewrite Hs, Ht. cbn [negb andb]. apply bind_thrown. reflexivity.
Qed.

Lemma configure_safe_mode_plain inputs w :
  truthy (safeAddress inputs) = false ->
  configure_safe_mode inputs w = (w, Next inputs).
Proof. intros H. unfold configure_safe_mode. now rewrite H. Qed.

(** The run of a check as far as the commands of the check: what they
    return with, the run ends with. *)
Lemma run_body_checks host fuel :
  checks host ->
  exists w0,
    (steps w0 = checking host /\ outputs w0 = [] /\ failures w0 = [] /\
     safe w0 = Safe.init_world) /\
    forall w,
      check_updates host (inputs_of host) w0 = (w, Returned) ->
      run host fuel init_world = (w, Next tt).
Proof.
  intros [Henters Hplain Hon Hinstall].
  destruct (switch_directory_enters host
              (add_message init_world AtDebug
                 (collected_inputs_debug (inputs_of host)))
              Henters eq_refl) as (notes1 & H1).
  destruct (updateManifest (inputs_of host)) eqn:Hmanifest.
  all: eexists; split; cycle 1.
  all: try (intros w Hw; apply run_returned; unfold run_body;
            change (collect (getInput host)) with (inputs_of host);
            next; (eapply bind_next; [exact H1 |]);
            next;
            (eapply bind_next;
             [apply configure_safe_mode_plain; exact Hplain |]);
            rewrite Hmanifest; unfold when;
            next; next; next; next;
            (eapply bind_next; [apply install_done; exact Hinstall |]);
            rewrite Hon; apply bind_returned; exact Hw).
  all: repeat split; reflexivity.
Qed.

Lemma answers_cons host history c r script :
  answers host history ((c, r) :: script) ->
  exec host history c = inr r /\ answers host (history ++ [Exec c]) script.
Proof. exact (fun H => H). Qed.

(** Goes on with a command that the host answers. *)
Ltac answered H :=
  let H0 := fresh in
  apply answers_cons in H; destruct H as [H0 H];
  first
    [ eapply bind_next; [eapply exec_answer; exact H0 |]
    | eapply bind_next; [eapply exec_with_answer; exact H0 |] ];
  cbn [steps outputs failures safe messages add_step add_message add_output
       add_failure set_safe with_messages init_world].



(** Unfolds the check to where its commands are, in a world with the
    steps of [checking]. *)
Ltac enter_check host fuel Hchecks Hrun :=
  let w0 := fresh "w0" in
  let Hsteps := fresh in
  let Houtputs := fresh in
  let Hfailures := fresh in
  let Hsafe := fresh in
  destruct (run_body_checks host fuel Hchecks)
    as (w0 & (Hsteps & Houtputs & Hfailures & Hsafe) & Hrun);
  destruct w0;
  cbn in Hsteps, Houtputs, Hfailures, Hsafe; subst.

(** *** What a run may do *)

Lemma respects_message p w level msg :
  respects p w -> respects p (add_message w level msg).
Proof. exact (fun H => H). Qed.

Lemma respects_failure p w message :
  respects p w -> respects p (add_failure w message).
Proof. exact (fun H => H). Qed.

Lemma respects_step p w s :
  respects p w -> allows_step p s -> respects p (add_step w s).
Proof.
  intros (Hs & Ho & Hz) H. repeat split; try assumption. cbn.
  apply Forall_app. split; [assumption | now constructor].
Qed.

Lemma respects_output p w name value :
  respects p w -> allows_output p name value ->
  respects p (add_output w name value).
Proof.
  intros (Hs & Ho & Hz) H. repeat split; try assumption. cbn.
  apply Forall_app. split; [assumption | now constructor].
Qed.

Lemma respects_safe p w s :
  respects p w -> allows_safe p s -> respects p (set_safe w s).
Proof. intros (Hs & Ho & Hz) H. repeat split; assumption. Qed.

Lemma respects_init p :
  allows_safe p Safe.init_world -> respects p init_world.
Proof. intros H. repeat split; [constructor | constructor | exact H]. Qed.

(** The leaves of a walk with a policy. *)
Ltac policy_leaf :=
  first
    [ apply respects_message; assumption
    | apply respects_failure; assumption
    | apply respects_step; [assumption |]
    | apply respects_output; [assumption |]
    | match goal with
      | |- match snd ?r with _ => _ end =>
          destruct (snd r); (apply respects_safe; [assumption |])
      end
    | assumption ].

(** A policy that the body of [run] respects is respected by the run. *)
Lemma policy_holds p host fuel :
  allows_safe p Safe.init_world ->
  triple (respects p) (run_body host fuel) (fun _ => respects p)
    (fun _ => respects p) ->
  respects p (final host fuel).
Proof.
  intros H0 Hbody. apply final_keeps; [| now apply respects_init].
  apply triple_run; [intros; assumption | exact Hbody].
Qed.

(** Walks the body of [run] with the invariant of the goal; the inputs
    of the host are [i] from then on. *)
Ltac policy_walk host i :=
  unfold_run;
  change (collect (getInput host)) with (inputs_of host) in *;
  set (i := inputs_of host) in *; clearbody i;
  match goal with
  | |- triple ?J _ _ _ => walk_with J
  end;
  unfold caught;
  try policy_leaf; try exact I.

Lemma has_flag_here name value rest :
  truthy value = true -> has_flag name value (flag name value ++ rest).
Proof.
  intros H. exists [], rest. unfold flag. now rewrite H.
Qed.

Lemma has_flag_later name value l rest :
  has_flag name value rest -> has_flag name value (l ++ rest).
Proof.
  intros (before & after & ->). exists (l ++ before), after.
  now rewrite app_assoc.
Qed.

Lemma has_flag_first name value rest :
  has_flag name value (name :: value :: rest).
Proof. now exists [], rest. Qed.

Lemma has_flag_cons name value x rest :
  has_flag name value rest -> has_flag name value (x :: rest).
Proof. intros (before & after & ->). now exists (x :: before), after. Qed.

(** Finds a flag, or a switch, in a command line. *)
Ltac find_flag :=
  repeat first
    [ apply has_flag_first
    | apply has_flag_here; first [reflexivity | assumption]
    | apply has_flag_cons
    | apply has_flag_later ].

Ltac find_switch :=
  repeat first
    [ apply in_eq
    | apply in_cons
    | apply in_or_app; right ].

(** *** The commands that fail *)

Lemma going_message w level msg :
  going w -> (level, msg) <> success -> going (add_message w level msg).
Proof.
  intros [Hf Hm] Hne. split; [exact Hf |]. cbn. intros Hin.
  apply in_app_or in Hin. destruct Hin as [Hin | [Heq | []]]; auto.
Qed.

(** A line that is not the last line of a run that got through. *)
Ltac other_line :=
  let Heq := fresh in
  intros Heq; unfold success in Heq;
  first [discriminate Heq | lazy in Heq; discriminate Heq].

Lemma snoc_split {A : Type} (l before after : list A) (x y : A) :
  l ++ [x] = before ++ y :: after ->
  (after = [] /\ before = l /\ y = x) \/
  (exists after', after = after' ++ [x] /\ l = before ++ y :: after').
Proof.
  intros H. destruct (rev after) as [| z rest] eqn:E.
  - left. apply (f_equal (@rev A)) in E. rewrite rev_involutive in E.
    cbn in E. subst after.
    apply app_inj_tail in H. destruct H as [-> ->]. auto.
  - right. apply (f_equal (@rev A)) in E. rewrite rev_involutive in E.
    cbn in E. subst after. exists (rev rest).
    change (before ++ y :: rev rest ++ [z])
      with (before ++ (y :: rev rest) ++ [z]) in H.
    rewrite app_assoc in H. apply app_inj_tail in H.
    destruct H as [-> ->]. auto.
Qed.

Lemma each_failure_nil host G : each_failure host G [].
Proof. intros [| x before] c after e H; discriminate H. Qed.

Lemma each_failure_weaken host
  (G G' : list Step -> Command -> list Step -> Exn -> Prop) history :
  each_failure host G history ->
  (forall before c after e, G before c after e -> G' before c after e) ->
  each_failure host G' history.
Proof. intros H HG before c after e Hs He. eauto. Qed.

Lemma each_failure_step host
  (G G' : list Step -> Command -> list Step -> Exn -> Prop) history s :
  each_failure host G history ->
  (forall before c after e,
     G before c after e -> G' before c (after ++ [s]) e) ->
  (forall c e, s = Exec c -> exec host history c = inl e ->
               G' history c [] e) ->
  each_failure host G' (history ++ [s]).
Proof.
  intros H Hold Hnew before c after e Hs He.
  apply snoc_split in Hs.
  destruct Hs as [(-> & -> & Hc) | (after' & -> & Hh)].
  - now apply Hnew.
  - apply Hold. exact (H before c after' e Hh He).
Qed.

(** What a command that answered twice answered. *)
Ltac same_answer E :=
  match goal with
  | H0 : exec ?h ?before _ = _, Hx : exec ?h ?before _ = _ |- _ =>
      pose proof (eq_trans (eq_sym H0) Hx) as E
  end.

(** The leaves of a walk on which no command but under [sudo] may fail
    and go by. *)
Ltac fatal_leaf :=
  let Hf := fresh "Hf" in
  let He := fresh "He" in
  match goal with
  | H : only_sudo_failed _ _ |- _ => destruct H as [Hf He]
  end;
  cbn [fatal_exit]; unfold only_sudo_failed;
  cbn [steps failures add_step add_failure add_message add_output set_safe];
  try (split; [exact Hf |]);
  first
    [ exact He
    | exact (each_failure_weaken _ _ _ _ He
               (fun _ _ _ _ Hx => or_introl Hx))
    | apply (each_failure_step _ _ _ _ _ He);
      [ intros; auto
      | let Hs := fresh in
        let Hx := fresh in
        let E := fresh in
        intros ? ? Hs Hx;
        first
          [ discriminate Hs
          | injection Hs as <-;
            first
              [ reflexivity
              | left; reflexivity
              | same_answer E;
                first
                  [ discriminate E
                  | injection E as ->; right; split; reflexivity ] ] ] ] ].

Section Tolerated.

Variables (host : Host) (i : Inputs).

Local Abbreviation J := (fun w => each_failure host (tolerated i w) (steps w)).
Local Abbreviation K := (fun w => each_failure host (pending i w) (steps w)).
Local Abbreviation U := (fun w => each_failure host (unwarned i w) (steps w)).

Lemma tolerated_message w level msg :
  J w -> J (add_message w level msg).
Proof.
  intros H. apply (each_failure_weaken _ _ _ _ H).
  intros before c after e Ht Hc. destruct (Ht Hc) as [Hw Hr].
  split; [| exact Hr]. cbn. apply in_or_app. now left.
Qed.

(** A step that is not a command under [sudo] that failed. *)
Lemma tolerated_step w s :
  J w ->
  (forall c e, s = Exec c -> exec host (steps w) c = inl e ->
               cmd c <> "sudo") ->
  J (add_step w s).
Proof.
  intros H Hs. apply (each_failure_step _ _ _ _ _ H).
  - intros before c after e Ht Hc. destruct (Ht Hc) as [Hw (rest & ->)].
    split; [exact Hw |]. now exists (rest ++ [s]).
  - intros c e Hc He Hsudo. now destruct (Hs c e Hc He).
Qed.

(** A command under [sudo] that failed, before the warning. *)
Lemma unwarned_step w s :
  J w -> U (add_step w s).
Proof.
  intros H. apply (each_failure_step _ _ _ _ _ H).
  - intros before c after e Ht Hc. destruct (Ht Hc) as [Hw (rest & ->)].
    right. split; [exact Hw |]. now exists (rest ++ [s]).
  - intros c e _ _ _. now left.
Qed.

Lemma pending_warning w :
  U w ->
  K (add_message w (fst dependencies_warning) (snd dependencies_warning)).
Proof.
  intros H. apply (each_failure_weaken _ _ _ _ H).
  intros before c after e Ht Hc.
  assert (Hw : In dependencies_warning
                 (messages (add_message w (fst dependencies_warning)
                              (snd dependencies_warning)))).
  { cbn [messages add_message]. apply in_or_app. right. now left. }
  split; [exact Hw |].
  destruct (Ht Hc) as [-> | [_ Hr]]; [now left | now right].
Qed.

Lemma tolerated_pending w : J w -> K w.
Proof.
  intros H. apply (each_failure_weaken _ _ _ _ H).
  intros before c after e Ht Hc. destruct (Ht Hc) as [Hw Hr]. auto.
Qed.

Lemma tolerated_set_default w :
  K w -> J (add_step w (Exec (set_default i))).
Proof.
  intros H. apply (each_failure_step _ _ _ _ _ H).
  - intros before c after e Ht Hc. destruct (Ht Hc) as [Hw Hr].
    split; [exact Hw |].
    destruct Hr as [-> | (rest & ->)];
      [now exists [] | now exists (rest ++ [Exec (set_default i)])].
  - intros c e Hc _ Hsudo. injection Hc as <-. discriminate Hsudo.
Qed.

End Tolerated.

(** The leaves of a walk on which a failed command under [sudo] is
    tolerated. *)
Ltac tolerated_leaf :=
  first
    [ assumption
    | apply tolerated_message; assumption
    | apply tolerated_step;
      [ assumption
      | let Hs := fresh in
        intros ? ? Hs _;
        first [discriminate Hs | injection Hs as <-; discriminate] ] ].

(** The installation of the build dependencies goes on after an
    [apt-get] that failed, with a warning. *)
Lemma install_build_dependencies_tolerates host i inputs :
  triple (fun w => each_failure host (tolerated i w) (steps w))
    (install_build_dependencies host inputs)
    (fun _ w => each_failure host (pending i w) (steps w))
    (fun _ w => each_failure host (tolerated i w) (steps w)).
Proof.
  unfold install_build_dependencies, when, info, warning.
  destruct (_ && _).
  2:{ apply triple_ret. apply tolerated_pending. }
  apply (triple_bind _ _ _
           (fun _ w => each_failure host (tolerated i w) (steps w))).
  { apply triple_log. intros. now apply tolerated_message. }
  intros _.
  apply (triple_catch _ _ _
           (fun x w =>
              match x with
              | Throws _ => each_failure host (unwarned i w) (steps w)
              | _ => each_failure host (tolerated i w) (steps w)
              end)); auto.
  - apply (triple_bind _ _ _
             (fun _ w => each_failure host (tolerated i w) (steps w))).
    + apply triple_exec_; cbv zeta.
      * intros w r H H0. apply tolerated_step; [exact H |].
        intros c e Hc He. injection Hc as <-.
        pose proof (eq_trans (eq_sym H0) He) as E. discriminate E.
      * intros w e H _. now apply unwarned_step.
    + intros _. apply triple_exec_; cbv zeta.
      * intros w r H H0. apply tolerated_pending.
        apply tolerated_step; [exact H |].
        intros c e Hc He. injection Hc as <-.
        pose proof (eq_trans (eq_sym H0) He) as E. discriminate E.
      * intros w e H _. now apply unwarned_step.
  - intros _. apply triple_log. intros w H.
    exact (pending_warning host i w H).
Qed.

(** Setting the default network comes next. *)
Lemma setup_network_and_wallet_follows host i inputs arguments :
  network inputs = network i ->
  triple (fun w => each_failure host (pending i w) (steps w))
    (setup_network_and_wallet host inputs arguments)
    (fun _ w => each_failure host (tolerated i w) (steps w))
    (fun _ w => each_failure host (tolerated i w) (steps w)).
Proof.
  intros Hn. unfold setup_network_and_wallet. rewrite Hn.
  apply (triple_bind _ _ _
           (fun _ w => each_failure host (tolerated i w) (steps w))).
  - apply triple_exec_; cbv zeta; intros;
      now apply (tolerated_set_default host i).
  - intros _.
    walk_with (fun w => each_failure host (tolerated i w) (steps w)).
    all: tolerated_leaf.
Qed.



(** *** The working directory and the Safe mode *)

(** X9.  A working directory that is not there.  When the input
    [working_directory] is not empty and the directory it names does not
    exist, [run] stops there: it has logged the collected inputs and
    nothing else, has taken no step (no change of directory, no
    installation, no command), has set no output, and is marked failed
    with the message that names the directory.  The directory is the
    input itself when it is absolute, and else the input joined to
    [GITHUB_WORKSPACE], or to the current directory when that variable
    is unset or empty. *)
Theorem missing_working_directory host fuel :
  truthy (workingDirectory (inputs_of host)) = true ->
  Safe.existsSync (sdk host []) (working_directory host) = false ->
  run host fuel init_world =
    ({| messages := [(AtDebug, collected_inputs_debug (inputs_of host))];
        steps := [];
        outputs := [];
        failures :=
          [("Working directory does not exist: "
            ++ working_directory host)%string];
        safe := Safe.init_world |},
     Next tt).
Proof.
  intros Hset Hmissing. apply run_returned. unfold run_body.
  change (collect (getInput host)) with (inputs_of host).
  next. apply bind_returned.
  unfold switch_directory, when. rewrite Hset.
  next. next. fold (working_directory host). rewrite Hmissing. cbn [negb].
  next. reflexivity.
Qed.

(** X10.  The Safe mode needs a file for each transaction.  With a Safe
    address given and no [output_file], when the update is not skipped
    and has no [update_output_file], or the deploy is not skipped and has
    no [deploy_output_file], the run is marked failed with the message
    that names the step (the update, when both lack a file) before the
    CLI is installed or any command is executed: its only step is the
    change to the working directory, if one is named; no output is set
    and the Safe proposal is not run. *)
Theorem safe_mode_needs_output_files host fuel :
  enters host ->
  truthy (safeAddress (inputs_of host)) = true ->
  truthy (outputFile (inputs_of host)) = false ->
  (skipUpdate (inputs_of host) = false /\
   truthy (updateOutputFile (inputs_of host)) = false) \/
  (skipDeploy (inputs_of host) = false /\
   truthy (deployOutputFile (inputs_of host)) = false) ->
  snd (run host fuel init_world) = Next tt /\
  steps (final host fuel) = entered host /\
  outputs (final host fuel) = [] /\
  failures (final host fuel) =
    [output_file_required
       (if negb (skipUpdate (inputs_of host))
           && negb (truthy (updateOutputFile (inputs_of host)))
        then "update" else "deploy")] /\
  safe (final host fuel) = Safe.init_world.
Proof.
  intros Henters Hsafe Hfile Hlacks.
  assert (H : exists notes,
            run host fuel init_world =
              ({| messages := notes;
                  steps := entered host;
                  outputs := [];
                  failures :=
                    [output_file_required
                       (if negb (skipUpdate (inputs_of host))
                           && negb (truthy (updateOutputFile (inputs_of host)))
                        then "update" else "deploy")];
                  safe := Safe.init_world |}, Next tt)).
  { destruct (switch_directory_enters host
                (add_message init_world AtDebug
                   (collected_inputs_debug (inputs_of host)))
                Henters eq_refl) as (notes1 & H1).
    match type of H1 with _ = (?w, _) => set (w1 := w) in * end.
    destruct (configure_safe_mode_throws (inputs_of host)
                (add_message w1 AtDebug
                   (walletImportArgs_debug (inputs_of host)))
                Hsafe Hfile Hlacks) as (notes2 & H2).
    exists notes2.
    match type of H2 with
    | _ = (?w, Thrown ?e) =>
        assert (Hbody : run_body host fuel init_world = (w, Thrown e))
    end.
    { unfold run_body.
      change (collect (getInput host)) with (inputs_of host).
      next. eapply bind_next; [exact H1 |].
      next. apply bind_thrown. exact H2. }
    rewrite (run_thrown _ _ _ _ _ Hbody). reflexivity. }
  destruct H as (notes & H). unfold final. rewrite H. cbn. auto.
Qed.

(** X11.  The Safe mode makes offline transactions.  With a Safe address
    given, every [oasis rofl update] and [oasis rofl deploy] that a run
    executes, on any host, carries [--unsigned], [--format cbor] and
    [--output-file] with a file that is not empty, whatever the inputs
    [unsigned] and [format] say. *)
Theorem safe_mode_commands host fuel c rest :
  truthy (safeAddress (inputs_of host)) = true ->
  ran host fuel c ->
  cmd c = "oasis" ->
  args c = "rofl" :: "update" :: rest \/ args c = "rofl" :: "deploy" :: rest ->
  unsigned_cbor_to_file rest.
Proof.
  intros Hmode Hran Hcmd Hargs.
  assert (H : respects safe_mode_policy (final host fuel)).
  { apply policy_holds; [exact I |]. clear Hran Hcmd Hargs c rest.
    policy_walk host i.
    all: cbn [allows_step safe_mode_policy cmd args].
    all: intros rest Hc Ha.
    all: try discriminate Hc.
    all: try (destruct Ha as [Ha | Ha]; discriminate Ha).
    all: try (unfold walletImportArgs in Ha;
              destruct Ha as [Ha | Ha]; discriminate Ha).
    all: destruct (Hsafe Hmode) as [-> ->].
    all: destruct (Hvalid Hmode) as [Hu Hd].
    all: match goal with
         | E : negb _ && negb _ = true |- _ =>
             apply andb_prop in E; destruct E as [E _];
             apply negb_true_iff in E
         end.
    all: try match goal with
             | E : skipUpdate _ = false |- _ => specialize (Hu E)
             end.
    all: try match goal with
             | E : skipDeploy _ = false |- _ => specialize (Hd E)
             end.
    all: unfold updateArgs, deployArgs in Ha;
      destruct Ha as [Ha | Ha]; try discriminate Ha;
      cbn [app] in Ha; injection Ha as <-.
    all: unfold unsigned_cbor_to_file; split; [| split].
    all: try solve [find_switch].
    all: try solve [find_flag].
    all: eexists; (split; [| solve [find_flag; auto]]); auto. }
  destruct H as (H & _). rewrite Forall_forall in H.
  exact (H _ Hran rest Hcmd Hargs).
Qed.

(** *** The steps, the outputs and the Safe proposal *)

(** X12.  A run executes [oasis rofl <subcommand>] only when the inputs
    switch the subcommand on: [upgrade] only in a check for updates;
    [build] only outside a check and without [skip_build]; [update] and
    [deploy] only outside a check, without their skip flag and without
    [only_validate]; and no other subcommand. *)
Theorem rofl_commands_are_enabled host fuel c subcommand rest :
  ran host fuel c ->
  cmd c = "oasis" -> args c = "rofl" :: subcommand :: rest ->
  enabled (inputs_of host) subcommand = true.
Proof.
  intros Hran Hcmd Hargs.
  assert (H : respects (enabled_policy (inputs_of host)) (final host fuel)).
  { apply policy_holds; [exact I |]. clear.
    policy_walk host i.
    all: cbn [allows_step enabled_policy cmd args].
    all: intros sub rest Hc Ha.
    all: first
           [ discriminate Hc
           | discriminate Ha
           | unfold walletImportArgs in Ha; discriminate Ha
           | unfold upgradeArgs, buildArgs, updateArgs, deployArgs in Ha;
             cbn [app] in Ha; injection Ha as <- _;
             unfold enabled; cbn [String.eqb Ascii.eqb Bool.eqb];
             path_conditions; reflexivity ]. }
  destruct H as (H & _). rewrite Forall_forall in H.
  exact (H _ Hran subcommand rest Hcmd Hargs).
Qed.

(** X13.  A check for updates does nothing but check.  With
    [check_updates] on, on any host, the Safe proposal is not run, every
    command executed is [oasis rofl upgrade] with the arguments of the
    inputs, a [git] or a [gh] command (so no build, update or deploy, no
    [apt-get], no wallet import and no [npm]), and the only outputs set
    are [updates_available] and [update_pr_url]. *)
Theorem check_updates_only_checks host fuel :
  checkUpdates (inputs_of host) = true ->
  safe (final host fuel) = Safe.init_world /\
  (forall c,
     ran host fuel c ->
     cmd c = "git" \/ cmd c = "gh" \/
     (cmd c = "oasis" /\ args c = upgradeArgs (inputs_of host))) /\
  (forall name value,
     In (name, value) (outputs (final host fuel)) ->
     name = "updates_available" \/ name = "update_pr_url").
Proof.
  intros Hcheck.
  assert (H : respects (check_policy (inputs_of host)) (final host fuel)).
  { apply policy_holds; [reflexivity |].
    policy_walk host i.
    all: try discriminate.
    all: cbn [allows_step allows_output check_policy cmd args]; auto. }
  destruct H as (Hsteps & Houtputs & Hsafe).
  rewrite Forall_forall in Hsteps, Houtputs.
  split; [exact Hsafe | split].
  - intros c Hc. exact (Hsteps _ Hc).
  - intros name value Ho. exact (Houtputs _ Ho).
Qed.

(** X14.  What a run pushes.  A [git push] is executed only in a check
    for updates with [create_update_pr] on, and it pushes the update
    branch, named after the first ten characters of the date, to
    [origin] with [-u], with [--force] or without. *)
Theorem pushes_only_the_update_branch host fuel c rest :
  ran host fuel c ->
  cmd c = "git" -> args c = "push" :: rest ->
  checkUpdates (inputs_of host) = true /\
  createUpdatePr (inputs_of host) = true /\
  (rest = ["-u"; "origin"; branchName host] \/
   rest = ["-u"; "origin"; branchName host; "--force"]).
Proof.
  intros Hran Hcmd Hargs.
  assert (H : respects (push_policy host (inputs_of host)) (final host fuel)).
  { apply policy_holds; [exact I |]. clear.
    policy_walk host i.
    all: cbn [allows_step push_policy cmd args].
    all: intros rest Hc Ha.
    all: try discriminate Hc.
    all: try discriminate Ha.
    all: cbn [app] in Ha; injection Ha as <-.
    all: repeat split; try assumption.
    all: match goal with
         | |- context [switch _ ?b] => destruct b; cbn [switch]; auto
         end. }
  destruct H as (H & _). rewrite Forall_forall in H.
  exact (H _ Hran rest Hcmd Hargs).
Qed.

(** X15.  Without a Safe address nothing of the Safe is touched: on any
    host the Safe proposal is not run, no [npm] command is executed and
    the output [safe_tx_hash] is not set. *)
Theorem no_safe_address_no_proposal host fuel :
  truthy (safeAddress (inputs_of host)) = false ->
  safe (final host fuel) = Safe.init_world /\
  (forall c, ran host fuel c -> cmd c <> "npm") /\
  (forall value, ~ In ("safe_tx_hash", value) (outputs (final host fuel))).
Proof.
  intros Hplain.
  assert (H : respects plain_policy (final host fuel)).
  { apply policy_holds; [reflexivity |].
    policy_walk host i.
    all: try discriminate.
    all: cbn [allows_step allows_output plain_policy cmd args];
      discriminate. }
  destruct H as (Hsteps & Houtputs & Hsafe).
  rewrite Forall_forall in Hsteps, Houtputs.
  split; [exact Hsafe | split].
  - intros c Hc. exact (Hsteps _ Hc).
  - intros value Ho. exact (Houtputs _ Ho eq_refl).
Qed.

(** X16.  The dry run, from the input to the wallet service.  With
    [safe_dry_run] on, a whole run of the action, on any host and whether
    it fails or not, proposes nothing: no propose request is among the
    effects of the Safe proposal or was counted, and the wallet
    service's record is as it was. *)
Theorem safe_dry_run_proposes_nothing host fuel :
  safeDryRun (inputs_of host) = true ->
  Props.quiet Safe.init_world (safe (final host fuel)).
Proof.
  intros Hdry.
  assert (H : respects dry_policy (final host fuel)).
  { apply policy_holds; [apply quiet_refl |].
    policy_walk host i.
    all: cbn [allows_safe dry_policy].
    all: destruct H as (_ & _ & H); cbn [allows_safe dry_policy] in H.
    all: apply (quiet_trans _ _ _ H).
    all: apply stays_quiet_runSafeProposal; exact Hdry. }
  exact (proj2 (proj2 H)).
Qed.

(** X17.  Where the outputs come from.  Whatever output a run sets is
    one of six: [build_output], [update_file] and [deploy_file] with the
    value of the input behind them, each only when its step is switched
    on; [safe_tx_hash] only with a Safe address and outside a check for
    updates; [updates_available] with the value [true] or [false], and
    [update_pr_url], only in a check for updates, the latter only with
    [create_update_pr] on. *)
Theorem outputs_come_from_inputs host fuel name value :
  In (name, value) (outputs (final host fuel)) ->
  comes_from (inputs_of host) name value.
Proof.
  intros Hin.
  assert (H : respects (output_policy (inputs_of host)) (final host fuel)).
  { apply policy_holds; [exact I |]. clear.
    policy_walk host i.
    all: cbn [allows_output output_policy]; unfold comes_from, enabled.
    all: cbn [String.eqb Ascii.eqb Bool.eqb].
    all: split_conditions.
    all: path_conditions.
    all: try match goal with
             | |- context [if ?b then _ else _] => destruct b
             end.
    all: tauto. }
  destruct H as (_ & H & _). rewrite Forall_forall in H.
  exact (H _ Hin).
Qed.

(** *** Failures *)

(** X18.  No error escapes [run], and a failed run does not report
    success.  With fuel for the three rounds of the retry loops, [run]
    returns normally on any host, and it ends either not marked failed,
    or marked failed once and without the line that says the deployment
    steps completed successfully among its log lines. *)
Theorem run_reports_its_failure host fuel :
  3 <= fuel ->
  snd (run host fuel init_world) = Next tt /\ settled (final host fuel).
Proof.
  intros Hfuel.
  assert (H : triple going (run host fuel) (fun _ => settled)
                (fun _ _ => False)).
  { unfold run.
    apply (triple_finish _ _ _ _
             (fun x w => match x with Returns => settled w | _ => False end));
      try (intros; assumption).
    apply (triple_catch _ _ _ stopped).
    - policy_walk host i.
      all: try (apply going_message; [assumption | other_line]).
      all: cbn [stopped]; try assumption.
      all: try (destruct H as [Hf Hm]; split; [exact Hm |];
                first [ now left
                      | right; eexists; cbn; rewrite Hf; reflexivity ]).
      + subst r.
        match goal with
        | |- match snd (Safe.runSafeProposal ?env _ ?si ?fs ?n ?p ?s) with
             | _ => _
             end =>
            pose proof (finishes_runSafeProposal env fuel si fs n p Hfuel s)
              as Hr;
            destruct (snd (Safe.runSafeProposal env fuel si fs n p s));
            [exact H | exact H | now apply Hr]
        end.
      + left. apply H.
    - intros e. apply triple_setFailed. intros w [Hf Hm]. right.
      exists (errorMessage e). split; [| exact Hm]. cbn. now rewrite Hf.
    - intros w [Hm [Hf | [m Hf]]]; [now left | right; now exists m].
    - intros w []. }
  assert (H0 : going init_world) by (split; [reflexivity | intros []]).
  specialize (H init_world H0). unfold final.
  destruct (run host fuel init_world) as [w [[] | e | |]]; cbn in *;
    try contradiction.
  split; [reflexivity | exact H].
Qed.

(** X19.  A failed command ends the run.  When a command that is not
    run under [sudo] fails, it is the last step of the run, and the run
    is marked failed with the message of what the command threw (the
    thrown value as a string, when it is not an error). *)
Theorem a_failed_command_ends_the_run host fuel before c after e :
  steps (final host fuel) = before ++ Exec c :: after ->
  exec host before c = inl e ->
  cmd c <> "sudo" ->
  after = [] /\
  failures (final host fuel) =
    [match e with
     | JsError message => message
     | JsThrown repr => repr
     end].
Proof.
  intros Hsteps Hfailed Hsudo.
  assert (H : fatal host (final host fuel)).
  { apply (final_holds (only_sudo_failed host));
      [| split; [reflexivity | apply each_failure_nil] ].
    unfold run.
    apply (triple_finish _ _ _ _ (fun _ => fatal host));
      try (intros; assumption).
    apply (triple_catch _ _ _ (fatal_exit host)).
    - clear.
      apply (triple_weaken _ (only_sudo_failed host) _ _
               (fun _ => only_sudo_failed host) _ (fatal_exit host)).
      + policy_walk host i.
        all: try fatal_leaf.
        subst r. destruct (snd _); fatal_leaf.
      + auto.
      + intros _ w [Hf He].
        exact (each_failure_weaken _ _ _ _ He
                 (fun _ _ _ _ Hx => or_introl Hx)).
      + auto.
    - intros thrown. apply triple_setFailed. intros w [Hf He].
      apply (each_failure_weaken _ _ _ _ He).
      intros _ c0 after0 e0 [Hc | [-> ->]]; [now left | right].
      split; [reflexivity |]. cbn. now rewrite Hf.
    - intros w He.
      exact (each_failure_weaken _ _ _ _ He
               (fun _ _ _ _ Hx => or_introl Hx)).
    - intros w He.
      exact (each_failure_weaken _ _ _ _ He
               (fun _ _ _ _ Hx => or_introl Hx)). }
  destruct (H before c after e Hsteps Hfailed) as [Hc | Hlast];
    [contradiction | exact Hlast].
Qed.

(** X20.  A failed installation of the build dependencies is
    tolerated.  When one of the [apt-get] commands run under [sudo]
    fails, the run logs the warning that names the packages and goes on:
    its next step is [oasis network set-default] (so the second
    [apt-get] is not tried after the first has failed). *)
Theorem apt_get_failure_is_tolerated host fuel before c after e :
  steps (final host fuel) = before ++ Exec c :: after ->
  exec host before c = inl e ->
  cmd c = "sudo" ->
  In dependencies_warning (messages (final host fuel)) /\
  exists rest, after = Exec (set_default (inputs_of host)) :: rest.
Proof.
  intros Hsteps Hfailed Hsudo.
  assert (H : each_failure host (tolerated (inputs_of host) (final host fuel))
                (steps (final host fuel))).
  { apply (final_keeps
             (fun w => each_failure host (tolerated (inputs_of host) w)
                         (steps w)));
      [| apply each_failure_nil ].
    clear. apply triple_run; [intros; assumption |].
    unfold run_body, switch_directory, check_updates, create_update_pr,
      rofl_build, rofl_update, rofl_deploy, safe_proposal, debug, info,
      warning.
    change (collect (getInput host)) with (inputs_of host) in *.
    set (i := inputs_of host) in *. clearbody i.
    walk_hooked
      ltac:(idtac;
            match goal with
            | |- triple _ (bind (install_build_dependencies _ _) _) _ _ =>
                apply (triple_bind _ _ _
                         (fun _ w =>
                            each_failure host (pending i w) (steps w)));
                [ apply install_build_dependencies_tolerates | intros _ ]
            | |- triple _ (bind (setup_network_and_wallet _ _ _) _) _ _ =>
                apply (triple_bind _ _ _
                         (fun _ w =>
                            each_failure host (tolerated i w) (steps w)));
                [ apply setup_network_and_wallet_follows; reflexivity
                | intros _ ]
            end)
      (fun w => each_failure host (tolerated i w) (steps w)).
    all: try tolerated_leaf.
    subst r. destruct (snd _); exact H. }
  exact (H before c after e Hsteps Hfailed Hsudo).
Qed.


(** *** The check for updates *)

(** X21.  A check that finds nothing.  In a check for updates without
    Safe mode, once the upgrade has run, when there is no manifest, or
    [git diff] on the manifests that are there exits with 0, the run
    ends there without failure: it has executed the upgrade, and the
    [git diff] if there is a manifest, and nothing after them, and its
    only output is [updates_available] set to [false]. *)
Theorem check_without_updates host fuel upgraded printed :
  checks host ->
  answers host (checking host)
    ((rofl_upgrade host, upgraded)
       :: (if Nat.eqb (length (manifests host)) 0 then []
           else [(git_diff host, done printed)])) ->
  snd (run host fuel init_world) = Next tt /\
  steps (final host fuel)
  = checking host
    ++ Exec (rofl_upgrade host)
       :: (if Nat.eqb (length (manifests host)) 0 then []
           else [Exec (git_diff host)]) /\
  outputs (final host fuel) = [("updates_available", "false")] /\
  failures (final host fuel) = [].
Proof.
  intros Hchecks Hanswers.
  enter_check host fuel Hchecks Hrun.
  pose proof (eq_refl (manifests host)) as Hm.
  unfold manifests at 2 in Hm. unfold rofl_upgrade in Hm. cbv zeta in Hm.
  match type of Hrun with
  | forall w, ?check = _ -> _ =>
      assert (H : exists w,
                check = (w, Returned) /\
                steps w
                = checking host
                  ++ Exec (rofl_upgrade host)
                     :: (if Nat.eqb (length (manifests host)) 0 then []
                         else [Exec (git_diff host)]) /\
                outputs w = [("updates_available", "false")] /\
                failures w = [])
  end.
  { unfold git_diff, rofl_upgrade, lenient in *.
    destruct (Nat.eqb (length (manifests host)) 0) eqn:Hnone.
    - eexists. split.
      + unfold check_updates, info, warning.
        next. answered Hanswers. next. next.
        rewrite <- Hm, Hnone.
        next. next. reflexivity.
      + cbn. rewrite <- ?app_assoc. auto.
    - eexists. split.
      + unfold check_updates, info, warning.
        next. answered Hanswers. next. next.
        rewrite <- Hm, Hnone.
        answered Hanswers. cbn [exitCode done Z.eqb negb].
        next. next. reflexivity.
      + cbn. rewrite <- ?app_assoc. auto. }
  destruct H as (w & Hcheck & Hs & Ho & Hf).
  unfold final. rewrite (Hrun w Hcheck). auto.
Qed.



(** *** Runs of the properties *)

(** Finds a step, or an output, among those of a run. *)
Ltac among := lazy; repeat first [left; reflexivity | right].

(** A run of [missing_working_directory]: the directory [app] of a
    workspace that has none. *)
Lemma missing_working_directory_witness :
  run Workflow.lost_host 0 init_world =
    ({| messages :=
          [(AtDebug,
            collected_inputs_debug (inputs_of Workflow.lost_host))];
        steps := [];
        outputs := [];
        failures :=
          [("Working directory does not exist: "
            ++ working_directory Workflow.lost_host)%string];
        safe := Safe.init_world |},
     Next tt).
Proof.
  apply (missing_working_directory Workflow.lost_host 0); reflexivity.
Defined.

(** A run of [safe_mode_needs_output_files]: a Safe address and no file
    at all. *)
Lemma safe_mode_needs_output_files_witness :
  snd (run Workflow.unfiled_host 3 init_world) = Next tt /\
  steps (final Workflow.unfiled_host 3) = entered Workflow.unfiled_host /\
  outputs (final Workflow.unfiled_host 3) = [] /\
  failures (final Workflow.unfiled_host 3) =
    [output_file_required
       (if negb (skipUpdate (inputs_of Workflow.unfiled_host))
           && negb (truthy (updateOutputFile (inputs_of Workflow.unfiled_host)))
        then "update" else "deploy")] /\
  safe (final Workflow.unfiled_host 3) = Safe.init_world.
Proof.
  apply (safe_mode_needs_output_files Workflow.unfiled_host 3).
  - left. reflexivity.
  - reflexivity.
  - reflexivity.
  - left. split; reflexivity.
Defined.

(** A run of [safe_mode_commands]: the update of a Safe deployment that
    asks neither for [unsigned] nor for a format. *)
Lemma safe_mode_commands_witness :
  unsigned_cbor_to_file
    ["--yes"; "--account"; "deployer"; "--deployment"; "default"; "--format";
     "cbor"; "--output-file"; "update.cbor"; "--unsigned"].
Proof.
  apply (safe_mode_commands Workflow.safe_host 3
           (command "oasis"
              ["rofl"; "update"; "--yes"; "--account"; "deployer";
               "--deployment"; "default"; "--format"; "cbor"; "--output-file";
               "update.cbor"; "--unsigned"])).
  - reflexivity.
  - among.
  - reflexivity.
  - left. reflexivity.
Defined.

(** A run of [rofl_commands_are_enabled]: the build of a Safe
    deployment. *)
Lemma rofl_commands_are_enabled_witness :
  enabled (inputs_of Workflow.safe_host) "build" = true.
Proof.
  apply (rofl_commands_are_enabled Workflow.safe_host 3
           (command "oasis"
              ["rofl"; "build"; "--deployment"; "default"; "--verify"])
           "build" ["--deployment"; "default"; "--verify"]).
  - among.
  - reflexivity.
  - reflexivity.
Defined.

(** A run of [check_updates_only_checks]: the check that opens a pull
    request. *)
Lemma check_updates_only_checks_witness :
  safe (final Workflow.upgraded_host 3) = Safe.init_world /\
  (forall c,
     ran Workflow.upgraded_host 3 c ->
     cmd c = "git" \/ cmd c = "gh" \/
     (cmd c = "oasis" /\
      args c = upgradeArgs (inputs_of Workflow.upgraded_host))) /\
  (forall name value,
     In (name, value) (outputs (final Workflow.upgraded_host 3)) ->
     name = "updates_available" \/ name = "update_pr_url").
Proof.
  apply (check_updates_only_checks Workflow.upgraded_host 3). reflexivity.
Defined.

(** A run of [pushes_only_the_update_branch]: the forced push of the
    check that opens a pull request. *)
Lemma pushes_only_the_update_branch_witness :
  checkUpdates (inputs_of Workflow.upgraded_host) = true /\
  createUpdatePr (inputs_of Workflow.upgraded_host) = true /\
  (["-u"; "origin"; "rofl-update-2026-01-15"; "--force"]
   = ["-u"; "origin"; branchName Workflow.upgraded_host] \/
   ["-u"; "origin"; "rofl-update-2026-01-15"; "--force"]
   = ["-u"; "origin"; branchName Workflow.upgraded_host; "--force"]).
Proof.
  apply (pushes_only_the_update_branch Workflow.upgraded_host 3
           (command "git"
              ["push"; "-u"; "origin"; "rofl-update-2026-01-15"; "--force"])).
  - among.
  - reflexivity.
  - reflexivity.
Defined.

(** A run of [no_safe_address_no_proposal]: a plain deployment. *)
Lemma no_safe_address_no_proposal_witness :
  safe (final Workflow.plain_host 3) = Safe.init_world /\
  (forall c, ran Workflow.plain_host 3 c -> cmd c <> "npm") /\
  (forall value,
     ~ In ("safe_tx_hash", value) (outputs (final Workflow.plain_host 3))).
Proof.
  apply (no_safe_address_no_proposal Workflow.plain_host 3). reflexivity.
Defined.

(** A run of [safe_dry_run_proposes_nothing]: the dry run of a Safe
    deployment. *)
Lemma safe_dry_run_proposes_nothing_witness :
  Props.quiet Safe.init_world (safe (final Workflow.dry_host 3)).
Proof.
  apply (safe_dry_run_proposes_nothing Workflow.dry_host 3). reflexivity.
Defined.

(** A run of [outputs_come_from_inputs]: the hash of the proposal of a
    Safe deployment. *)
Lemma outputs_come_from_inputs_witness :
  comes_from (inputs_of Workflow.safe_host) "safe_tx_hash" "0x5afe".
Proof.
  apply (outputs_come_from_inputs Workflow.safe_host 3). among.
Defined.

(** A run of [run_reports_its_failure]: a deployment whose build
    fails. *)
Lemma run_reports_its_failure_witness :
  snd (run Workflow.broken_host 3 init_world) = Next tt /\
  settled (final Workflow.broken_host 3).
Proof.
  apply (run_reports_its_failure Workflow.broken_host 3). lia.
Defined.

(** A run of [a_failed_command_ends_the_run]: the build fails after the
    wallet has been imported. *)
Lemma a_failed_command_ends_the_run_witness :
  @nil Step = [] /\
  failures (final Workflow.broken_host 3)
  = ["The process 'oasis' failed with exit code 1"].
Proof.
  apply (a_failed_command_ends_the_run Workflow.broken_host 3
           [Install "latest";
            Exec (command "sudo" ["apt-get"; "update"; "-qq"]);
            Exec (command "sudo"
                    ["apt-get"; "install"; "-y"; "-qq"; "squashfs-tools";
                     "fakeroot"; "cryptsetup-bin"; "qemu-utils"]);
            Exec (command "oasis" ["network"; "set-default"; "testnet"]);
            Exec (command "oasis"
                    ["wallet"; "import"; "deployer"; "--yes"; "--secret";
                     "5ec2e7"]);
            Exec (command "oasis" ["wallet"; "set-default"; "deployer"])]
           (command "oasis" ["rofl"; "build"; "--verify"]) []
           (JsError "The process 'oasis' failed with exit code 1")).
  - lazy. reflexivity.
  - reflexivity.
  - discriminate.
Defined.

(** A run of [apt_get_failure_is_tolerated]: a machine without
    [sudo]. *)
Lemma apt_get_failure_is_tolerated_witness :
  In dependencies_warning (messages (final Workflow.bare_host 3)) /\
  exists rest,
    skipn 2 (steps (final Workflow.bare_host 3))
    = Exec (set_default (inputs_of Workflow.bare_host)) :: rest.
Proof.
  apply (apt_get_failure_is_tolerated Workflow.bare_host 3
           [Install "latest"]
           (command "sudo" ["apt-get"; "update"; "-qq"])
           (skipn 2 (steps (final Workflow.bare_host 3)))
           (JsError "The process 'sudo' failed with exit code 1")).
  - lazy. reflexivity.
  - reflexivity.
  - reflexivity.
Defined.

(** A run of [check_without_updates]: the manifest is as it was. *)
Lemma check_without_updates_witness :
  snd (run Workflow.unchanged_host 3 init_world) = Next tt /\
  steps (final Workflow.unchanged_host 3)
  = checking Workflow.unchanged_host
    ++ Exec (rofl_upgrade Workflow.unchanged_host)
       :: (if Nat.eqb (length (manifests Workflow.unchanged_host)) 0 then []
           else [Exec (git_diff Workflow.unchanged_host)]) /\
  outputs (final Workflow.unchanged_host 3)
  = [("updates_available", "false")] /\
  failures (final Workflow.unchanged_host 3) = [].
Proof.
  apply (check_without_updates Workflow.unchanged_host 3 (done []) []).
  - constructor; [left; reflexivity | reflexivity | reflexivity | reflexivity].
  - lazy. repeat split; reflexivity.
Defined.



